(** * FileVault: content-addressed deduplication (backend/files)

    Shallow embedding of [compute_file_hash], [FileViewSet.create],
    [FileViewSet.destroy] and [FileViewSet.get_queryset] from
    [backend/files/views.py], over the [File] model of
    [backend/files/models.py] and the [FileSerializer] of
    [backend/files/serializers.py]. *)

From Stdlib Require Import List String Ascii ZArith Lia Bool.
From Stdlib Require Import Sorting.Sorted Sorting.Permutation.
Import ListNotations.

Open Scope string_scope.
Open Scope Z_scope.
Open Scope list_scope.

(** ** Uploaded files (Django [UploadedFile]) seen as seekable streams. *)

Record UploadedFile := mkUploadedFile {
  uf_name : string;            (* file_obj.name *)
  uf_content_type : string;    (* file_obj.content_type *)
  uf_data : list Byte.byte;    (* the bytes of the upload *)
  uf_pos : nat                 (* the stream's read position, file_obj.tell() *)
}.

(** [file_obj.size] *)
Definition uf_size (f : UploadedFile) : Z := Z.of_nat (List.length (uf_data f)).

Definition tell (f : UploadedFile) : nat := uf_pos f.

Definition seek (f : UploadedFile) (p : nat) : UploadedFile :=
  {| uf_name := uf_name f; uf_content_type := uf_content_type f;
     uf_data := uf_data f; uf_pos := p |}.

(** [file_obj.read(n)]: at most [n] bytes from the current position;
    the position advances by the number of bytes returned. *)
Definition read (f : UploadedFile) (n : nat) : list Byte.byte * UploadedFile :=
  let chunk := firstn n (skipn (uf_pos f) (uf_data f)) in
  (chunk, seek f (uf_pos f + List.length chunk)%nat).

(** ** The [File] model (models.py) *)

(** The name a blob is stored under (see [upload_location]): the uuid4 draw
    of [file_upload_path] that names it, and the text after
    ["uploads/<uuid>."] of the generated name. Distinct draws give distinct
    names; a name [get_available_name] shortens ends in a random suffix it
    checks is free. *)
Record Locator := mkLocator { loc_uuid : nat; loc_ext : string }.

Definition locator_eqb (a b : Locator) : bool :=
  Nat.eqb (loc_uuid a) (loc_uuid b) && String.eqb (loc_ext a) (loc_ext b).

Record File := mkFile {
  f_id : nat;                       (* UUIDField(primary_key, default=uuid4) *)
  f_file : option Locator;          (* FileField; None is the empty (falsy) FieldFile *)
  f_original_filename : string;
  f_file_type : string;
  f_size : Z;
  f_uploaded_at : Z;                (* auto_now_add *)
  f_content_hash : option string;   (* unique, null=True *)
  f_is_duplicate : bool;
  f_reference_count : Z;
  f_referenced_file : option nat    (* ForeignKey('self', on_delete=PROTECT) *)
}.

(** Writes of a transaction, kept in order until commit. *)
Inductive Write :=
| WInsert (r : File)                  (* INSERT *)
| WUpdateRefcount (id : nat) (d : Z)  (* UPDATE ... SET reference_count = reference_count + d *)
| WSave (r : File)                    (* instance.save() on an existing row: UPDATE every column *)
| WDelete (id : nat).                 (* DELETE ... WHERE id = ... *)

Definition set_refcount (r : File) (n : Z) : File :=
  {| f_id := f_id r; f_file := f_file r; f_original_filename := f_original_filename r;
     f_file_type := f_file_type r; f_size := f_size r; f_uploaded_at := f_uploaded_at r;
     f_content_hash := f_content_hash r; f_is_duplicate := f_is_duplicate r;
     f_reference_count := n; f_referenced_file := f_referenced_file r |}.

Definition set_file (r : File) (l : option Locator) : File :=
  {| f_id := f_id r; f_file := l; f_original_filename := f_original_filename r;
     f_file_type := f_file_type r; f_size := f_size r; f_uploaded_at := f_uploaded_at r;
     f_content_hash := f_content_hash r; f_is_duplicate := f_is_duplicate r;
     f_reference_count := f_reference_count r; f_referenced_file := f_referenced_file r |}.

Definition apply_write (rows : list File) (w : Write) : list File :=
  match w with
  | WInsert r => rows ++ [r]
  | WUpdateRefcount id d =>
      map (fun r => if Nat.eqb (f_id r) id then set_refcount r (f_reference_count r + d) else r) rows
  | WSave r =>
      if existsb (fun x => Nat.eqb (f_id x) (f_id r)) rows
      then map (fun x => if Nat.eqb (f_id x) (f_id r) then r else x) rows
      else rows ++ [r]
  | WDelete id => filter (fun r => negb (Nat.eqb (f_id r) id)) rows
  end.

Definition apply_log (rows : list File) (log : list Write) : list File :=
  fold_left apply_write log rows.

(** Database, blob storage and the connection's transaction status. *)
Record State := mkState {
  st_db : list File;                        (* committed rows of the files table *)
  st_log : list Write;                      (* writes of the open transaction *)
  st_blobs : list (Locator * list Byte.byte); (* default_storage *)
  st_uuid : nat;                            (* source of fresh uuid4() values *)
  st_needs_rollback : bool                  (* connection.needs_rollback *)
}.

(** What the current transaction reads. *)
Definition view (s : State) : list File := apply_log (st_db s) (st_log s).

Inductive PyExc :=
| ValidationError (errors : list (string * string))  (* rest_framework ValidationError: 400 *)
| PermissionDenied (detail : string)                 (* 403 *)
| NotFound                                           (* Http404 from get_object: 404 *)
| IntegrityError
| TransactionManagementError
| DoesNotExist
| MultipleObjectsReturned
| ProtectedError
| SuspiciousFileOperation.

Inductive Result (A : Type) := Ok (a : A) | Raise (e : PyExc).
Arguments Ok {A} a.
Arguments Raise {A} e.

(** Request handlers run in a state and exception monad. *)
Definition M (A : Type) : Type := State -> State * Result A.

Definition ret {A} (a : A) : M A := fun s => (s, Ok a).
Definition raise {A} (e : PyExc) : M A := fun s => (s, Raise e).
Definition bind {A B} (m : M A) (k : A -> M B) : M B :=
  fun s => match m s with
           | (s', Ok a) => k a s'
           | (s', Raise e) => (s', Raise e)
           end.

Notation "'let*' x ':=' m 'in' k" := (bind m (fun x => k))
  (at level 200, x name, m at level 100, k at level 200).
Notation "m ;; k" := (bind m (fun _ => k)) (at level 100, right associativity).

Definition get_state : M State := fun s => (s, Ok s).

(** Every query first checks [validate_no_broken_transaction]. *)
Definition check_tx : M unit :=
  fun s => if st_needs_rollback s then (s, Raise TransactionManagementError) else (s, Ok tt).

Definition log_write (w : Write) : M unit :=
  check_tx ;; (fun s =>
    ({| st_db := st_db s; st_log := st_log s ++ [w]; st_blobs := st_blobs s;
        st_uuid := st_uuid s; st_needs_rollback := st_needs_rollback s |}, Ok tt)).

(** [mark_for_rollback_on_error] around [Model.save_base]. *)
Definition mark_needs_rollback : M unit :=
  fun s => ({| st_db := st_db s; st_log := st_log s; st_blobs := st_blobs s;
               st_uuid := st_uuid s; st_needs_rollback := true |}, Ok tt).

(** [uuid.uuid4()] *)
Definition uuid4 : M nat :=
  fun s => ({| st_db := st_db s; st_log := st_log s; st_blobs := st_blobs s;
               st_uuid := S (st_uuid s); st_needs_rollback := st_needs_rollback s |},
            Ok (st_uuid s)).

(** The write of [default_storage.save] under a name [upload_location]
    accepted; the blob store is not transactional. *)
Definition storage_save (l : Locator) (data : list Byte.byte) : M unit :=
  fun s => ({| st_db := st_db s; st_log := st_log s; st_blobs := (l, data) :: st_blobs s;
               st_uuid := st_uuid s; st_needs_rollback := st_needs_rollback s |}, Ok tt).

(** [default_storage.delete(name)] *)
Definition storage_delete (l : Locator) : M unit :=
  fun s => ({| st_db := st_db s; st_log := st_log s;
               st_blobs := filter (fun e => negb (locator_eqb (fst e) l)) (st_blobs s);
               st_uuid := st_uuid s; st_needs_rollback := st_needs_rollback s |}, Ok tt).

Definition hash_eqb (h : string) (r : File) : bool :=
  match f_content_hash r with Some h' => String.eqb h' h | None => false end.

(** [File.objects.filter(content_hash=h).first()]; the unique index leaves
    at most one row to choose from. *)
Definition filter_hash_first (h : string) : M (option File) :=
  check_tx ;; (fun s => (s, Ok (find (hash_eqb h) (view s)))).

(** [File.objects.get(content_hash=h)] *)
Definition get_by_hash (h : string) : M File :=
  check_tx ;; (fun s =>
    match filter (hash_eqb h) (view s) with
    | [r] => (s, Ok r)
    | [] => (s, Raise DoesNotExist)
    | _ => (s, Raise MultipleObjectsReturned)
    end).

(** [File.objects.get(pk=id)] *)
Definition get_by_id (id : nat) : M File :=
  check_tx ;; (fun s =>
    match filter (fun r => Nat.eqb (f_id r) id) (view s) with
    | [r] => (s, Ok r)
    | [] => (s, Raise DoesNotExist)
    | _ => (s, Raise MultipleObjectsReturned)
    end).

(** [File.objects.create(...)] / the INSERT of [Model.save]: the primary key
    and the unique [content_hash] are checked by the database. *)
Definition insert_row (r : File) : M unit :=
  check_tx ;;
  let* s := get_state in
  if existsb (fun x => Nat.eqb (f_id x) (f_id r)
                       || match f_content_hash r with
                          | Some h => hash_eqb h x | None => false end) (view s)
  then mark_needs_rollback ;; raise IntegrityError
  else log_write (WInsert r).

(** [File.objects.filter(id=id).update(reference_count=F('reference_count') + d)] *)
Definition update_refcount (id : nat) (d : Z) : M unit := log_write (WUpdateRefcount id d).

(** [instance.delete()]: the collector refuses while a row references the
    instance through the [PROTECT] foreign key. *)
Definition delete_row (r : File) : M unit :=
  check_tx ;;
  let* s := get_state in
  if existsb (fun x => match f_referenced_file x with
                       | Some i => Nat.eqb i (f_id r) | None => false end) (view s)
  then raise ProtectedError
  else log_write (WDelete (f_id r)).

(** [transaction.atomic()] as the outermost block: commit on normal exit,
    roll the database back on an exception or a pending [needs_rollback]. *)
Definition atomic {A} (body : M A) : M A :=
  fun s =>
    let '(s', res) := body s in
    let ok := match res with Ok _ => negb (st_needs_rollback s') | Raise _ => false end in
    if ok
    then ({| st_db := view s'; st_log := []; st_blobs := st_blobs s';
             st_uuid := st_uuid s'; st_needs_rollback := false |}, res)
    else ({| st_db := st_db s'; st_log := st_log s; st_blobs := st_blobs s';
             st_uuid := st_uuid s'; st_needs_rollback := st_needs_rollback s |}, res).

(** ** [FileSerializer] validation of the canonical upload *)

Definition is_py_space (c : ascii) : bool :=
  match nat_of_ascii c with
  | 9 | 10 | 11 | 12 | 13 | 28 | 29 | 30 | 31 | 32 | 133 | 160 => true
  | _ => false
  end%nat.

Fixpoint lstrip (s : string) : string :=
  match s with
  | EmptyString => EmptyString
  | String c s' => if is_py_space c then lstrip s' else s
  end.

Definition rev_string (s : string) : string := string_of_list_ascii (rev (list_ascii_of_string s)).

(** [str.strip()]; a string is a Python [str] whose code points are below 256. *)
Definition py_strip (s : string) : string := rev_string (lstrip (rev_string (lstrip s))).

Definition has_null_char (s : string) : bool :=
  existsb (fun c => Nat.eqb (nat_of_ascii c) 0) (list_ascii_of_string s).

(** [filename.split('.')[-1]] in [file_upload_path] *)
Fixpoint file_ext (s : string) : string :=
  match s with
  | EmptyString => EmptyString
  | String c s' =>
      if existsb (fun d => Ascii.eqb d "."%char) (list_ascii_of_string s')
      then file_ext s'
      else if Ascii.eqb c "."%char then s' else s
  end.

(** [str(n)] of a natural number: its decimal digits. *)
Fixpoint decimal_digits_rev (fuel n : nat) : list ascii :=
  match fuel with
  | O => []
  | S fuel' =>
      let d := ascii_of_nat (48 + n mod 10) in
      if Nat.ltb n 10 then [d] else d :: decimal_digits_rev fuel' (n / 10)
  end%nat.

Definition nat_to_string (n : nat) : string :=
  string_of_list_ascii (rev (decimal_digits_rev (S n) n)).

(** ** Storage names: [FieldFile.save] with [max_length=100] *)

(** One lowercase hexadecimal digit. *)
Definition hex_digit (n : nat) : ascii :=
  ascii_of_nat (if Nat.ltb n 10 then 48 + n else 87 + n)%nat.

(** The [k] low hexadecimal digits of [n], most significant first. *)
Fixpoint hex_digits (k n : nat) : list ascii :=
  match k with
  | O => []
  | S k' => hex_digits k' (n / 16) ++ [hex_digit (n mod 16)]
  end%nat.

(** [str(uuid.uuid4())] of a drawn uuid: 32 hexadecimal digits grouped
    8-4-4-4-12. *)
Definition uuid_hex (u : nat) : string :=
  let d := hex_digits 32 u in
  string_of_list_ascii
    (firstn 8 d ++ ["-"%char] ++ firstn 4 (skipn 8 d) ++ ["-"%char] ++
     firstn 4 (skipn 12 d) ++ ["-"%char] ++ firstn 4 (skipn 16 d) ++ ["-"%char] ++
     skipn 20 d).

(** [str.replace(a, b)] for one character. *)
Definition replace_char (a b : ascii) (s : string) : string :=
  string_of_list_ascii
    (map (fun c => if Ascii.eqb c a then b else c) (list_ascii_of_string s)).

Fixpoint split_on (sep : ascii) (l : list ascii) : list (list ascii) :=
  match l with
  | [] => [[]]
  | c :: l' =>
      let parts := split_on sep l' in
      if Ascii.eqb c sep then [] :: parts
      else match parts with
           | p :: ps => (c :: p) :: ps
           | [] => [[c]]
           end
  end.

(** [s.split(sep)] *)
Definition str_split (sep : ascii) (s : string) : list string :=
  map string_of_list_ascii (split_on sep (list_ascii_of_string s)).

Definition starts_with_slash (p : string) : bool :=
  match p with
  | String c _ => Ascii.eqb c "/"
  | EmptyString => false
  end.

Fixpoint lstrip_slash (s : string) : string :=
  match s with
  | EmptyString => EmptyString
  | String c s' => if Ascii.eqb c "/" then lstrip_slash s' else s
  end.

(** [PurePosixPath(p).parts] of a relative path: its components, without
    empty and ['.'] ones. *)
Definition path_parts (p : string) : list string :=
  filter (fun x => negb (String.eqb x "" || String.eqb x ".")) (str_split "/" p).

Definition has_dotdot_part (p : string) : bool := existsb (String.eqb "..") (path_parts p).

(** [posixpath.basename] *)
Definition basename (p : string) : string := last (str_split "/" p) "".

(** [posixpath.split]: the head up to the last ['/'], stripped of trailing
    ['/'] unless it is made of slashes only, and the tail after it. *)
Definition path_split (p : string) : string * string :=
  let tail := basename p in
  let head := substring 0 (String.length p - String.length tail) p in
  let head' := rev_string (lstrip_slash (rev_string head)) in
  (if String.eqb head' "" then head else head', tail).

(** [posixpath.join(a, b)] *)
Definition path_join (a b : string) : string :=
  if starts_with_slash b then b
  else if String.eqb a "" || starts_with_slash (rev_string a) then String.append a b
  else String.append a (String "/" b).

(** [posixpath.normpath] of a path that does not start with ['/']. *)
Definition normpath (p : string) : string :=
  let comps :=
    fold_left (fun acc c =>
                 if String.eqb c "" || String.eqb c "." then acc
                 else if negb (String.eqb c "..")
                         || match acc with [] => true | x :: _ => String.eqb x ".." end
                 then c :: acc
                 else tl acc) (str_split "/" p) [] in
  let r := String.concat "/" (rev comps) in
  if String.eqb r "" then "." else r.

Definition is_dot_name (s : string) : bool :=
  String.eqb s "" || String.eqb s "." || String.eqb s "..".

(** [django.core.files.utils.validate_file_name]; [false] where it raises
    [SuspiciousFileOperation]. *)
Definition validate_file_name (name : string) (allow_relative_path : bool) : bool :=
  if is_dot_name (basename name) then false
  else if allow_relative_path
  then let p := replace_char "\" "/" name in
       negb (starts_with_slash p) && negb (has_dotdot_part p)
  else String.eqb name (basename name).

(** The characters of [\w] (Python [str.isalnum()] or ['_']) among code
    points below 256. *)
Definition is_word_char (c : ascii) : bool :=
  let n := nat_of_ascii c in
  (((48 <=? n) && (n <=? 57)) || ((65 <=? n) && (n <=? 90))
  || ((97 <=? n) && (n <=? 122)) || (n =? 95)
  || (n =? 170) || (n =? 178) || (n =? 179) || (n =? 181) || (n =? 185) || (n =? 186)
  || ((188 <=? n) && (n <=? 190)) || ((192 <=? n) && (n <=? 214))
  || ((216 <=? n) && (n <=? 246)) || (248 <=? n))%nat.

(** [[-\w.]] *)
Definition valid_name_char (c : ascii) : bool :=
  Ascii.eqb c "-" || Ascii.eqb c "." || is_word_char c.

(** [Storage.get_valid_name], i.e. [get_valid_filename]: strip, spaces to
    ['_'], drop every character outside [[-\w.]]; [None] where it raises
    [SuspiciousFileOperation] (nothing, ['.'] or ['..'] is left). *)
Definition get_valid_name (name : string) : option string :=
  let s := replace_char " " "_" (py_strip name) in
  let s := string_of_list_ascii (filter valid_name_char (list_ascii_of_string s)) in
  if is_dot_name s then None else Some s.

(** [file_upload_path(instance, filename)]:
    [os.path.join('uploads', f"{uuid.uuid4()}.{ext}")] with
    [ext = filename.split('.')[-1]]; [name_uuid] is the uuid drawn. *)
Definition file_upload_path (name_uuid : nat) (filename : string) : string :=
  path_join "uploads" (String.append (uuid_hex name_uuid) (String "." (file_ext filename))).

(** [Storage.generate_filename(filename)]; [None] where it raises
    [SuspiciousFileOperation]. *)
Definition storage_generate_filename (filename : string) : option string :=
  let filename := replace_char "\" "/" filename in
  let '(dirname, filename) := path_split filename in
  if has_dotdot_part dirname then None
  else match get_valid_name filename with
       | None => None
       | Some v => Some (normpath (path_join dirname v))
       end.

(** [FileField.generate_filename(instance, filename)] with
    [upload_to=file_upload_path]. *)
Definition field_generate_filename (name_uuid : nat) (filename : string) : option string :=
  let filename := file_upload_path name_uuid filename in
  if validate_file_name filename true then storage_generate_filename filename else None.

Fixpoint take_while {A} (p : A -> bool) (l : list A) : list A :=
  match l with
  | [] => []
  | x :: l' => if p x then x :: take_while p l' else []
  end.

(** [posixpath.splitext] of a name without ['/']: the extension runs from
    the last ['.'] when a character other than ['.'] comes before it.
    (Django 5.1 takes [''.join(PurePath(name).suffixes)] instead; the two
    agree on the names [storage_generate_filename] gives here, which hold at
    most one ['.'].) *)
Definition splitext (p : string) : string * string :=
  let r := rev (list_ascii_of_string p) in
  let ext_r := take_while (fun c => negb (Ascii.eqb c ".")) r in
  let root_r := skipn (S (List.length ext_r)) r in
  if Nat.eqb (List.length ext_r) (List.length r) then (p, "")
  else if existsb (fun c => negb (Ascii.eqb c ".")) root_r
  then (string_of_list_ascii (rev root_r), String "." (string_of_list_ascii (rev ext_r)))
  else (p, "").

(** What [get_available_name] settles on. *)
Inductive AvailableName :=
| KeepName                                  (* the name itself *)
| AlternativeName (dir root ext : string).  (* [dir/root_<7 random characters>ext] *)

(** [Storage.get_available_name(name, max_length=100)] for a name no stored
    file has (its uuid4 part is fresh). A name over 100 characters enters the
    loop once: [get_alternative_name] adds ['_'] and 7 random characters,
    the root is cut by the excess, and [SuspiciousFileOperation] is raised
    ([None]) when nothing of the root is left; the shortened name has 100
    characters and the random part keeps it free, so the loop ends. *)
Definition get_available_name (name : string) : option AvailableName :=
  let name := replace_char "\" "/" name in
  let '(dir_name, file_name) := path_split name in
  if has_dotdot_part dir_name then None
  else if negb (validate_file_name file_name false) then None
  else
    let '(file_root, ext) := splitext file_name in
    if Nat.leb (String.length name) 100 then Some KeepName
    else
      let alt_length :=
        (String.length (path_join dir_name file_root) + 8 + String.length ext)%nat in
      let truncation := (alt_length - 100)%nat in
      let file_root := substring 0 (String.length file_root - truncation) file_root in
      if String.eqb file_root "" then None
      else Some (AlternativeName dir_name file_root ext).

(** The name [FieldFile.save(file.name, file)] (from [FileField.pre_save])
    stores an upload under: [FileField.generate_filename] with
    [file_upload_path], then [default_storage.save(name, content,
    max_length=100)], which validates the name and asks
    [get_available_name]. [None] where one of them raises
    [SuspiciousFileOperation]: nothing has been written then. The locator
    keeps the name draw and the text after ["uploads/<uuid>."] of the
    generated name. *)
Definition upload_location (name_uuid : nat) (filename : string) : option Locator :=
  match field_generate_filename name_uuid filename with
  | None => None
  | Some name =>
      if negb (validate_file_name name true) then None
      else match get_available_name name with
           | None => None
           | Some _ =>
               Some {| loc_uuid := name_uuid;
                       loc_ext := substring 45 (String.length name - 45) name |}
           end
  end.

(** ** The extension of a stored name *)

(** ['/'] and ['\'], the characters [Storage.generate_filename] treats as
    path separators. *)
Definition is_path_sep (c : ascii) : bool := Ascii.eqb c "/" || Ascii.eqb c "\".

(** [str.rstrip()] *)
Definition rstrip (s : string) : string := rev_string (lstrip (rev_string s)).

(** What [get_valid_name] keeps of the text after ["<uuid>."]: trailing
    whitespace stripped, spaces turned into ['_'], characters outside
    [[-\w.]] dropped. *)
Definition cleaned_ext (e : string) : string :=
  string_of_list_ascii
    (filter valid_name_char (list_ascii_of_string (replace_char " " "_" (rstrip e)))).

(** The characters of [str(uuid.uuid4())]. *)
Definition uuid_chars : list ascii := list_ascii_of_string "0123456789abcdef-".


(** DRF [CharField(max_length=m)] with [allow_blank=False] and whitespace
    trimming, as generated for a model [CharField]. *)
Definition char_field_errors (field : string) (max_length : nat) (data : string)
    : list (string * string) :=
  if String.eqb (py_strip data) "" then [(field, "This field may not be blank.")]
  else
    (if Nat.ltb max_length (String.length (py_strip data))
     then [(field, String.append "Ensure this field has no more than "
                      (String.append (nat_to_string max_length) " characters."))] else [])
    ++ (if has_null_char (py_strip data)
        then [(field, "Null characters are not allowed.")] else []).

(** DRF [FileField(max_length=100)] with [allow_empty_file=False], generated
    for the model's [FileField]. *)
Definition file_field_errors (f : UploadedFile) : list (string * string) :=
  if String.eqb (uf_name f) "" then [("file", "No filename could be determined.")]
  else if Z.eqb (uf_size f) 0 then [("file", "The submitted file is empty.")]
  else if Nat.ltb 100 (String.length (uf_name f))
  then [("file", String.append "Ensure this filename has at most 100 characters (it has "
                   (String.append (nat_to_string (String.length (uf_name f))) ")."))]
  else [].

(** [serializer.is_valid()] on [{'file', 'original_filename', 'file_type', 'size'}]. *)
Definition serializer_errors (f : UploadedFile) : list (string * string) :=
  file_field_errors f
  ++ char_field_errors "original_filename" 255 (uf_name f)
  ++ char_field_errors "file_type" 100 (uf_content_type f)
  ++ (if Z.ltb 9223372036854775807 (uf_size f)
      then [("size", "Ensure this value is less than or equal to 9223372036854775807.")]
      else []).

Section Dedup.

(** [hashlib.sha256()]: an incremental hasher, [update] and [hexdigest]. *)
Variable HashState : Type.
Variable sha256_init : HashState.
Variable sha256_update : HashState -> list Byte.byte -> HashState.
Variable hexdigest : HashState -> string.

(** The [while True] loop of [compute_file_hash]. Each round that does not
    stop consumes at least one byte, so [length (uf_data f) + 1] rounds
    always reach the [if not chunk: break] exit (see [hash_loop_reads_all]). *)
Fixpoint hash_loop (fuel : nat) (chunk_size : nat) (sha256 : HashState)
    (file_obj : UploadedFile) : HashState * UploadedFile :=
  match fuel with
  | O => (sha256, file_obj)
  | S fuel' =>
      let '(chunk, file_obj') := read file_obj chunk_size in
      match chunk with
      | [] => (sha256, file_obj')
      | _ :: _ => hash_loop fuel' chunk_size (sha256_update sha256 chunk) file_obj'
      end
  end.

(** [compute_file_hash(file_obj, chunk_size=8192)]: returns the digest and the
    stream as left by the call. *)
Definition compute_file_hash_sized (file_obj : UploadedFile) (chunk_size : nat)
    : string * UploadedFile :=
  let original_position := tell file_obj in
  let file_obj := seek file_obj 0 in
  let '(sha256, file_obj) :=
    hash_loop (S (List.length (uf_data file_obj))) chunk_size sha256_init file_obj in
  let file_obj := seek file_obj original_position in
  (hexdigest sha256, file_obj).

Definition default_chunk_size : nat := 8192.

Definition compute_file_hash (file_obj : UploadedFile) : string * UploadedFile :=
  compute_file_hash_sized file_obj default_chunk_size.

(** ** [FileViewSet.create] *)

(** The interleaving point of a concurrent request: between the lookup and
    the canonical INSERT another transaction may commit. A sequential run
    passes [no_interference]. *)
Definition concurrent (interfere : State -> State) : M unit :=
  fun s => (interfere s, Ok tt).

Definition no_interference (s : State) : State := s.

Inductive Response :=
| Created (r : File)       (* 201 with serializer.data *)
| NoContent                (* 204 *)
| BadRequest (msg : string). (* 400 built by the view itself *)

Definition create_with (interfere : State -> State) (file_obj : option UploadedFile)
    (now : Z) : M Response :=
  match file_obj with
  | None => ret (BadRequest "No file provided")
  | Some file_obj =>
    let '(content_hash, file_obj) := compute_file_hash file_obj in
    atomic (
      let* existing_file := filter_hash_first content_hash in
      match existing_file with
      | Some existing_file =>
          let* new_id := uuid4 in
          let duplicate_file :=
            {| f_id := new_id; f_file := f_file existing_file;
               f_original_filename := uf_name file_obj;
               f_file_type := uf_content_type file_obj; f_size := uf_size file_obj;
               f_uploaded_at := now; f_content_hash := None; f_is_duplicate := true;
               f_reference_count := 1; f_referenced_file := Some (f_id existing_file) |} in
          insert_row duplicate_file ;;
          update_refcount (f_id existing_file) 1 ;;
          ret (Created duplicate_file)
      | None =>
          concurrent interfere ;;
          (* try: *)
          let attempt :=
            match serializer_errors file_obj with
            | (_ :: _) as errs => raise (ValidationError errs)
            | [] =>
                (* serializer.save(...) -> File.objects.create with the validated data *)
                let* new_id := uuid4 in
                (* FileField.pre_save writes the blob before the INSERT *)
                let* name_uuid := uuid4 in
                match upload_location name_uuid (uf_name file_obj) with
                | None =>
                    (* raised inside save_base's mark_for_rollback_on_error *)
                    mark_needs_rollback ;; raise SuspiciousFileOperation
                | Some loc =>
                    storage_save loc (uf_data file_obj) ;;
                    let canonical :=
                      {| f_id := new_id; f_file := Some loc;
                         f_original_filename := py_strip (uf_name file_obj);
                         f_file_type := py_strip (uf_content_type file_obj);
                         f_size := uf_size file_obj; f_uploaded_at := now;
                         f_content_hash := Some content_hash; f_is_duplicate := false;
                         f_reference_count := 1; f_referenced_file := None |} in
                    insert_row canonical ;;
                    ret (Created canonical)
                end
            end in
          (* except IntegrityError: *)
          fun s =>
            match attempt s with
            | (s', Raise IntegrityError) =>
                (let* existing_file := get_by_hash content_hash in
                 let* new_id := uuid4 in
                 let duplicate_file :=
                   {| f_id := new_id; f_file := f_file existing_file;
                      f_original_filename := uf_name file_obj;
                      f_file_type := uf_content_type file_obj; f_size := uf_size file_obj;
                      f_uploaded_at := now; f_content_hash := None; f_is_duplicate := true;
                      f_reference_count := 1;
                      f_referenced_file := Some (f_id existing_file) |} in
                 insert_row duplicate_file ;;
                 update_refcount (f_id existing_file) 1 ;;
                 ret (Created duplicate_file)) s'
            | other => other
            end
      end)
  end.

(** Another [create] request that runs and commits while this one is
    between its lookup and its INSERT. *)
Definition concurrent_create (other : option UploadedFile) (t : Z) (s : State) : State :=
  let s' := fst (create_with no_interference other t s) in
  {| st_db := st_db s'; st_log := st_log s; st_blobs := st_blobs s';
     st_uuid := st_uuid s'; st_needs_rollback := st_needs_rollback s |}.

Definition create (file_obj : option UploadedFile) (now : Z) : M Response :=
  create_with no_interference file_obj now.

(** ** [FileViewSet.destroy] *)

(** [self.get_object()] (no filter parameters on a delete request). *)
Definition get_object (id : nat) : M File :=
  fun s =>
    match filter (fun r => Nat.eqb (f_id r) id) (view s) with
    | [r] => (s, Ok r)
    | [] => (s, Raise NotFound)
    | _ => (s, Raise MultipleObjectsReturned)
    end.

(** [instance.file.delete()]: removes the blob, then [instance.save()] stores
    the emptied field (save=True). *)
Definition field_file_delete (instance : File) : M File :=
  match f_file instance with
  | Some l =>
      storage_delete l ;;
      let instance := set_file instance None in
      log_write (WSave instance) ;;
      ret instance
  | None => ret instance
  end.

Definition protected_msg : string :=
  "Cannot delete original file that has duplicates. Delete duplicates first.".

Definition destroy (id : nat) : M Response :=
  let* instance := get_object id in
  atomic (
    if f_is_duplicate instance then
      (match f_referenced_file instance with
       | Some rid =>
           let* original := get_by_id rid in
           update_refcount (f_id original) (-1)
       | None => ret tt
       end) ;;
      delete_row instance ;;
      ret NoContent
    else
      if f_reference_count instance >? 1 then raise (PermissionDenied protected_msg)
      else
        let* instance := field_file_delete instance in
        delete_row instance ;;
        ret NoContent).

End Dedup.

(** ** States between requests *)

(** No open transaction, fresh uuids above every id and every stored name,
    and the unique index on [content_hash] respected. *)
Record wf_state (s : State) : Prop := {
  wf_log : st_log s = [];
  wf_no_rollback : st_needs_rollback s = false;
  wf_ids_fresh : forall r, In r (st_db s) -> (f_id r < st_uuid s)%nat;
  wf_blobs_fresh : forall l d, In (l, d) (st_blobs s) -> (loc_uuid l < st_uuid s)%nat;
  wf_files_fresh : forall r l, In r (st_db s) -> f_file r = Some l -> (loc_uuid l < st_uuid s)%nat;
  wf_ids_unique : NoDup (map f_id (st_db s));
  wf_hash_unique : forall r1 r2 h, In r1 (st_db s) -> In r2 (st_db s) ->
    f_content_hash r1 = Some h -> f_content_hash r2 = Some h -> r1 = r2
}.

Definition empty_state : State := mkState [] [] [] 0 false.

Definition references_as_duplicate (id : nat) (x : File) : bool :=
  f_is_duplicate x && match f_referenced_file x with Some i => Nat.eqb i id | None => false end.

(** Live duplicate records that reference the record [id]. *)
Definition count_duplicates (id : nat) (rows : list File) : nat :=
  List.length (filter (references_as_duplicate id) rows).

(** The reference-count invariant of the files table, with the shape facts
    it rests on: duplicates carry no hash and point to a live canonical
    record, canonical records point nowhere. *)
Record dedup_inv (s : State) : Prop := {
  inv_wf : wf_state s;
  inv_duplicate : forall r, In r (st_db s) -> f_is_duplicate r = true ->
    f_reference_count r = 1 /\ f_content_hash r = None /\
    exists c, f_referenced_file r = Some (f_id c) /\ In c (st_db s) /\ f_is_duplicate c = false;
  inv_canonical : forall r, In r (st_db s) -> f_is_duplicate r = false ->
    f_referenced_file r = None /\
    f_reference_count r = 1 + Z.of_nat (count_duplicates (f_id r) (st_db s))
}.

Section Reachability.

Variable HashState : Type.
Variable sha256_init : HashState.
Variable sha256_update : HashState -> list Byte.byte -> HashState.
Variable hexdigest : HashState -> string.

(** One request, run to completion: an upload, an upload racing another
    upload, or a delete. *)
Inductive step : State -> State -> Prop :=
| step_create (file_obj : option UploadedFile) (now : Z) (s : State) :
    step s (fst (create HashState sha256_init sha256_update hexdigest file_obj now s))
| step_race (other : option UploadedFile) (t : Z) (file_obj : option UploadedFile)
    (now : Z) (s : State) :
    step s (fst (create_with HashState sha256_init sha256_update hexdigest
                   (concurrent_create HashState sha256_init sha256_update hexdigest other t)
                   file_obj now s))
| step_destroy (id : nat) (s : State) :
    step s (fst (destroy id s)).

Inductive reachable : State -> Prop :=
| reachable_init : reachable empty_state
| reachable_step (s s' : State) : reachable s -> step s s' -> reachable s'.

End Reachability.

(** ** [FileViewSet.get_queryset] *)

(** [request.query_params]: the decoded query string, in order. *)
Definition QueryParams := list (string * string).

(** [QueryDict.get(key)]: the last value given for [key]. *)
Definition qp_get (key : string) (qp : QueryParams) : option string :=
  fold_left (fun acc kv => if String.eqb (fst kv) key then Some (snd kv) else acc) qp None.

Definition is_digit (c : ascii) : bool :=
  Nat.leb 48 (nat_of_ascii c) && Nat.leb (nat_of_ascii c) 57.

Definition digit_value (c : ascii) : Z := Z.of_nat (nat_of_ascii c - 48).

(** Digits, each [_] standing between two digits. *)
Fixpoint parse_digits (l : list ascii) (acc : Z) : option Z :=
  match l with
  | [] => Some acc
  | c :: l' =>
      if is_digit c then parse_digits l' (acc * 10 + digit_value c)
      else if Ascii.eqb c "_"%char then
        match l' with
        | d :: l'' => if is_digit d then parse_digits l'' (acc * 10 + digit_value d) else None
        | [] => None
        end
      else None
  end.

Definition parse_uint (l : list ascii) : option Z :=
  match l with
  | c :: l' => if is_digit c then parse_digits l' (digit_value c) else None
  | [] => None
  end.

(** [int(s)] on a [str]: surrounding whitespace, an optional sign, decimal
    digits with single underscores between them; [None] is the [ValueError]. *)
Definition py_int (s : string) : option Z :=
  match list_ascii_of_string (py_strip s) with
  | c :: l => if Ascii.eqb c "-"%char then option_map Z.opp (parse_uint l)
              else if Ascii.eqb c "+"%char then parse_uint l
              else parse_uint (c :: l)
  | [] => None
  end.

(** Lower-casing of the code points below 128, as [LIKE] compares them. *)
Definition ascii_lower (c : ascii) : ascii :=
  if Nat.leb 65 (nat_of_ascii c) && Nat.leb (nat_of_ascii c) 90
  then ascii_of_nat (nat_of_ascii c + 32) else c.

Definition lower (s : string) : string :=
  string_of_list_ascii (map ascii_lower (list_ascii_of_string s)).

Fixpoint contains (needle hay : string) : bool :=
  String.prefix needle hay ||
  match hay with
  | EmptyString => false
  | String _ hay' => contains needle hay'
  end.

(** [original_filename__icontains=search] *)
Definition icontains (hay needle : string) : bool := contains (lower needle) (lower hay).

(** A queryset: the [filter(...)] conditions chained so far. *)
Definition QuerySet := list (File -> bool).

Definition qs_filter (queryset : QuerySet) (cond : File -> bool) : QuerySet :=
  queryset ++ [cond].

Definition qs_matches (queryset : QuerySet) (r : File) : bool :=
  forallb (fun cond => cond r) queryset.

(** [Meta.ordering = ['-uploaded_at']]: newest first; rows with equal
    [uploaded_at] stay in table order (the database leaves their order open). *)
Fixpoint insert_desc (r : File) (l : list File) : list File :=
  match l with
  | [] => [r]
  | x :: l' => if f_uploaded_at x <? f_uploaded_at r then r :: l else x :: insert_desc r l'
  end.

Definition order_by_uploaded_desc (l : list File) : list File :=
  fold_right insert_desc [] l.

(** Evaluating the queryset against the table. *)
Definition evaluate (queryset : QuerySet) (rows : list File) : list File :=
  order_by_uploaded_desc (filter (qs_matches queryset) rows).

Definition integer_msg : string := "Must be a valid integer".
Definition date_msg : string := "Must be a valid ISO 8601 date (YYYY-MM-DD)".

(** [int(value)] inside [try ... except ValueError]. *)
Definition size_bound (field value : string) : Result Z :=
  match py_int value with
  | Some n => Ok n
  | None => Raise (ValidationError [(field, integer_msg)])
  end.

(** Outcome of a Django date parser: [None], a value, or a raised [ValueError]. *)
Inductive Parsed (A : Type) := PNone | PValue (a : A) | PError.
Arguments PNone {A}.
Arguments PValue {A} a.
Arguments PError {A}.

Definition micros_per_day : Z := 86400000000.

Section Listing.

(** [parse_datetime]: an instant, with [true] when it is naive (wall clock). *)
Variable parse_datetime : string -> Parsed (Z * bool).
(** [parse_date]: a day number. *)
Variable parse_date : string -> Parsed Z.
(** [timezone.make_aware]: wall clock in the current time zone to instant. *)
Variable make_aware : Z -> Z.

(** The [try] block of [uploaded_after] / [uploaded_before]; [end_of_day]
    picks [datetime.max.time()] instead of [datetime.min.time()]. *)
Definition date_bound (field value : string) (end_of_day : bool) : Result Z :=
  match parse_datetime value with
  | PError => Raise (ValidationError [(field, date_msg)])
  | PValue (t, naive) => Ok (if naive then make_aware t else t)
  | PNone =>
      match parse_date value with
      | PValue d =>
          Ok (make_aware (d * micros_per_day
                          + if end_of_day then micros_per_day - 1 else 0))
      | PNone | PError => Raise (ValidationError [(field, date_msg)])
      end
  end.

(** [if param:] followed by the parse and the [filter]. *)
Definition optional_filter (qp : QueryParams) (key : string) (queryset : QuerySet)
    (parse : string -> Result (File -> bool)) : Result QuerySet :=
  match qp_get key qp with
  | Some v =>
      if String.eqb v "" then Ok queryset
      else match parse v with
           | Ok cond => Ok (qs_filter queryset cond)
           | Raise e => Raise e
           end
  | None => Ok queryset
  end.

Definition rbind {A B} (r : Result A) (k : A -> Result B) : Result B :=
  match r with Ok a => k a | Raise e => Raise e end.

Definition rmap {A B} (g : A -> B) (r : Result A) : Result B :=
  rbind r (fun a => Ok (g a)).

Definition get_queryset (qp : QueryParams) : Result QuerySet :=
  let queryset : QuerySet := [] in
  rbind (optional_filter qp "search" queryset
           (fun search => Ok (fun r => icontains (f_original_filename r) search)))
  (fun queryset =>
  rbind (optional_filter qp "file_type" queryset
           (fun file_type => Ok (fun r => String.eqb (f_file_type r) file_type)))
  (fun queryset =>
  rbind (optional_filter qp "size_min" queryset
           (fun v => rmap (fun n r => n <=? f_size r) (size_bound "size_min" v)))
  (fun queryset =>
  rbind (optional_filter qp "size_max" queryset
           (fun v => rmap (fun n r => f_size r <=? n) (size_bound "size_max" v)))
  (fun queryset =>
  rbind (optional_filter qp "uploaded_after" queryset
           (fun v => rmap (fun t r => t <=? f_uploaded_at r)
                          (date_bound "uploaded_after" v false)))
  (fun queryset =>
  optional_filter qp "uploaded_before" queryset
           (fun v => rmap (fun t r => f_uploaded_at r <=? t)
                          (date_bound "uploaded_before" v true))))))).

(** The list action: the queryset evaluated against the table. *)
Definition list_files (qp : QueryParams) (rows : list File) : Result (list File) :=
  rmap (fun queryset => evaluate queryset rows) (get_queryset qp).



End Listing.


(** Newest first. *)
Definition newer_first (a b : File) : Prop := f_uploaded_at b <= f_uploaded_at a.

(** ** Concrete runs *)

(** A stand-in for [hashlib.sha256] to evaluate concrete runs: the state is
    the bytes fed so far and the digest spells them out. *)
Definition demo_update (st : list Byte.byte) (chunk : list Byte.byte) : list Byte.byte :=
  st ++ chunk.

Definition demo_hexdigest (st : list Byte.byte) : string :=
  string_of_list_ascii (map ascii_of_byte st).

Definition demo_create := create (list Byte.byte) [] demo_update demo_hexdigest.
Definition demo_create_with := create_with (list Byte.byte) [] demo_update demo_hexdigest.
Definition demo_concurrent_create :=
  concurrent_create (list Byte.byte) [] demo_update demo_hexdigest.

Definition demo_upload (name : string) (data : list Byte.byte) : UploadedFile :=
  mkUploadedFile name "text/plain" data 0.

(** The bytes "AB", uploaded first as a.txt and then as b.txt. *)
Definition demo_ab : list Byte.byte := [Byte.x41; Byte.x42].

Definition demo_s1 : State :=
  fst (demo_create (Some (demo_upload "a.txt" demo_ab)) 0 empty_state).

Definition demo_s2 : State :=
  fst (demo_create (Some (demo_upload "b.txt" demo_ab)) 1 demo_s1).

Definition demo_race : State -> State :=
  demo_concurrent_create (Some (demo_upload "a.txt" demo_ab)) 10.

(** The [i]-th row of the files table. *)
Definition demo_row (s : State) (i : nat) : File :=
  nth i (st_db s) (mkFile 0 None "" "" 0 0 None false 0 None).

(** Stand-ins for Django's date parsers on concrete runs: no datetimes, and
    dates spelled [YYYY-MM-DD] numbered by [372 * year + 31 * month + day]. *)
Definition demo_parse_datetime (value : string) : Parsed (Z * bool) := PNone.

Definition demo_parse_date (value : string) : Parsed Z :=
  match list_ascii_of_string value with
  | [y1; y2; y3; y4; m0; m1; m2; d0; d1; d2] =>
      if forallb is_digit [y1; y2; y3; y4; m1; m2; d1; d2]
         && Ascii.eqb m0 "-"%char && Ascii.eqb d0 "-"%char
      then PValue (372 * (1000 * digit_value y1 + 100 * digit_value y2
                          + 10 * digit_value y3 + digit_value y4)
                   + 31 * (10 * digit_value m1 + digit_value m2)
                   + (10 * digit_value d1 + digit_value d2))
      else PNone
  | _ => PNone
  end.

Definition demo_make_aware (t : Z) : Z := t.

Definition demo_list_files := list_files demo_parse_datetime demo_parse_date demo_make_aware.

(** ** Blob storage against the files table *)

Section StorageInvariant.

Variable HashState : Type.
Variable sha256_init : HashState.
Variable sha256_update : HashState -> list Byte.byte -> HashState.
Variable hexdigest : HashState -> string.

(** The digest [compute_file_hash] gives for a stream holding [data]. *)
Definition digest_of (data : list Byte.byte) : string :=
  fst (compute_file_hash HashState sha256_init sha256_update hexdigest
         (mkUploadedFile "" "" data 0)).

(** One blob per stored name; a canonical record's name holds bytes whose
    digest is its [content_hash]; a duplicate shares its canonical's name. *)
Record storage_inv (s : State) : Prop := {
  si_unique : forall l d1 d2, In (l, d1) (st_blobs s) -> In (l, d2) (st_blobs s) -> d1 = d2;
  si_canonical : forall c l, In c (st_db s) -> f_is_duplicate c = false -> f_file c = Some l ->
    exists d, In (l, d) (st_blobs s) /\ f_content_hash c = Some (digest_of d);
  si_dup_file : forall r c, In r (st_db s) -> f_is_duplicate r = true ->
    f_referenced_file r = Some (f_id c) -> In c (st_db s) -> f_file r = f_file c
}.

(** Requests one after the other: uploads and deletes, no race. *)
Inductive seq_step : State -> State -> Prop :=
| seq_create (file_obj : option UploadedFile) (now : Z) (s : State) :
    seq_step s (fst (create HashState sha256_init sha256_update hexdigest file_obj now s))
| seq_destroy (id : nat) (s : State) :
    seq_step s (fst (destroy id s)).

Inductive seq_reachable : State -> Prop :=
| seq_reachable_init : seq_reachable empty_state
| seq_reachable_step (s s' : State) : seq_reachable s -> seq_step s s' -> seq_reachable s'.

End StorageInvariant.

(** Every stored blob is the file of some live record. *)
Definition no_orphan_blobs (s : State) : Prop :=
  forall l d, In (l, d) (st_blobs s) -> exists r, In r (st_db s) /\ f_file r = Some l.

(** The test [file_ext] makes: does the name contain a dot. *)
Definition has_dot (s : string) : bool :=
  existsb (fun d => Ascii.eqb d "."%char) (list_ascii_of_string s).

(** * Proofs *)

(** The locator [upload_location] gives keeps the name draw. *)
Lemma upload_location_uuid (u : nat) (filename : string) (l : Locator) :
  upload_location u filename = Some l -> loc_uuid l = u.
Proof.
  unfold upload_location.
  destruct (field_generate_filename u filename) as [name|]; [|discriminate].
  destruct (negb (validate_file_name name true)); [discriminate|].
  destruct (get_available_name name); [|discriminate].
  intros H. injection H as <-. reflexivity.
Qed.

Lemma upload_location_unfold (u : nat) (filename : string) :
  upload_location u filename =
  match field_generate_filename u filename with
  | None => None
  | Some name =>
      if negb (validate_file_name name true) then None
      else match get_available_name name with
           | None => None
           | Some _ =>
               Some {| loc_uuid := u;
                       loc_ext := substring 45 (String.length name - 45) name |}
           end
  end.
Proof. reflexivity. Qed.

Opaque upload_location.

Section HasherProofs.

Variable HashState : Type.
Variable sha256_init : HashState.
Variable sha256_update : HashState -> list Byte.byte -> HashState.
Variable hexdigest : HashState -> string.

Lemma skipn_length_firstn (A : Type) (n : nat) (l : list A) :
  skipn (List.length (firstn n l)) l = skipn n l.
Proof.
  rewrite length_firstn.
  destruct (Nat.le_ge_cases n (List.length l)) as [Hle | Hge].
  - rewrite Nat.min_l by exact Hle. reflexivity.
  - rewrite Nat.min_r by exact Hge.
    rewrite skipn_all. symmetry. apply skipn_all2. exact Hge.
Qed.

(** With enough rounds the loop feeds the hasher chunks that cover the
    stream from its position to the end, and only moves the position. *)
Lemma hash_loop_reads_all (fuel chunk_size : nat) (h : HashState) (f : UploadedFile) :
  (0 < chunk_size)%nat ->
  (List.length (uf_data f) - uf_pos f < fuel)%nat ->
  exists chunks p,
    List.concat chunks = skipn (uf_pos f) (uf_data f) /\
    hash_loop HashState sha256_update fuel chunk_size h f
    = (fold_left sha256_update chunks h, seek f p).
Proof.
  revert h f. induction fuel as [|fuel IH]; intros h f Hn Hfuel; [lia|].
  simpl. unfold read.
  set (rest := skipn (uf_pos f) (uf_data f)).
  destruct (firstn chunk_size rest) as [|b bs] eqn:Hchunk.
  - exists [], (uf_pos f + 0)%nat. split; [|reflexivity].
    simpl. destruct rest as [|x xs] eqn:Hrest; [reflexivity|].
    destruct chunk_size; [lia|]. discriminate.
  - set (f' := seek f (uf_pos f + List.length (b :: bs))).
    assert (Hlen : List.length rest = (List.length (uf_data f) - uf_pos f)%nat)
      by (unfold rest; apply length_skipn).
    assert (Hle : (List.length (b :: bs) <= List.length rest)%nat)
      by (rewrite <- Hchunk, length_firstn; lia).
    destruct (IH (sha256_update h (b :: bs)) f' Hn) as (chunks & p & Hcat & Heq).
    { unfold f'; simpl. simpl in Hle. lia. }
    exists ((b :: bs) :: chunks), p. split.
    + cbn [List.concat]. rewrite Hcat. unfold f'. rewrite <- Hchunk.
      unfold seek. cbn [uf_pos uf_data].
      rewrite Nat.add_comm, <- skipn_skipn.
      fold rest. rewrite skipn_length_firstn. apply firstn_skipn.
    + rewrite Heq. reflexivity.
Qed.

(** The digest the loop computes depends only on the bytes and the position. *)
Lemma hash_loop_content_only (fuel chunk_size : nat) (h : HashState) (f g : UploadedFile) :
  uf_data f = uf_data g -> uf_pos f = uf_pos g ->
  fst (hash_loop HashState sha256_update fuel chunk_size h f)
  = fst (hash_loop HashState sha256_update fuel chunk_size h g).
Proof.
  revert h f g. induction fuel as [|fuel IH]; intros h f g Hd Hp; [reflexivity|].
  simpl. unfold read. rewrite Hd, Hp.
  destruct (firstn chunk_size (skipn (uf_pos g) (uf_data g))) as [|b bs]; [reflexivity|].
  apply IH; simpl; congruence.
Qed.

(** The stream comes back at the position it had. *)
Lemma compute_file_hash_same (f : UploadedFile) :
  snd (compute_file_hash HashState sha256_init sha256_update hexdigest f) = f.
Proof.
  unfold compute_file_hash, compute_file_hash_sized.
  destruct (hash_loop_reads_all (S (List.length (uf_data (seek f 0)))) default_chunk_size
              sha256_init (seek f 0)) as (chunks & p & _ & Heq);
    [apply Nat.ltb_lt; vm_compute; reflexivity | simpl; lia |].
  rewrite Heq. destruct f; reflexivity.
Qed.

(** C8: [compute_file_hash] hashes the whole content, whatever the position,
    name or content type of the stream, and leaves the stream as it found it. *)
Theorem compute_file_hash_deterministic (f g : UploadedFile) :
  (exists chunks,
     List.concat chunks = uf_data f /\
     fst (compute_file_hash HashState sha256_init sha256_update hexdigest f)
     = hexdigest (fold_left sha256_update chunks sha256_init)) /\
  snd (compute_file_hash HashState sha256_init sha256_update hexdigest f) = f /\
  (uf_data g = uf_data f ->
   fst (compute_file_hash HashState sha256_init sha256_update hexdigest g)
   = fst (compute_file_hash HashState sha256_init sha256_update hexdigest f)).
Proof.
  unfold compute_file_hash, compute_file_hash_sized.
  destruct (hash_loop_reads_all (S (List.length (uf_data (seek f 0)))) default_chunk_size
              sha256_init (seek f 0)) as (chunks & p & Hcat & Heq);
    [apply Nat.ltb_lt; vm_compute; reflexivity | simpl; lia |].
  rewrite Heq. split; [|split].
  - exists chunks. split; [exact Hcat | reflexivity].
  - destruct f; reflexivity.
  - intros Hg. unfold tell.
    destruct (hash_loop HashState sha256_update (S (List.length (uf_data (seek g 0))))
                default_chunk_size sha256_init (seek g 0)) as [hg fg] eqn:Hgl.
    simpl. f_equal.
    change hg with (fst (hg, fg)). rewrite <- Hgl.
    change (fold_left sha256_update chunks sha256_init)
      with (fst (fold_left sha256_update chunks sha256_init, seek (seek f 0) p)).
    rewrite <- Heq. simpl uf_data. rewrite Hg.
    apply hash_loop_content_only; simpl; congruence.
Qed.

End HasherProofs.

Section IngestProofs.

Variable HashState : Type.
Variable sha256_init : HashState.
Variable sha256_update : HashState -> list Byte.byte -> HashState.
Variable hexdigest : HashState -> string.

Let digest (f : UploadedFile) : string :=
  fst (compute_file_hash HashState sha256_init sha256_update hexdigest f).

Lemma find_hash_none (h : string) (l : list File) :
  (forall r, In r l -> f_content_hash r <> Some h) -> find (hash_eqb h) l = None.
Proof.
  induction l as [|r l IH]; intros Hno; [reflexivity|].
  simpl. destruct (hash_eqb h r) eqn:E.
  - exfalso. apply (Hno r (or_introl eq_refl)). unfold hash_eqb in E.
    destruct (f_content_hash r); [apply String.eqb_eq in E; congruence | discriminate].
  - apply IH. intros r' Hr'. apply Hno. right. exact Hr'.
Qed.

Lemma existsb_all_false {A : Type} (p : A -> bool) (l : list A) :
  (forall x, In x l -> p x = false) -> existsb p l = false.
Proof.
  induction l as [|x l IH]; intros H; [reflexivity|].
  simpl. rewrite (H x (or_introl eq_refl)). apply IH. intros y Hy. apply H. right. exact Hy.
Qed.

Lemma find_hash_unique (h : string) (existing : File) (l : list File) :
  In existing l -> f_content_hash existing = Some h ->
  (forall r1 r2, In r1 l -> In r2 l -> f_content_hash r1 = Some h ->
                 f_content_hash r2 = Some h -> r1 = r2) ->
  find (hash_eqb h) l = Some existing.
Proof.
  intros Hin Hh Huniq.
  destruct (find (hash_eqb h) l) as [r|] eqn:E.
  - apply find_some in E as [Hr Hrh]. f_equal.
    apply Huniq; auto. unfold hash_eqb in Hrh.
    destruct (f_content_hash r); [apply String.eqb_eq in Hrh; congruence | discriminate].
  - exfalso. pose proof (find_none _ _ E existing Hin) as Hf.
    unfold hash_eqb in Hf. rewrite Hh, String.eqb_refl in Hf. discriminate.
Qed.

Lemma existsb_all_false_inv {A : Type} (p : A -> bool) (l : list A) :
  existsb p l = false -> forall x, In x l -> p x = false.
Proof.
  intros H x Hx. destruct (p x) eqn:E; [|reflexivity].
  rewrite (proj2 (existsb_exists p l) (ex_intro _ x (conj Hx E))) in H. discriminate.
Qed.

Lemma existsb_ext_in {A : Type} (p q : A -> bool) (l : list A) :
  (forall x, In x l -> p x = q x) -> existsb p l = existsb q l.
Proof.
  induction l as [|x l IH]; intros H; [reflexivity|].
  simpl. rewrite (H x (or_introl eq_refl)), IH; [reflexivity|].
  intros y Hy. apply H. right. exact Hy.
Qed.

Lemma create_with_found (interfere : State -> State) (s : State) (f : UploadedFile)
    (now : Z) (existing : File) :
  wf_state s ->
  In existing (st_db s) ->
  f_content_hash existing = Some (digest f) ->
  let dup := {| f_id := st_uuid s; f_file := f_file existing;
                f_original_filename := uf_name f; f_file_type := uf_content_type f;
                f_size := uf_size f; f_uploaded_at := now; f_content_hash := None;
                f_is_duplicate := true; f_reference_count := 1;
                f_referenced_file := Some (f_id existing) |} in
  create_with HashState sha256_init sha256_update hexdigest interfere (Some f) now s
  = ({| st_db := apply_write (st_db s) (WUpdateRefcount (f_id existing) 1) ++ [dup];
        st_log := []; st_blobs := st_blobs s; st_uuid := S (st_uuid s);
        st_needs_rollback := false |}, Ok (Created dup)).
Proof.
  intros Hwf Hin Hh dup. unfold digest in *.
  pose proof (compute_file_hash_same HashState sha256_init sha256_update hexdigest f) as Hs.
  unfold create_with.
  destruct (compute_file_hash HashState sha256_init sha256_update hexdigest f) as [h f'] eqn:Ehash.
  simpl in Hs. subst f'. simpl in Hh |- *.
  destruct Hwf as [Hlog Hnr Hids Hblobs Hfiles Hnodup Huniq].
  destruct s as [db log blobs u nr]; simpl in *. subst log nr.
  unfold atomic, bind, filter_hash_first, check_tx, get_state, view. simpl.
  rewrite (find_hash_unique h existing db Hin Hh (fun r1 r2 => Huniq r1 r2 h)).
  unfold uuid4, insert_row, update_refcount, log_write, mark_needs_rollback,
    check_tx, get_state, bind, ret, raise, view. simpl.
  rewrite existsb_all_false.
  2:{ intros x Hx. apply orb_false_intro; [|reflexivity].
      apply Nat.eqb_neq. specialize (Hids x Hx). lia. }
  simpl. rewrite map_app. simpl.
  replace (Nat.eqb u (f_id existing)) with false.
  2:{ symmetry. apply Nat.eqb_neq. specialize (Hids existing Hin). lia. }
  reflexivity.
Qed.

Lemma create_with_not_found (interfere : State -> State) (s : State) (f : UploadedFile)
    (now : Z) :
  wf_state s ->
  (forall r, In r (st_db s) -> f_content_hash r <> Some (digest f)) ->
  wf_state (interfere s) ->
  let s1 := interfere s in
  create_with HashState sha256_init sha256_update hexdigest interfere (Some f) now s
  = match serializer_errors f with
    | (_ :: _) as errs =>
        ({| st_db := st_db s1; st_log := []; st_blobs := st_blobs s1;
            st_uuid := st_uuid s1; st_needs_rollback := false |},
         Raise (ValidationError errs))
    | [] =>
        match upload_location (S (st_uuid s1)) (uf_name f) with
        | None =>
            ({| st_db := st_db s1; st_log := []; st_blobs := st_blobs s1;
                st_uuid := S (S (st_uuid s1)); st_needs_rollback := false |},
             Raise SuspiciousFileOperation)
        | Some loc =>
            let canonical :=
              {| f_id := st_uuid s1; f_file := Some loc;
                 f_original_filename := py_strip (uf_name f);
                 f_file_type := py_strip (uf_content_type f);
                 f_size := uf_size f; f_uploaded_at := now;
                 f_content_hash := Some (digest f); f_is_duplicate := false;
                 f_reference_count := 1; f_referenced_file := None |} in
            if existsb (fun x => hash_eqb (digest f) x) (st_db s1)
            then ({| st_db := st_db s1; st_log := [];
                     st_blobs := (loc, uf_data f) :: st_blobs s1;
                     st_uuid := S (S (st_uuid s1)); st_needs_rollback := false |},
                  Raise TransactionManagementError)
            else ({| st_db := st_db s1 ++ [canonical]; st_log := [];
                     st_blobs := (loc, uf_data f) :: st_blobs s1;
                     st_uuid := S (S (st_uuid s1)); st_needs_rollback := false |},
                  Ok (Created canonical))
        end
    end.
Proof.
  intros Hwf Hnone Hwf1 s1. unfold digest in *.
  pose proof (compute_file_hash_same HashState sha256_init sha256_update hexdigest f) as Hs.
  unfold s1 in *. clear s1.
  unfold create_with.
  destruct (compute_file_hash HashState sha256_init sha256_update hexdigest f) as [h f'] eqn:Ehash.
  simpl in Hs. subst f'. simpl in Hnone |- *.
  destruct Hwf as [Hlog Hnr Hids Hblobs Hfiles Hnodup Huniq].
  destruct s as [db log blobs u nr]; simpl in *. subst log nr.
  unfold atomic, bind, filter_hash_first, check_tx, get_state, view. simpl.
  rewrite (find_hash_none h db Hnone).
  unfold concurrent. simpl.
  destruct Hwf1 as [Hlog1 Hnr1 Hids1 Hblobs1 Hfiles1 Hnodup1 Huniq1].
  destruct (interfere {| st_db := db; st_log := []; st_blobs := blobs; st_uuid := u;
                         st_needs_rollback := false |}) as [db1 log1 blobs1 u1 nr1].
  simpl in *. subst log1 nr1.
  destruct (serializer_errors f) as [|e errs]; [|reflexivity].
  unfold insert_row, log_write, mark_needs_rollback, get_by_hash,
    check_tx, get_state, bind, ret, raise, view. simpl.
  destruct (upload_location (S u1) (uf_name f)) as [loc|]; [|reflexivity].
  simpl.
  replace (existsb _ db1) with (existsb (fun x => hash_eqb h x) db1).
  2:{ apply existsb_ext_in. intros x Hx. rewrite (proj2 (Nat.eqb_neq (f_id x) u1)); [reflexivity|].
      specialize (Hids1 x Hx). lia. }
  destruct (existsb (fun x => hash_eqb h x) db1); reflexivity.
Qed.

(** C1 (as the code has it): an upload that passes [FileSerializer]
    validation, whose digest no stored record has, and whose generated
    storage name Django's storage accepts, commits a canonical record with
    that digest, [is_duplicate = false], [reference_count = 1] and no
    referenced file; its bytes are stored under a locator no earlier blob
    uses, and nothing else changes. *)
Theorem create_new_content_canonical (s : State) (f : UploadedFile) (now : Z) :
  wf_state s ->
  (forall r, In r (st_db s) -> f_content_hash r <> Some (digest f)) ->
  serializer_errors f = [] ->
  upload_location (S (st_uuid s)) (uf_name f) <> None ->
  exists s' r loc,
    create HashState sha256_init sha256_update hexdigest (Some f) now s
    = (s', Ok (Created r)) /\
    f_content_hash r = Some (digest f) /\ f_is_duplicate r = false /\
    f_reference_count r = 1 /\ f_referenced_file r = None /\
    f_file r = Some loc /\
    (forall d, ~ In (loc, d) (st_blobs s)) /\
    st_blobs s' = (loc, uf_data f) :: st_blobs s /\
    st_db s' = st_db s ++ [r].
Proof.
  intros Hwf Hnone Hval Hacc. unfold create.
  rewrite (create_with_not_found no_interference s f now Hwf Hnone Hwf).
  unfold no_interference. rewrite Hval.
  destruct (upload_location (S (st_uuid s)) (uf_name f)) as [loc|] eqn:El;
    [|congruence].
  rewrite existsb_all_false.
  2:{ intros x Hx. unfold hash_eqb. destruct (f_content_hash x) as [h'|] eqn:Ex; [|reflexivity].
      apply String.eqb_neq. intros ->. exact (Hnone x Hx Ex). }
  do 3 eexists. split; [reflexivity|].
  repeat split; try reflexivity.
  intros d Hin. apply (wf_blobs_fresh _ Hwf) in Hin.
  rewrite (upload_location_uuid _ _ _ El) in Hin. lia.
Qed.

(** C2: an upload whose digest a stored record already has commits a
    duplicate record (no hash, [is_duplicate = true], [reference_count = 1],
    referencing that record, sharing its locator), bumps the referenced
    record's [reference_count] by 1, and stores no bytes. *)
Theorem create_existing_content_duplicate (s : State) (f : UploadedFile) (now : Z)
    (existing : File) :
  wf_state s ->
  In existing (st_db s) ->
  f_content_hash existing = Some (digest f) ->
  exists s' dup,
    create HashState sha256_init sha256_update hexdigest (Some f) now s
    = (s', Ok (Created dup)) /\
    f_content_hash dup = None /\ f_is_duplicate dup = true /\
    f_referenced_file dup = Some (f_id existing) /\ f_reference_count dup = 1 /\
    f_file dup = f_file existing /\
    st_blobs s' = st_blobs s /\
    st_db s' = map (fun r => if Nat.eqb (f_id r) (f_id existing)
                             then set_refcount r (f_reference_count r + 1) else r)
                   (st_db s) ++ [dup].
Proof.
  intros Hwf Hin Hh. unfold digest in *.
  pose proof (compute_file_hash_same HashState sha256_init sha256_update hexdigest f) as Hs.
  unfold create, create_with.
  destruct (compute_file_hash HashState sha256_init sha256_update hexdigest f) as [h f'] eqn:Ehash.
  simpl in Hs. subst f'. simpl in Hh |- *.
  destruct Hwf as [Hlog Hnr Hids Hblobs Hfiles Hnodup Huniq].
  destruct s as [db log blobs u nr]; simpl in *. subst log nr.
  unfold atomic, bind, filter_hash_first, check_tx, get_state, view. simpl.
  rewrite (find_hash_unique h existing db Hin Hh (fun r1 r2 => Huniq r1 r2 h)).
  unfold uuid4, insert_row, update_refcount, log_write, mark_needs_rollback,
    check_tx, get_state, bind, ret, raise, view. simpl.
  rewrite existsb_all_false.
  2:{ intros x Hx. apply orb_false_intro; [|reflexivity].
      apply Nat.eqb_neq. specialize (Hids x Hx). lia. }
  simpl. do 2 eexists. split; [reflexivity|].
  repeat split; try reflexivity.
  simpl. rewrite map_app. simpl.
  replace (Nat.eqb u (f_id existing)) with false.
  2:{ symmetry. apply Nat.eqb_neq. specialize (Hids existing Hin). lia. }
  reflexivity.
Qed.

(** C3 (as the code has it): when a concurrent upload commits the same
    digest between the lookup and the canonical INSERT, and the storage
    accepts the generated name, the blob this upload wrote stays in storage
    under a locator that was fresh and that no record of the resulting state
    references: it is not discarded. *)
Theorem create_conflict_keeps_blob (interfere : State -> State) (s : State)
    (f : UploadedFile) (now : Z) (winner : File) :
  wf_state s ->
  (forall r, In r (st_db s) -> f_content_hash r <> Some (digest f)) ->
  serializer_errors f = [] ->
  wf_state (interfere s) ->
  upload_location (S (st_uuid (interfere s))) (uf_name f) <> None ->
  In winner (st_db (interfere s)) ->
  f_content_hash winner = Some (digest f) ->
  exists s' res loc,
    create_with HashState sha256_init sha256_update hexdigest interfere (Some f) now s
    = (s', res) /\
    (forall d, ~ In (loc, d) (st_blobs (interfere s))) /\
    In (loc, uf_data f) (st_blobs s') /\
    (forall r, In r (st_db s') -> f_file r <> Some loc).
Proof.
  intros Hwf Hnone Hval Hwf1 Hacc Hwin Hwinh.
  rewrite (create_with_not_found interfere s f now Hwf Hnone Hwf1).
  rewrite Hval.
  destruct (upload_location (S (st_uuid (interfere s))) (uf_name f)) as [loc|] eqn:El;
    [|congruence].
  rewrite (proj2 (existsb_exists _ _)).
  2:{ exists winner. split; [exact Hwin|]. unfold hash_eqb.
      rewrite Hwinh, String.eqb_refl. reflexivity. }
  pose proof (upload_location_uuid _ _ _ El) as Hu.
  do 3 eexists. split; [reflexivity|]. split; [|split].
  2:{ left. reflexivity. }
  - intros d Hin. apply (wf_blobs_fresh _ Hwf1) in Hin. lia.
  - intros r Hr Hf. pose proof (wf_files_fresh _ Hwf1 r _ Hr Hf). lia.
Qed.

End IngestProofs.

(** C1: an empty upload with no stored record of its digest is not stored as
    a canonical record: the serializer rejects the empty file. *)
Lemma create_empty_upload_rejected :
  (forall r, In r (st_db empty_state) ->
     f_content_hash r <> Some (fst (compute_file_hash (list Byte.byte) [] demo_update
                                      demo_hexdigest (demo_upload "empty.txt" [])))) /\
  demo_create (Some (demo_upload "empty.txt" [])) 0 empty_state
  = (empty_state, Raise (ValidationError [("file", "The submitted file is empty.")])).
Proof.
  split.
  - intros r [].
  - vm_compute. reflexivity.
Qed.

(** C3: two uploads of the bytes "AB" race; the other request commits its
    canonical record between this request's lookup and its INSERT. The INSERT
    fails on the unique index, the blob this request wrote (uuid 3) is left
    in storage with no record pointing to it, and the fallback query then
    fails on the broken transaction instead of returning a duplicate. *)
Lemma create_race_leaves_blob_and_fails :
  let s0 := empty_state in
  let race := demo_concurrent_create (Some (demo_upload "a.txt" [Byte.x41; Byte.x42])) 10 in
  let orphan := {| loc_uuid := 3; loc_ext := "txt" |} in
  exists s',
    demo_create_with race (Some (demo_upload "b.txt" [Byte.x41; Byte.x42])) 11 s0
    = (s', Raise TransactionManagementError) /\
    In (orphan, [Byte.x41; Byte.x42]) (st_blobs s') /\
    (forall r, In r (st_db s') -> f_file r <> Some orphan).
Proof.
  eexists. split; [vm_compute; reflexivity|].
  split.
  - vm_compute. left. reflexivity.
  - vm_compute. intros r [<- | []]. discriminate.
Qed.

Section DestroyProofs.

Lemma filter_id_none (l : list File) (k : nat) :
  (forall x, In x l -> f_id x <> k) -> filter (fun x => Nat.eqb (f_id x) k) l = [].
Proof.
  induction l as [|a l IH]; intros H; [reflexivity|].
  simpl. rewrite (proj2 (Nat.eqb_neq (f_id a) k)) by (apply H; left; reflexivity).
  apply IH. intros x Hx. apply H. right. exact Hx.
Qed.

Lemma filter_id_single (l : list File) (r : File) :
  NoDup (map f_id l) -> In r l -> filter (fun x => Nat.eqb (f_id x) (f_id r)) l = [r].
Proof.
  induction l as [|a l IH]; intros Hnd Hin; [destruct Hin|].
  simpl in Hnd. inversion Hnd as [|? ? Hnotin Hnd']; subst.
  destruct Hin as [-> | Hin].
  - simpl. rewrite Nat.eqb_refl. f_equal.
    apply filter_id_none. intros x Hx E. apply Hnotin. rewrite <- E. apply in_map. exact Hx.
  - simpl. rewrite (proj2 (Nat.eqb_neq (f_id a) (f_id r))).
    + apply IH; assumption.
    + intros E. apply Hnotin. rewrite E. apply in_map. exact Hin.
Qed.

Lemma same_id_same_row (l : list File) (a b : File) :
  NoDup (map f_id l) -> In a l -> In b l -> f_id a = f_id b -> a = b.
Proof.
  intros Hnd Ha Hb E.
  pose proof (filter_id_single l a Hnd Ha) as Fa.
  pose proof (filter_id_single l b Hnd Hb) as Fb.
  rewrite E in Fa. rewrite Fa in Fb. injection Fb. auto.
Qed.

(** [destroy] refuses a canonical record that still has duplicates and
    leaves the whole state as it was. *)
Lemma destroy_protected_path (s : State) (r : File) :
  filter (fun x => Nat.eqb (f_id x) (f_id r)) (view s) = [r] ->
  f_is_duplicate r = false -> f_reference_count r > 1 ->
  destroy (f_id r) s = (s, Raise (PermissionDenied protected_msg)).
Proof.
  intros Hget Hdup Hrc.
  unfold destroy, get_object, bind. rewrite Hget.
  unfold atomic. rewrite Hdup.
  replace (f_reference_count r >? 1) with true by (symmetry; apply Z.gtb_lt; lia).
  unfold raise. destruct s; reflexivity.
Qed.

Lemma not_referenced_false (x : File) (k : nat) :
  f_referenced_file x <> Some k ->
  match f_referenced_file x with Some i => Nat.eqb i k | None => false end = false.
Proof.
  intros H. destruct (f_referenced_file x) as [i|]; [|reflexivity].
  apply Nat.eqb_neq. intros ->. apply H. reflexivity.
Qed.

Lemma protect_check_map (g : File -> File) (l : list File) (k : nat) :
  (forall y, In y l -> f_referenced_file (g y) <> Some k) ->
  existsb (fun x => match f_referenced_file x with
                    | Some i => Nat.eqb i k | None => false end) (map g l) = false.
Proof.
  intros Hl. apply existsb_all_false. intros x Hx.
  apply in_map_iff in Hx as (y & <- & Hy).
  apply not_referenced_false. apply Hl. exact Hy.
Qed.

(** Deleting a duplicate: the canonical loses one reference, the duplicate
    row goes, storage is not touched. *)
Lemma destroy_duplicate_path (s : State) (r c : File) :
  wf_state s -> In r (st_db s) -> f_is_duplicate r = true ->
  f_referenced_file r = Some (f_id c) -> In c (st_db s) ->
  (forall x, In x (st_db s) -> f_referenced_file x <> Some (f_id r)) ->
  destroy (f_id r) s
  = ({| st_db := apply_write (apply_write (st_db s) (WUpdateRefcount (f_id c) (-1)))
                             (WDelete (f_id r));
        st_log := []; st_blobs := st_blobs s; st_uuid := st_uuid s;
        st_needs_rollback := false |}, Ok NoContent).
Proof.
  intros Hwf Hin Hdup Href Hc Hnoref.
  destruct Hwf as [Hlog Hnr Hids Hblobs Hfiles Hnodup Huniq].
  destruct s as [db log blobs u nr]; simpl in *. subst log nr.
  unfold destroy, get_object, bind, view. simpl.
  rewrite (filter_id_single db r Hnodup Hin).
  unfold atomic. rewrite Hdup, Href.
  unfold get_by_id, update_refcount, delete_row, log_write, check_tx, get_state,
    bind, ret, raise, view. simpl.
  rewrite (filter_id_single db c Hnodup Hc). simpl.
  rewrite protect_check_map; [reflexivity|].
  intros y Hy. destruct (Nat.eqb (f_id y) (f_id c)); unfold set_refcount; simpl;
    apply Hnoref; exact Hy.
Qed.

(** Deleting a canonical record nobody references: its blob is removed from
    storage, the emptied field is saved, then the row is deleted. *)
Lemma destroy_free_path (s : State) (r : File) :
  wf_state s -> In r (st_db s) -> f_is_duplicate r = false ->
  f_reference_count r <= 1 ->
  (forall x, In x (st_db s) -> f_referenced_file x <> Some (f_id r)) ->
  destroy (f_id r) s
  = match f_file r with
    | Some l =>
        ({| st_db := apply_write (apply_write (st_db s) (WSave (set_file r None)))
                                 (WDelete (f_id r));
            st_log := [];
            st_blobs := filter (fun e => negb (locator_eqb (fst e) l)) (st_blobs s);
            st_uuid := st_uuid s; st_needs_rollback := false |}, Ok NoContent)
    | None =>
        ({| st_db := apply_write (st_db s) (WDelete (f_id r));
            st_log := []; st_blobs := st_blobs s;
            st_uuid := st_uuid s; st_needs_rollback := false |}, Ok NoContent)
    end.
Proof.
  intros Hwf Hin Hdup Hrc Hnoref.
  destruct Hwf as [Hlog Hnr Hids Hblobs Hfiles Hnodup Huniq].
  destruct s as [db log blobs u nr]; simpl in *. subst log nr.
  unfold destroy, get_object, bind, view. simpl.
  rewrite (filter_id_single db r Hnodup Hin).
  unfold atomic. rewrite Hdup.
  replace (f_reference_count r >? 1) with false by (symmetry; rewrite Z.gtb_ltb; apply Z.ltb_ge; lia).
  unfold field_file_delete.
  destruct (f_file r) as [l|] eqn:Hf.
  - unfold storage_delete, delete_row, log_write, check_tx, get_state, bind, ret, raise, view.
    assert (Hex : existsb (fun x => Nat.eqb (f_id x) (f_id r)) db = true).
    { apply existsb_exists. exists r. split; [exact Hin | apply Nat.eqb_refl]. }
    simpl. rewrite Hex.
    rewrite protect_check_map; [simpl; rewrite Hex; reflexivity|].
    intros y Hy. destruct (Nat.eqb (f_id y) (f_id r)); unfold set_file; simpl;
      apply Hnoref; assumption.
  - unfold delete_row, log_write, check_tx, get_state, bind, ret, raise, view. simpl.
    rewrite (existsb_all_false _ db).
    + reflexivity.
    + intros x Hx. apply not_referenced_false. apply Hnoref. exact Hx.
Qed.

End DestroyProofs.

Section InvariantProofs.

Lemma count_app (id : nat) (l1 l2 : list File) :
  count_duplicates id (l1 ++ l2) = (count_duplicates id l1 + count_duplicates id l2)%nat.
Proof. unfold count_duplicates. rewrite filter_app, length_app. reflexivity. Qed.

Lemma count_map (id : nat) (g : File -> File) (l : list File) :
  (forall x, In x l -> f_is_duplicate (g x) = f_is_duplicate x /\
                       f_referenced_file (g x) = f_referenced_file x) ->
  count_duplicates id (map g l) = count_duplicates id l.
Proof.
  unfold count_duplicates. induction l as [|x l IH]; intros H; [reflexivity|].
  simpl. destruct (H x (or_introl eq_refl)) as [E1 E2].
  assert (Hr : references_as_duplicate id (g x) = references_as_duplicate id x)
    by (unfold references_as_duplicate; rewrite E1, E2; reflexivity).
  assert (IH' : List.length (filter (references_as_duplicate id) (map g l))
                = List.length (filter (references_as_duplicate id) l))
    by (apply IH; intros y Hy; apply H; right; exact Hy).
  rewrite Hr. destruct (references_as_duplicate id x); simpl; rewrite IH'; reflexivity.
Qed.

Lemma ids_map (g : File -> File) (l : list File) :
  (forall x, f_id (g x) = f_id x) -> map f_id (map g l) = map f_id l.
Proof.
  intros H. rewrite map_map. apply map_ext. exact H.
Qed.

Lemma nodup_ids_filter (p : File -> bool) (l : list File) :
  NoDup (map f_id l) -> NoDup (map f_id (filter p l)).
Proof.
  induction l as [|x l IH]; intros Hnd; [constructor|].
  simpl in Hnd. inversion Hnd as [|? ? Hnotin Hnd']; subst.
  simpl. destruct (p x); [|apply IH; exact Hnd'].
  simpl. constructor; [|apply IH; exact Hnd'].
  intros Hin. apply Hnotin. apply in_map_iff in Hin as (y & Ey & Hy).
  apply filter_In in Hy as [Hy _]. rewrite <- Ey. apply in_map. exact Hy.
Qed.

Lemma count_remove (id : nat) (r : File) (l : list File) :
  NoDup (map f_id l) -> In r l ->
  count_duplicates id l
  = (count_duplicates id (filter (fun x => negb (Nat.eqb (f_id x) (f_id r))) l)
     + if references_as_duplicate id r then 1 else 0)%nat.
Proof.
  unfold count_duplicates.
  induction l as [|a l IH]; intros Hnd Hin; [destruct Hin|].
  simpl in Hnd. inversion Hnd as [|? ? Hnotin Hnd']; subst.
  destruct Hin as [-> | Hin].
  - simpl. rewrite Nat.eqb_refl. simpl.
    assert (Hkeep : filter (fun x => negb (Nat.eqb (f_id x) (f_id r))) l = l).
    { clear IH Hnd Hnd'. induction l as [|b l IHl]; [reflexivity|].
      simpl. rewrite (proj2 (Nat.eqb_neq (f_id b) (f_id r))).
      - simpl. f_equal. apply IHl. intros Hin. apply Hnotin. right. exact Hin.
      - intros E. apply Hnotin. left. exact E. }
    rewrite Hkeep. destruct (references_as_duplicate id r); simpl; lia.
  - simpl. rewrite (proj2 (Nat.eqb_neq (f_id a) (f_id r))).
    + simpl. pose proof (IH Hnd' Hin) as E.
      destruct (references_as_duplicate id a); simpl; lia.
    + intros E. apply Hnotin. rewrite E. apply in_map. exact Hin.
Qed.

Lemma filter_replace (k : nat) (R : File) (l : list File) :
  f_id R = k ->
  filter (fun x => negb (Nat.eqb (f_id x) k))
         (map (fun x => if Nat.eqb (f_id x) k then R else x) l)
  = filter (fun x => negb (Nat.eqb (f_id x) k)) l.
Proof.
  intros HR. induction l as [|x l IH]; [reflexivity|].
  simpl. destruct (Nat.eqb (f_id x) k) eqn:E.
  - simpl. rewrite HR, Nat.eqb_refl. simpl. exact IH.
  - simpl. rewrite E. simpl. f_equal. exact IH.
Qed.

Lemma count_zero_none (id : nat) (l : list File) :
  count_duplicates id l = 0%nat -> forall x, In x l -> references_as_duplicate id x = false.
Proof.
  unfold count_duplicates. intros H x Hx.
  destruct (references_as_duplicate id x) eqn:E; [|reflexivity].
  exfalso. apply length_zero_iff_nil in H.
  assert (Hin : In x (filter (references_as_duplicate id) l)) by (apply filter_In; auto).
  rewrite H in Hin. destruct Hin.
Qed.

Lemma references_as_duplicate_true (id : nat) (x : File) :
  f_is_duplicate x = true -> f_referenced_file x = Some id -> references_as_duplicate id x = true.
Proof.
  intros H1 H2. unfold references_as_duplicate. rewrite H1, H2, Nat.eqb_refl. reflexivity.
Qed.

Lemma nodup_snoc_fresh (l : list File) (r : File) (u : nat) :
  NoDup (map f_id l) -> (forall x, In x l -> (f_id x < u)%nat) -> f_id r = u ->
  NoDup (map f_id (l ++ [r])).
Proof.
  intros Hnd Hlt Hr. rewrite map_app. apply NoDup_app; [exact Hnd | repeat constructor; auto |].
  intros a Ha [E | []]. apply in_map_iff in Ha as (x & <- & Hx).
  specialize (Hlt x Hx). lia.
Qed.

Lemma canonical_of_hash (s : State) (r : File) (h : string) :
  dedup_inv s -> In r (st_db s) -> f_content_hash r = Some h -> f_is_duplicate r = false.
Proof.
  intros Hinv Hr Hh. destruct (f_is_duplicate r) eqn:E; [|reflexivity].
  destruct (inv_duplicate s Hinv r Hr E) as (_ & Hnone & _). congruence.
Qed.

(** Linking a new duplicate to [existing] and bumping its count keeps the invariant. *)
Lemma inv_add_duplicate (s : State) (existing : File) (h : string)
    (name ty : string) (size t : Z) :
  dedup_inv s -> In existing (st_db s) -> f_content_hash existing = Some h ->
  let dup := {| f_id := st_uuid s; f_file := f_file existing;
                f_original_filename := name; f_file_type := ty;
                f_size := size; f_uploaded_at := t; f_content_hash := None;
                f_is_duplicate := true; f_reference_count := 1;
                f_referenced_file := Some (f_id existing) |} in
  dedup_inv {| st_db := apply_write (st_db s) (WUpdateRefcount (f_id existing) 1) ++ [dup];
               st_log := []; st_blobs := st_blobs s; st_uuid := S (st_uuid s);
               st_needs_rollback := false |}.
Proof.
  intros Hinv Hex Hh dup.
  pose proof (canonical_of_hash s existing h Hinv Hex Hh) as Hexc.
  destruct Hinv as [Hwf Hdup Hcan].
  destruct Hwf as [Hlog Hnr Hids Hblobs Hfiles Hnodup Huniq].
  destruct s as [db log blobs u nr]; cbn [st_db st_log st_blobs st_uuid st_needs_rollback] in *.
  subst log nr.
  set (k := f_id existing) in *.
  set (incr := fun x => if Nat.eqb (f_id x) k
                        then set_refcount x (f_reference_count x + 1) else x).
  assert (Hincr_id : forall x, f_id (incr x) = f_id x)
    by (intros x; unfold incr; destruct (Nat.eqb (f_id x) k); reflexivity).
  assert (Hincr_shape : forall x, f_is_duplicate (incr x) = f_is_duplicate x /\
                                  f_referenced_file (incr x) = f_referenced_file x /\
                                  f_content_hash (incr x) = f_content_hash x /\
                                  f_file (incr x) = f_file x)
    by (intros x; unfold incr; destruct (Nat.eqb (f_id x) k); repeat split).
  assert (Hdup_fixed : forall y, In y db -> f_is_duplicate y = true -> incr y = y).
  { intros y Hy Hyd. unfold incr. destruct (Nat.eqb (f_id y) k) eqn:E; [|reflexivity].
    apply Nat.eqb_eq in E. rewrite (same_id_same_row db y existing Hnodup Hy Hex E) in Hyd.
    congruence. }
  change (apply_write db (WUpdateRefcount k 1)) with (map incr db).
  assert (Hin_db' : forall x, In x (map incr db ++ [dup]) ->
                    (exists y, In y db /\ x = incr y) \/ x = dup).
  { intros x Hx. apply in_app_or in Hx as [Hx | [<- | []]]; [left | right; reflexivity].
    apply in_map_iff in Hx as (y & <- & Hy). exists y. auto. }
  constructor; [constructor|..]; cbn [st_db st_log st_blobs st_uuid st_needs_rollback].
  - reflexivity.
  - reflexivity.
  - intros r Hr. destruct (Hin_db' r Hr) as [(y & Hy & ->) | ->].
    + rewrite Hincr_id. specialize (Hids y Hy). lia.
    + simpl. lia.
  - intros l d Hld. specialize (Hblobs l d Hld). lia.
  - intros r l Hr Hl. destruct (Hin_db' r Hr) as [(y & Hy & ->) | ->].
    + destruct (Hincr_shape y) as (_ & _ & _ & E). rewrite E in Hl.
      specialize (Hfiles y l Hy Hl). lia.
    + simpl in Hl. specialize (Hfiles existing l Hex Hl). lia.
  - apply (nodup_snoc_fresh _ _ u); [rewrite ids_map; auto | |reflexivity].
    intros x Hx. apply in_map_iff in Hx as (y & <- & Hy). rewrite Hincr_id. apply Hids. exact Hy.
  - intros r1 r2 h' Hr1 Hr2 Hh1 Hh2.
    destruct (Hin_db' r1 Hr1) as [(y1 & Hy1 & ->) | ->]; [|discriminate].
    destruct (Hin_db' r2 Hr2) as [(y2 & Hy2 & ->) | ->]; [|discriminate].
    destruct (Hincr_shape y1) as (_ & _ & E1 & _). destruct (Hincr_shape y2) as (_ & _ & E2 & _).
    rewrite E1 in Hh1. rewrite E2 in Hh2. f_equal. apply (Huniq y1 y2 h'); assumption.
  - intros r Hr Hrd. destruct (Hin_db' r Hr) as [(y & Hy & ->) | ->].
    + destruct (Hincr_shape y) as (E1 & _). rewrite E1 in Hrd.
      rewrite (Hdup_fixed y Hy Hrd).
      destruct (Hdup y Hy Hrd) as (Hrc & Hhn & c & Hc & Hcin & Hcc).
      split; [exact Hrc|]. split; [exact Hhn|].
      exists (incr c). rewrite Hincr_id. split; [exact Hc|]. split.
      * apply in_or_app. left. apply in_map. exact Hcin.
      * destruct (Hincr_shape c) as (E & _). rewrite E. exact Hcc.
    + split; [reflexivity|]. split; [reflexivity|].
      exists (incr existing). rewrite Hincr_id. split; [reflexivity|]. split.
      * apply in_or_app. left. apply in_map. exact Hex.
      * destruct (Hincr_shape existing) as (E & _). rewrite E. exact Hexc.
  - intros r Hr Hrd. destruct (Hin_db' r Hr) as [(y & Hy & ->) | ->]; [|discriminate].
    destruct (Hincr_shape y) as (E1 & E2 & _). rewrite E1 in Hrd. rewrite E2, Hincr_id.
    destruct (Hcan y Hy Hrd) as [Href Hrc]. split; [exact Href|].
    rewrite count_app, count_map by (intros x _; destruct (Hincr_shape x) as (A & B & _); auto).
    assert (Hd : count_duplicates (f_id y) [dup] = if Nat.eqb k (f_id y) then 1%nat else 0%nat)
      by (unfold count_duplicates, references_as_duplicate; simpl;
          destruct (Nat.eqb k (f_id y)); reflexivity).
    rewrite Hd. unfold incr. destruct (Nat.eqb (f_id y) k) eqn:E.
    + rewrite Nat.eqb_sym, E. unfold set_refcount; cbn [f_reference_count]. rewrite Hrc. lia.
    + rewrite Nat.eqb_sym, E. rewrite Hrc. lia.
Qed.

Lemma hash_eqb_false (h : string) (x : File) :
  hash_eqb h x = false -> f_content_hash x <> Some h.
Proof.
  unfold hash_eqb. intros E Hx. rewrite Hx, String.eqb_refl in E. discriminate.
Qed.

(** Storing a blob under a fresh name and moving the uuid source forward
    keeps the invariant. *)
Lemma inv_store_blob (s : State) (loc : Locator) (d : list Byte.byte) :
  dedup_inv s -> loc_uuid loc = S (st_uuid s) ->
  dedup_inv {| st_db := st_db s; st_log := []; st_blobs := (loc, d) :: st_blobs s;
               st_uuid := S (S (st_uuid s)); st_needs_rollback := false |}.
Proof.
  intros [Hwf Hdup Hcan] Hloc.
  destruct Hwf as [Hlog Hnr Hids Hblobs Hfiles Hnodup Huniq].
  constructor; [constructor|..]; cbn [st_db st_log st_blobs st_uuid st_needs_rollback]; auto.
  - intros r Hr. specialize (Hids r Hr). lia.
  - intros l d' [E | Hin].
    + injection E as -> _. lia.
    + specialize (Hblobs l d' Hin). lia.
  - intros r l Hr Hl. specialize (Hfiles r l Hr Hl). lia.
Qed.

(** Adding a new canonical record with a fresh id, a fresh blob and a digest
    no stored record has keeps the invariant. *)
Lemma inv_add_canonical (s : State) (c : File) (h : string) (loc : Locator)
    (d : list Byte.byte) :
  dedup_inv s ->
  f_id c = st_uuid s -> f_is_duplicate c = false -> f_referenced_file c = None ->
  f_reference_count c = 1 -> f_content_hash c = Some h -> f_file c = Some loc ->
  loc_uuid loc = S (st_uuid s) ->
  existsb (hash_eqb h) (st_db s) = false ->
  dedup_inv {| st_db := st_db s ++ [c]; st_log := []; st_blobs := (loc, d) :: st_blobs s;
               st_uuid := S (S (st_uuid s)); st_needs_rollback := false |}.
Proof.
  intros Hinv Hid Hcd Hcref Hcrc Hch Hcf Hloc Hnoh.
  assert (Hnoh' : forall x, In x (st_db s) -> f_content_hash x <> Some h).
  { intros x Hx. apply hash_eqb_false.
    destruct (hash_eqb h x) eqn:E; [|reflexivity].
    rewrite (proj2 (existsb_exists _ _) (ex_intro _ x (conj Hx E))) in Hnoh. discriminate. }
  destruct Hinv as [Hwf Hdup Hcan].
  destruct Hwf as [Hlog Hnr Hids Hblobs Hfiles Hnodup Huniq].
  destruct s as [db log blobs u nr]; cbn [st_db st_log st_blobs st_uuid st_needs_rollback] in *.
  subst log nr.
  assert (Hin_db' : forall x, In x (db ++ [c]) -> In x db \/ x = c).
  { intros x Hx. apply in_app_or in Hx as [Hx | [<- | []]]; auto. }
  assert (Hnot_ref : forall x, In x db -> references_as_duplicate (f_id c) x = false).
  { intros x Hx. unfold references_as_duplicate.
    destruct (f_is_duplicate x) eqn:Ed; [|reflexivity].
    destruct (Hdup x Hx Ed) as (_ & _ & c' & Hc' & Hc'in & _). rewrite Hc'. simpl.
    apply Nat.eqb_neq. specialize (Hids c' Hc'in). lia. }
  constructor; [constructor|..]; cbn [st_db st_log st_blobs st_uuid st_needs_rollback].
  - reflexivity.
  - reflexivity.
  - intros r Hr. destruct (Hin_db' r Hr) as [Hr' | ->]; [specialize (Hids r Hr') |]; lia.
  - intros l d' [E | Hin].
    + injection E as -> _. lia.
    + specialize (Hblobs l d' Hin). lia.
  - intros r l Hr Hl. destruct (Hin_db' r Hr) as [Hr' | ->].
    + specialize (Hfiles r l Hr' Hl). lia.
    + rewrite Hcf in Hl. injection Hl as <-. lia.
  - apply (nodup_snoc_fresh _ _ u); auto.
  - intros r1 r2 h' Hr1 Hr2 Hh1 Hh2.
    destruct (Hin_db' r1 Hr1) as [Hr1' | ->]; destruct (Hin_db' r2 Hr2) as [Hr2' | ->].
    + apply (Huniq r1 r2 h'); assumption.
    + exfalso. rewrite Hch in Hh2. injection Hh2 as ->. exact (Hnoh' r1 Hr1' Hh1).
    + exfalso. rewrite Hch in Hh1. injection Hh1 as ->. exact (Hnoh' r2 Hr2' Hh2).
    + reflexivity.
  - intros r Hr Hrd. destruct (Hin_db' r Hr) as [Hr' | ->]; [|congruence].
    destruct (Hdup r Hr' Hrd) as (Hrc & Hhn & c' & Hc' & Hc'in & Hc'c).
    split; [exact Hrc|]. split; [exact Hhn|].
    exists c'. split; [exact Hc'|]. split; [apply in_or_app; left; exact Hc'in | exact Hc'c].
  - intros r Hr Hrd. destruct (Hin_db' r Hr) as [Hr' | ->].
    + destruct (Hcan r Hr' Hrd) as [Href Hrc]. split; [exact Href|].
      rewrite count_app.
      assert (Hz : count_duplicates (f_id r) [c] = 0%nat)
        by (unfold count_duplicates; simpl; unfold references_as_duplicate; rewrite Hcd; reflexivity).
      rewrite Hz, Nat.add_0_r. exact Hrc.
    + split; [exact Hcref|]. rewrite count_app.
      assert (Hz : count_duplicates (f_id c) [c] = 0%nat)
        by (unfold count_duplicates; simpl; unfold references_as_duplicate; rewrite Hcd; reflexivity).
      assert (Hz' : count_duplicates (f_id c) db = 0%nat).
      { unfold count_duplicates. apply length_zero_iff_nil.
        destruct (filter (references_as_duplicate (f_id c)) db) as [|x xs] eqn:Ef; [reflexivity|].
        exfalso. assert (Hx : In x (filter (references_as_duplicate (f_id c)) db))
          by (rewrite Ef; left; reflexivity).
        apply filter_In in Hx as [Hx Hxr]. rewrite (Hnot_ref x Hx) in Hxr. discriminate. }
      rewrite Hz, Hz'. rewrite Hcrc. reflexivity.
Qed.

(** Removing a duplicate row and decrementing its canonical record keeps
    the invariant. *)
Lemma inv_delete_duplicate (s : State) (r c : File) :
  dedup_inv s -> In r (st_db s) -> f_is_duplicate r = true ->
  f_referenced_file r = Some (f_id c) -> In c (st_db s) -> f_is_duplicate c = false ->
  dedup_inv {| st_db := apply_write (apply_write (st_db s) (WUpdateRefcount (f_id c) (-1)))
                                    (WDelete (f_id r));
               st_log := []; st_blobs := st_blobs s; st_uuid := st_uuid s;
               st_needs_rollback := false |}.
Proof.
  intros Hinv Hr Hrd Hrc Hc Hcc.
  destruct Hinv as [Hwf Hdup Hcan].
  destruct Hwf as [Hlog Hnr Hids Hblobs Hfiles Hnodup Huniq].
  destruct s as [db log blobs u nr]; cbn [st_db st_log st_blobs st_uuid st_needs_rollback] in *.
  subst log nr.
  set (k := f_id c) in *.
  set (decr := fun x => if Nat.eqb (f_id x) k
                        then set_refcount x (f_reference_count x + -1) else x).
  assert (Hdecr_id : forall x, f_id (decr x) = f_id x)
    by (intros x; unfold decr; destruct (Nat.eqb (f_id x) k); reflexivity).
  assert (Hdecr_shape : forall x, f_is_duplicate (decr x) = f_is_duplicate x /\
                                  f_referenced_file (decr x) = f_referenced_file x /\
                                  f_content_hash (decr x) = f_content_hash x /\
                                  f_file (decr x) = f_file x)
    by (intros x; unfold decr; destruct (Nat.eqb (f_id x) k); repeat split).
  assert (Hdup_fixed : forall y, In y db -> f_is_duplicate y = true -> decr y = y).
  { intros y Hy Hyd. unfold decr. destruct (Nat.eqb (f_id y) k) eqn:E; [|reflexivity].
    apply Nat.eqb_eq in E. rewrite (same_id_same_row db y c Hnodup Hy Hc E) in Hyd.
    congruence. }
  change (apply_write (apply_write db (WUpdateRefcount k (-1))) (WDelete (f_id r)))
    with (filter (fun x => negb (Nat.eqb (f_id x) (f_id r))) (map decr db)).
  assert (Hin_db' : forall x, In x (filter (fun x => negb (Nat.eqb (f_id x) (f_id r)))
                                            (map decr db)) ->
                    exists y, In y db /\ x = decr y /\ f_id y <> f_id r).
  { intros x Hx. apply filter_In in Hx as [Hx Hne].
    apply in_map_iff in Hx as (y & <- & Hy). exists y. split; [exact Hy|]. split; [reflexivity|].
    rewrite Hdecr_id in Hne. intros E. rewrite E, Nat.eqb_refl in Hne. discriminate. }
  assert (Hkeep : forall y, In y db -> f_id y <> f_id r ->
                  In (decr y) (filter (fun x => negb (Nat.eqb (f_id x) (f_id r))) (map decr db))).
  { intros y Hy Hne. apply filter_In. split; [apply in_map; exact Hy|].
    rewrite Hdecr_id. apply negb_true_iff. apply Nat.eqb_neq. exact Hne. }
  assert (Hcan_not_r : forall y, In y db -> f_is_duplicate y = false -> f_id y <> f_id r).
  { intros y Hy Hyd E. rewrite (same_id_same_row db y r Hnodup Hy Hr E) in Hyd. congruence. }
  assert (Hnd_map : NoDup (map f_id (map decr db))) by (rewrite ids_map; auto).
  constructor; [constructor|..]; cbn [st_db st_log st_blobs st_uuid st_needs_rollback].
  - reflexivity.
  - reflexivity.
  - intros x Hx. destruct (Hin_db' x Hx) as (y & Hy & -> & _). rewrite Hdecr_id. auto.
  - exact Hblobs.
  - intros x l Hx Hl. destruct (Hin_db' x Hx) as (y & Hy & -> & _).
    destruct (Hdecr_shape y) as (_ & _ & _ & E). rewrite E in Hl. eauto.
  - apply nodup_ids_filter. exact Hnd_map.
  - intros x1 x2 h Hx1 Hx2 Hh1 Hh2.
    destruct (Hin_db' x1 Hx1) as (y1 & Hy1 & -> & _).
    destruct (Hin_db' x2 Hx2) as (y2 & Hy2 & -> & _).
    destruct (Hdecr_shape y1) as (_ & _ & E1 & _). destruct (Hdecr_shape y2) as (_ & _ & E2 & _).
    rewrite E1 in Hh1. rewrite E2 in Hh2. f_equal. apply (Huniq y1 y2 h); assumption.
  - intros x Hx Hxd. destruct (Hin_db' x Hx) as (y & Hy & -> & _).
    destruct (Hdecr_shape y) as (E1 & _). rewrite E1 in Hxd.
    rewrite (Hdup_fixed y Hy Hxd).
    destruct (Hdup y Hy Hxd) as (Hyrc & Hyh & c' & Hc' & Hc'in & Hc'c).
    split; [exact Hyrc|]. split; [exact Hyh|].
    exists (decr c'). rewrite Hdecr_id. split; [exact Hc'|]. split.
    + apply Hkeep; [exact Hc'in | apply Hcan_not_r; assumption].
    + destruct (Hdecr_shape c') as (E & _). rewrite E. exact Hc'c.
  - intros x Hx Hxd. destruct (Hin_db' x Hx) as (y & Hy & -> & Hyr).
    destruct (Hdecr_shape y) as (E1 & E2 & _). rewrite E1 in Hxd. rewrite E2, Hdecr_id.
    destruct (Hcan y Hy Hxd) as [Href Hyc]. split; [exact Href|].
    assert (Hrm := count_remove (f_id y) (decr r) (map decr db) Hnd_map (in_map decr db r Hr)).
    rewrite Hdecr_id, count_map in Hrm
      by (intros z _; destruct (Hdecr_shape z) as (A & B & _); auto).
    rewrite (Hdup_fixed r Hr Hrd) in Hrm.
    unfold references_as_duplicate in Hrm. rewrite Hrd, Hrc in Hrm.
    cbn [andb] in Hrm.
    unfold decr at 1. destruct (Nat.eqb (f_id y) k) eqn:E.
    + rewrite Nat.eqb_sym, E in Hrm. unfold set_refcount; cbn [f_reference_count]. lia.
    + rewrite Nat.eqb_sym, E in Hrm. lia.
Qed.

(** Removing a canonical record whose count is at most 1 keeps the
    invariant, whatever blobs are removed with it. *)
Lemma inv_delete_canonical (s : State) (r : File) (blobs' : list (Locator * list Byte.byte)) :
  dedup_inv s -> In r (st_db s) -> f_is_duplicate r = false -> f_reference_count r <= 1 ->
  (forall l d, In (l, d) blobs' -> In (l, d) (st_blobs s)) ->
  dedup_inv {| st_db := filter (fun x => negb (Nat.eqb (f_id x) (f_id r))) (st_db s);
               st_log := []; st_blobs := blobs'; st_uuid := st_uuid s;
               st_needs_rollback := false |}.
Proof.
  intros Hinv Hr Hrd Hrc Hsub.
  destruct Hinv as [Hwf Hdup Hcan].
  destruct Hwf as [Hlog Hnr Hids Hblobs Hfiles Hnodup Huniq].
  destruct s as [db log blobs u nr]; cbn [st_db st_log st_blobs st_uuid st_needs_rollback] in *.
  subst log nr.
  assert (Hzero : count_duplicates (f_id r) db = 0%nat)
    by (destruct (Hcan r Hr Hrd) as [_ E]; lia).
  pose proof (count_zero_none (f_id r) db Hzero) as Hnone.
  assert (Hin_db' : forall x, In x (filter (fun x => negb (Nat.eqb (f_id x) (f_id r))) db) ->
                    In x db /\ f_id x <> f_id r).
  { intros x Hx. apply filter_In in Hx as [Hx Hne]. split; [exact Hx|].
    intros E. rewrite E, Nat.eqb_refl in Hne. discriminate. }
  constructor; [constructor|..]; cbn [st_db st_log st_blobs st_uuid st_needs_rollback].
  - reflexivity.
  - reflexivity.
  - intros x Hx. apply Hids. apply Hin_db'. exact Hx.
  - intros l d Hld. apply (Hblobs l d). apply Hsub. exact Hld.
  - intros x l Hx Hl. apply (Hfiles x l); [apply Hin_db'; exact Hx | exact Hl].
  - apply nodup_ids_filter. exact Hnodup.
  - intros x1 x2 h Hx1 Hx2. apply (Huniq x1 x2 h); apply Hin_db'; assumption.
  - intros x Hx Hxd. destruct (Hin_db' x Hx) as [Hx' Hxr].
    destruct (Hdup x Hx' Hxd) as (Hxrc & Hxh & c' & Hc' & Hc'in & Hc'c).
    split; [exact Hxrc|]. split; [exact Hxh|].
    exists c'. split; [exact Hc'|]. split; [|exact Hc'c].
    apply filter_In. split; [exact Hc'in|]. apply negb_true_iff, Nat.eqb_neq.
    intros E. pose proof (Hnone x Hx') as Hf. unfold references_as_duplicate in Hf.
    rewrite Hxd, Hc', E, Nat.eqb_refl in Hf. discriminate.
  - intros x Hx Hxd. destruct (Hin_db' x Hx) as [Hx' Hxr].
    destruct (Hcan x Hx' Hxd) as [Href Hxc]. split; [exact Href|].
    pose proof (count_remove (f_id x) r db Hnodup Hr) as Hrm.
    unfold references_as_duplicate in Hrm. rewrite Hrd in Hrm. cbn [andb] in Hrm.
    lia.
Qed.

End InvariantProofs.

Section Preservation.

Variable HashState : Type.
Variable sha256_init : HashState.
Variable sha256_update : HashState -> list Byte.byte -> HashState.
Variable hexdigest : HashState -> string.

Let digest (f : UploadedFile) : string :=
  fst (compute_file_hash HashState sha256_init sha256_update hexdigest f).

Lemma inv_rollback (s : State) :
  dedup_inv s ->
  dedup_inv {| st_db := st_db s; st_log := []; st_blobs := st_blobs s;
               st_uuid := st_uuid s; st_needs_rollback := false |}.
Proof.
  intros Hinv. pose proof (wf_log s (inv_wf s Hinv)) as Hl.
  pose proof (wf_no_rollback s (inv_wf s Hinv)) as Hn.
  destruct s as [db log blobs u nr]; cbn [st_db st_log st_blobs st_uuid st_needs_rollback] in *.
  subst log nr. exact Hinv.
Qed.

(** Drawing uuids without writing anything keeps the invariant. *)
Lemma inv_skip_uuids (s : State) :
  dedup_inv s ->
  dedup_inv {| st_db := st_db s; st_log := []; st_blobs := st_blobs s;
               st_uuid := S (S (st_uuid s)); st_needs_rollback := false |}.
Proof.
  intros [Hwf Hdup Hcan].
  destruct Hwf as [Hlog Hnr Hids Hblobs Hfiles Hnodup Huniq].
  constructor; [constructor|..]; cbn [st_db st_log st_blobs st_uuid st_needs_rollback]; auto.
  - intros r Hr. specialize (Hids r Hr). lia.
  - intros l d' Hin. specialize (Hblobs l d' Hin). lia.
  - intros r l Hr Hl. specialize (Hfiles r l Hr Hl). lia.
Qed.

(** An upload keeps the invariant, whatever a concurrent request that keeps
    it commits in between. *)
Lemma create_with_inv (interfere : State -> State) (s : State)
    (file_obj : option UploadedFile) (now : Z) :
  (forall s0, dedup_inv s0 -> dedup_inv (interfere s0)) ->
  dedup_inv s ->
  dedup_inv (fst (create_with HashState sha256_init sha256_update hexdigest
                    interfere file_obj now s)).
Proof.
  intros Hi Hinv.
  destruct file_obj as [f|]; [|exact Hinv].
  pose proof (inv_wf s Hinv) as Hwf.
  destruct (existsb (hash_eqb (digest f)) (st_db s)) eqn:Hex.
  - apply existsb_exists in Hex as (existing & Hin & Hh).
    assert (Hh' : f_content_hash existing = Some (digest f)).
    { unfold hash_eqb in Hh. destruct (f_content_hash existing); [|discriminate].
      apply String.eqb_eq in Hh. congruence. }
    rewrite (create_with_found HashState sha256_init sha256_update hexdigest
               interfere s f now existing Hwf Hin Hh').
    apply (inv_add_duplicate s existing (digest f)); assumption.
  - assert (Hnone : forall r, In r (st_db s) -> f_content_hash r <> Some (digest f)).
    { intros r Hr. apply hash_eqb_false. apply (existsb_all_false_inv _ _ Hex r Hr). }
    pose proof (Hi s Hinv) as Hinv1.
    rewrite (create_with_not_found HashState sha256_init sha256_update hexdigest
               interfere s f now Hwf Hnone (inv_wf _ Hinv1)).
    destruct (serializer_errors f) as [|e errs].
    + unfold digest in *.
      destruct (upload_location (S (st_uuid (interfere s))) (uf_name f)) as [loc|] eqn:El;
        [|apply inv_skip_uuids; exact Hinv1].
      pose proof (upload_location_uuid _ _ _ El) as Hu.
      destruct (existsb (fun x => hash_eqb (fst (compute_file_hash HashState sha256_init
                  sha256_update hexdigest f)) x) (st_db (interfere s))) eqn:Hex1.
      * apply (inv_store_blob (interfere s)); [exact Hinv1 | exact Hu].
      * apply (inv_add_canonical (interfere s) _
                 (fst (compute_file_hash HashState sha256_init sha256_update hexdigest f)) loc);
          try reflexivity; first [exact Hinv1 | exact Hex1 | exact Hu].
    + apply inv_rollback. exact Hinv1.
Qed.

Lemma concurrent_create_inv (other : option UploadedFile) (t : Z) (s : State) :
  dedup_inv s ->
  dedup_inv (concurrent_create HashState sha256_init sha256_update hexdigest other t s).
Proof.
  intros Hinv.
  pose proof (create_with_inv no_interference s other t (fun s0 H => H) Hinv) as Hinv'.
  unfold concurrent_create.
  rewrite (wf_log s (inv_wf s Hinv)), (wf_no_rollback s (inv_wf s Hinv)).
  rewrite <- (wf_log _ (inv_wf _ Hinv')), <- (wf_no_rollback _ (inv_wf _ Hinv')).
  destruct (fst (create_with HashState sha256_init sha256_update hexdigest
                   no_interference other t s)).
  exact Hinv'.
Qed.

(** No row references a record that no duplicate references. *)
Lemma no_reference_to_duplicate (s : State) (r : File) :
  dedup_inv s -> In r (st_db s) -> f_is_duplicate r = true ->
  forall x, In x (st_db s) -> f_referenced_file x <> Some (f_id r).
Proof.
  intros Hinv Hr Hrd x Hx Href.
  destruct (f_is_duplicate x) eqn:Hxd.
  - destruct (inv_duplicate s Hinv x Hx Hxd) as (_ & _ & c & Hc & Hcin & Hcc).
    rewrite Hc in Href. injection Href as E.
    rewrite (same_id_same_row (st_db s) c r (wf_ids_unique s (inv_wf s Hinv)) Hcin Hr E) in Hcc.
    congruence.
  - destruct (inv_canonical s Hinv x Hx Hxd) as [Hn _]. congruence.
Qed.

Lemma no_reference_to_free (s : State) (r : File) :
  dedup_inv s -> In r (st_db s) -> f_is_duplicate r = false -> f_reference_count r <= 1 ->
  forall x, In x (st_db s) -> f_referenced_file x <> Some (f_id r).
Proof.
  intros Hinv Hr Hrd Hrc x Hx Href.
  destruct (inv_canonical s Hinv r Hr Hrd) as [_ Hcount].
  assert (Hzero : count_duplicates (f_id r) (st_db s) = 0%nat) by lia.
  pose proof (count_zero_none _ _ Hzero x Hx) as Hf.
  destruct (f_is_duplicate x) eqn:Hxd.
  - rewrite (references_as_duplicate_true _ _ Hxd Href) in Hf. discriminate.
  - destruct (inv_canonical s Hinv x Hx Hxd) as [Hn _]. congruence.
Qed.

Lemma save_then_delete (l : list File) (r : File) :
  In r l ->
  apply_write (apply_write l (WSave (set_file r None))) (WDelete (f_id r))
  = filter (fun x => negb (Nat.eqb (f_id x) (f_id r))) l.
Proof.
  intros Hin. cbn [apply_write].
  assert (Hex : existsb (fun x => Nat.eqb (f_id x) (f_id (set_file r None))) l = true).
  { apply existsb_exists. exists r. split; [exact Hin | apply Nat.eqb_refl]. }
  rewrite Hex. apply filter_replace. reflexivity.
Qed.

(** A delete request keeps the invariant. *)
Lemma destroy_inv (id : nat) (s : State) :
  dedup_inv s -> dedup_inv (fst (destroy id s)).
Proof.
  intros Hinv. pose proof (inv_wf s Hinv) as Hwf.
  assert (Hview : view s = st_db s)
    by (unfold view; rewrite (wf_log s Hwf); reflexivity).
  destruct (filter (fun x => Nat.eqb (f_id x) id) (st_db s)) as [|r [|r2 rest]] eqn:Hf.
  - unfold destroy, get_object, bind. rewrite Hview, Hf. exact Hinv.
  - assert (Hr : In r (filter (fun x => Nat.eqb (f_id x) id) (st_db s)))
      by (rewrite Hf; left; reflexivity).
    apply filter_In in Hr as [Hr Hid]. apply Nat.eqb_eq in Hid. subst id.
    destruct (f_is_duplicate r) eqn:Hrd.
    + destruct (inv_duplicate s Hinv r Hr Hrd) as (_ & _ & c & Hc & Hcin & Hcc).
      rewrite (destroy_duplicate_path s r c Hwf Hr Hrd Hc Hcin
                 (no_reference_to_duplicate s r Hinv Hr Hrd)).
      apply inv_delete_duplicate; assumption.
    + destruct (Z.le_gt_cases (f_reference_count r) 1) as [Hle | Hgt].
      * rewrite (destroy_free_path s r Hwf Hr Hrd Hle
                   (no_reference_to_free s r Hinv Hr Hrd Hle)).
        destruct (f_file r) as [l|].
        -- cbn [fst]. rewrite (save_then_delete _ _ Hr).
           apply inv_delete_canonical; try assumption.
           intros l0 d Hin. apply filter_In in Hin as [Hin _]. exact Hin.
        -- cbn [fst]. apply inv_delete_canonical; auto.
      * rewrite (destroy_protected_path s r) by (first [rewrite Hview; exact Hf | assumption | lia]).
        exact Hinv.
  - unfold destroy, get_object, bind. rewrite Hview, Hf. exact Hinv.
Qed.

Lemma step_inv (s s' : State) :
  step HashState sha256_init sha256_update hexdigest s s' -> dedup_inv s -> dedup_inv s'.
Proof.
  intros Hstep Hinv. destruct Hstep.
  - apply create_with_inv; [intros s0 H; exact H | exact Hinv].
  - apply create_with_inv; [apply concurrent_create_inv | exact Hinv].
  - apply destroy_inv. exact Hinv.
Qed.

Lemma empty_state_inv : dedup_inv empty_state.
Proof.
  constructor; [constructor|..]; cbn [st_db st_log st_blobs st_uuid st_needs_rollback empty_state];
    try reflexivity; try (intros; contradiction); try constructor.
Qed.

Lemma reachable_inv (s : State) :
  reachable HashState sha256_init sha256_update hexdigest s -> dedup_inv s.
Proof.
  induction 1 as [|s s' _ IH Hstep].
  - exact empty_state_inv.
  - exact (step_inv s s' Hstep IH).
Qed.

End Preservation.

Section DeleteClaims.

Variable HashState : Type.
Variable sha256_init : HashState.
Variable sha256_update : HashState -> list Byte.byte -> HashState.
Variable hexdigest : HashState -> string.

(** C4: in every state reached from the empty store by uploads (sequential
    or racing) and deletes, a canonical record's [reference_count] is 1 plus
    the number of live duplicates that reference it, and a duplicate's
    [reference_count] is 1. *)
Theorem reference_count_invariant (s : State) :
  reachable HashState sha256_init sha256_update hexdigest s ->
  forall r, In r (st_db s) ->
    (f_is_duplicate r = false ->
     f_reference_count r = 1 + Z.of_nat (count_duplicates (f_id r) (st_db s))) /\
    (f_is_duplicate r = true -> f_reference_count r = 1).
Proof.
  intros Hreach r Hr.
  pose proof (reachable_inv HashState sha256_init sha256_update hexdigest s Hreach) as Hinv.
  split.
  - intros Hd. exact (proj2 (inv_canonical s Hinv r Hr Hd)).
  - intros Hd. exact (proj1 (inv_duplicate s Hinv r Hr Hd)).
Qed.

(** C5: deleting a canonical record whose [reference_count] exceeds 1 is
    refused with [PermissionDenied] (a permission failure) and the whole
    state, rows and blobs, is returned unchanged. *)
Theorem destroy_protected_rejected (s : State) (r : File) :
  wf_state s -> In r (st_db s) -> f_is_duplicate r = false -> f_reference_count r > 1 ->
  destroy (f_id r) s = (s, Raise (PermissionDenied protected_msg)).
Proof.
  intros Hwf Hr Hd Hrc. apply destroy_protected_path; [|exact Hd | exact Hrc].
  unfold view. rewrite (wf_log s Hwf). apply filter_id_single; [|exact Hr].
  exact (wf_ids_unique s Hwf).
Qed.

(** C6: deleting a duplicate record in a reachable state succeeds; the
    canonical record it references loses exactly one from its
    [reference_count], the rows with the duplicate's id are removed and no
    other row changes, and the blob store is left as it was. *)
Theorem destroy_duplicate_decrements (s : State) (r : File) :
  reachable HashState sha256_init sha256_update hexdigest s ->
  In r (st_db s) -> f_is_duplicate r = true ->
  exists c,
    f_referenced_file r = Some (f_id c) /\ In c (st_db s) /\ f_is_duplicate c = false /\
    destroy (f_id r) s
    = ({| st_db := filter (fun x => negb (Nat.eqb (f_id x) (f_id r)))
                     (map (fun x => if Nat.eqb (f_id x) (f_id c)
                                    then set_refcount x (f_reference_count x - 1) else x)
                          (st_db s));
          st_log := []; st_blobs := st_blobs s; st_uuid := st_uuid s;
          st_needs_rollback := false |}, Ok NoContent).
Proof.
  intros Hreach Hr Hd.
  pose proof (reachable_inv HashState sha256_init sha256_update hexdigest s Hreach) as Hinv.
  destruct (inv_duplicate s Hinv r Hr Hd) as (_ & _ & c & Hc & Hcin & Hcc).
  exists c. split; [exact Hc|]. split; [exact Hcin|]. split; [exact Hcc|].
  rewrite (destroy_duplicate_path s r c (inv_wf s Hinv) Hr Hd Hc Hcin
             (no_reference_to_duplicate s r Hinv Hr Hd)).
  reflexivity.
Qed.

(** C7: deleting a canonical record whose [reference_count] is at most 1 in
    a reachable state succeeds; afterwards no row has its id (a lookup
    answers NotFound), no blob is stored under its locator, every other row
    is kept and no blob is added. *)
Theorem destroy_free_canonical (s : State) (r : File) :
  reachable HashState sha256_init sha256_update hexdigest s ->
  In r (st_db s) -> f_is_duplicate r = false -> f_reference_count r <= 1 ->
  exists s',
    destroy (f_id r) s = (s', Ok NoContent) /\
    get_object (f_id r) s' = (s', Raise NotFound) /\
    (forall l d, f_file r = Some l -> ~ In (l, d) (st_blobs s')) /\
    (forall x, In x (st_db s) -> f_id x <> f_id r -> In x (st_db s')) /\
    (forall l d, In (l, d) (st_blobs s') -> In (l, d) (st_blobs s)).
Proof.
  intros Hreach Hr Hd Hrc.
  pose proof (reachable_inv HashState sha256_init sha256_update hexdigest s Hreach) as Hinv.
  pose proof (inv_wf s Hinv) as Hwf.
  rewrite (destroy_free_path s r Hwf Hr Hd Hrc (no_reference_to_free s r Hinv Hr Hd Hrc)).
  assert (Hgone : forall l : list File,
             filter (fun x => Nat.eqb (f_id x) (f_id r))
                    (filter (fun x => negb (Nat.eqb (f_id x) (f_id r))) l) = []).
  { intros l. apply filter_id_none. intros x Hx E. apply filter_In in Hx as [_ Hx].
    rewrite E, Nat.eqb_refl in Hx. discriminate. }
  assert (Hkeep : forall x, In x (st_db s) -> f_id x <> f_id r ->
             In x (filter (fun x => negb (Nat.eqb (f_id x) (f_id r))) (st_db s))).
  { intros x Hx Hne. apply filter_In. split; [exact Hx|].
    apply negb_true_iff, Nat.eqb_neq. exact Hne. }
  destruct (f_file r) as [l|] eqn:Hf.
  - rewrite (save_then_delete _ _ Hr).
    eexists. split; [reflexivity|]. split.
    + unfold get_object, view. cbn [st_db st_log apply_log fold_left]. rewrite Hgone. reflexivity.
    + split; [|split].
      * intros l' d E Hin. injection E as <-. apply filter_In in Hin as [_ Hin].
        cbn [fst] in Hin. unfold locator_eqb in Hin.
        rewrite Nat.eqb_refl, String.eqb_refl in Hin. discriminate.
      * exact Hkeep.
      * intros l' d Hin. apply filter_In in Hin as [Hin _]. exact Hin.
  - eexists. split; [reflexivity|]. split.
    + unfold get_object, view. cbn [st_db st_log apply_log fold_left apply_write].
      rewrite Hgone. reflexivity.
    + split; [|split].
      * intros l' d E. discriminate.
      * exact Hkeep.
      * intros l' d Hin. exact Hin.
Qed.

End DeleteClaims.

(** ** Witnesses on concrete runs *)

Lemma demo_s1_reachable :
  reachable (list Byte.byte) [] demo_update demo_hexdigest demo_s1.
Proof.
  apply (reachable_step _ _ _ _ empty_state); [apply reachable_init|].
  apply step_create.
Qed.

Lemma demo_s2_reachable :
  reachable (list Byte.byte) [] demo_update demo_hexdigest demo_s2.
Proof.
  apply (reachable_step _ _ _ _ demo_s1); [exact demo_s1_reachable|].
  apply step_create.
Qed.

Lemma demo_s1_wf : wf_state demo_s1.
Proof.
  exact (inv_wf _ (reachable_inv _ _ _ _ _ demo_s1_reachable)).
Qed.

Lemma demo_s2_wf : wf_state demo_s2.
Proof.
  exact (inv_wf _ (reachable_inv _ _ _ _ _ demo_s2_reachable)).
Qed.

Lemma empty_state_wf : wf_state empty_state.
Proof.
  exact (inv_wf _ empty_state_inv).
Qed.

Lemma demo_race_wf : wf_state (demo_race empty_state).
Proof.
  exact (inv_wf _ (concurrent_create_inv _ _ _ _ _ _ _ empty_state_inv)).
Qed.

(** C1: the first upload of "AB" into the empty store. *)
Lemma create_new_content_canonical_witness :
  wf_state empty_state /\ serializer_errors (demo_upload "a.txt" demo_ab) = [] /\
  upload_location 1 "a.txt" = Some {| loc_uuid := 1; loc_ext := "txt" |} /\
  exists s' r loc,
    demo_create (Some (demo_upload "a.txt" demo_ab)) 0 empty_state = (s', Ok (Created r)) /\
    f_content_hash r = Some (fst (compute_file_hash (list Byte.byte) [] demo_update
                                    demo_hexdigest (demo_upload "a.txt" demo_ab))) /\
    f_is_duplicate r = false /\ f_reference_count r = 1 /\ f_referenced_file r = None /\
    f_file r = Some loc /\ (forall d, ~ In (loc, d) (st_blobs empty_state)) /\
    st_blobs s' = (loc, demo_ab) :: st_blobs empty_state /\
    st_db s' = st_db empty_state ++ [r].
Proof.
  split; [exact empty_state_wf|]. split; [vm_compute; reflexivity|].
  split; [vm_compute; reflexivity|].
  apply (create_new_content_canonical (list Byte.byte) [] demo_update demo_hexdigest
           empty_state (demo_upload "a.txt" demo_ab) 0).
  - exact empty_state_wf.
  - intros r [].
  - vm_compute. reflexivity.
  - vm_compute. intros H. discriminate H.
Defined.

(** An upload that passes validation but whose extension has 83
    characters: the storage refuses the name it generates, [create] raises
    [SuspiciousFileOperation], and no row and no blob are left. *)
Lemma create_long_extension_refused :
  serializer_errors (demo_upload (String.append "a." (string_of_list_ascii (repeat "x"%char 83)))
                       demo_ab) = [] /\
  exists s',
    demo_create (Some (demo_upload (String.append "a." (string_of_list_ascii (repeat "x"%char 83)))
                         demo_ab)) 0 empty_state
    = (s', Raise SuspiciousFileOperation) /\
    st_db s' = [] /\ st_blobs s' = [].
Proof.
  split; [vm_compute; reflexivity|].
  eexists. split; [vm_compute; reflexivity|]. split; vm_compute; reflexivity.
Qed.

(** C2: the second upload of "AB" finds the record of the first. *)
Lemma create_existing_content_duplicate_witness :
  wf_state demo_s1 /\ In (demo_row demo_s1 0) (st_db demo_s1) /\
  exists s' dup,
    demo_create (Some (demo_upload "b.txt" demo_ab)) 1 demo_s1 = (s', Ok (Created dup)) /\
    f_content_hash dup = None /\ f_is_duplicate dup = true /\
    f_referenced_file dup = Some (f_id (demo_row demo_s1 0)) /\ f_reference_count dup = 1 /\
    f_file dup = f_file (demo_row demo_s1 0) /\
    st_blobs s' = st_blobs demo_s1 /\
    st_db s' = map (fun r => if Nat.eqb (f_id r) (f_id (demo_row demo_s1 0))
                             then set_refcount r (f_reference_count r + 1) else r)
                   (st_db demo_s1) ++ [dup].
Proof.
  split; [exact demo_s1_wf|]. split; [vm_compute; left; reflexivity|].
  apply (create_existing_content_duplicate (list Byte.byte) [] demo_update demo_hexdigest
           demo_s1 (demo_upload "b.txt" demo_ab) 1 (demo_row demo_s1 0)).
  - exact demo_s1_wf.
  - vm_compute. left. reflexivity.
  - vm_compute. reflexivity.
Defined.

(** C3: "b.txt" races "a.txt" with the same bytes; "a.txt" wins. *)
Lemma create_conflict_keeps_blob_witness :
  In (demo_row (demo_race empty_state) 0) (st_db (demo_race empty_state)) /\
  upload_location (S (st_uuid (demo_race empty_state))) "b.txt"
  = Some {| loc_uuid := 3; loc_ext := "txt" |} /\
  exists s' res loc,
    demo_create_with demo_race (Some (demo_upload "b.txt" demo_ab)) 11 empty_state
    = (s', res) /\
    (forall d, ~ In (loc, d) (st_blobs (demo_race empty_state))) /\
    In (loc, demo_ab) (st_blobs s') /\
    (forall r, In r (st_db s') -> f_file r <> Some loc).
Proof.
  split; [vm_compute; left; reflexivity|].
  split; [vm_compute; reflexivity|].
  apply (create_conflict_keeps_blob (list Byte.byte) [] demo_update demo_hexdigest
           demo_race empty_state (demo_upload "b.txt" demo_ab) 11
           (demo_row (demo_race empty_state) 0)).
  - exact empty_state_wf.
  - intros r [].
  - vm_compute. reflexivity.
  - exact demo_race_wf.
  - vm_compute. intros H. discriminate H.
  - vm_compute. left. reflexivity.
  - vm_compute. reflexivity.
Defined.

(** C4: the store after the two uploads of "AB". *)
Lemma reference_count_invariant_witness :
  reachable (list Byte.byte) [] demo_update demo_hexdigest demo_s2 /\
  forall r, In r (st_db demo_s2) ->
    (f_is_duplicate r = false ->
     f_reference_count r = 1 + Z.of_nat (count_duplicates (f_id r) (st_db demo_s2))) /\
    (f_is_duplicate r = true -> f_reference_count r = 1).
Proof.
  split; [exact demo_s2_reachable|].
  exact (reference_count_invariant (list Byte.byte) [] demo_update demo_hexdigest
           demo_s2 demo_s2_reachable).
Defined.

(** C5: deleting a.txt while b.txt references it. *)
Lemma destroy_protected_rejected_witness :
  f_reference_count (demo_row demo_s2 0) > 1 /\
  destroy (f_id (demo_row demo_s2 0)) demo_s2
  = (demo_s2, Raise (PermissionDenied protected_msg)).
Proof.
  split; [vm_compute; reflexivity|].
  apply (destroy_protected_rejected demo_s2 (demo_row demo_s2 0)).
  - exact demo_s2_wf.
  - vm_compute. left. reflexivity.
  - vm_compute. reflexivity.
  - vm_compute. reflexivity.
Defined.

(** C6: deleting the duplicate b.txt. *)
Lemma destroy_duplicate_decrements_witness :
  f_is_duplicate (demo_row demo_s2 1) = true /\
  exists c,
    f_referenced_file (demo_row demo_s2 1) = Some (f_id c) /\ In c (st_db demo_s2) /\
    f_is_duplicate c = false /\
    destroy (f_id (demo_row demo_s2 1)) demo_s2
    = ({| st_db := filter (fun x => negb (Nat.eqb (f_id x) (f_id (demo_row demo_s2 1))))
                     (map (fun x => if Nat.eqb (f_id x) (f_id c)
                                    then set_refcount x (f_reference_count x - 1) else x)
                          (st_db demo_s2));
          st_log := []; st_blobs := st_blobs demo_s2; st_uuid := st_uuid demo_s2;
          st_needs_rollback := false |}, Ok NoContent).
Proof.
  split; [vm_compute; reflexivity|].
  apply (destroy_duplicate_decrements (list Byte.byte) [] demo_update demo_hexdigest
           demo_s2 (demo_row demo_s2 1)).
  - exact demo_s2_reachable.
  - vm_compute. right. left. reflexivity.
  - vm_compute. reflexivity.
Defined.

(** C7: deleting a.txt when nothing references it. *)
Lemma destroy_free_canonical_witness :
  f_reference_count (demo_row demo_s1 0) <= 1 /\
  exists s',
    destroy (f_id (demo_row demo_s1 0)) demo_s1 = (s', Ok NoContent) /\
    get_object (f_id (demo_row demo_s1 0)) s' = (s', Raise NotFound) /\
    (forall l d, f_file (demo_row demo_s1 0) = Some l -> ~ In (l, d) (st_blobs s')) /\
    (forall x, In x (st_db demo_s1) -> f_id x <> f_id (demo_row demo_s1 0) ->
               In x (st_db s')) /\
    (forall l d, In (l, d) (st_blobs s') -> In (l, d) (st_blobs demo_s1)).
Proof.
  split; [vm_compute; discriminate|].
  apply (destroy_free_canonical (list Byte.byte) [] demo_update demo_hexdigest
           demo_s1 (demo_row demo_s1 0)).
  - exact demo_s1_reachable.
  - vm_compute. left. reflexivity.
  - vm_compute. reflexivity.
  - vm_compute. discriminate.
Defined.

Section ListingProofs.

Variable parse_datetime : string -> Parsed (Z * bool).
Variable parse_date : string -> Parsed Z.
Variable make_aware : Z -> Z.

Lemma hdrel_insert_desc (x r : File) (l : list File) :
  newer_first x r -> HdRel newer_first x l -> HdRel newer_first x (insert_desc r l).
Proof.
  intros Hxr Hl. destruct l as [|y l]; simpl.
  - constructor. exact Hxr.
  - destruct (f_uploaded_at y <? f_uploaded_at r); constructor; [exact Hxr|].
    inversion Hl; assumption.
Qed.

Lemma insert_desc_sorted (r : File) (l : list File) :
  Sorted newer_first l -> Sorted newer_first (insert_desc r l).
Proof.
  induction l as [|x l IH]; intros Hs; simpl.
  - repeat constructor.
  - destruct (f_uploaded_at x <? f_uploaded_at r) eqn:E.
    + constructor; [exact Hs|]. constructor. unfold newer_first.
      apply Z.ltb_lt in E. lia.
    + inversion Hs as [|? ? Hs' Hhd]; subst. constructor; [apply IH; exact Hs'|].
      apply hdrel_insert_desc; [|exact Hhd]. unfold newer_first.
      apply Z.ltb_ge in E. exact E.
Qed.

Lemma insert_desc_perm (r : File) (l : list File) :
  Permutation (insert_desc r l) (r :: l).
Proof.
  induction l as [|x l IH]; simpl; [reflexivity|].
  destruct (f_uploaded_at x <? f_uploaded_at r); [reflexivity|].
  rewrite IH. apply perm_swap.
Qed.

Lemma order_by_uploaded_desc_sorted (l : list File) :
  Sorted newer_first (order_by_uploaded_desc l).
Proof.
  induction l as [|x l IH]; simpl; [constructor|].
  apply insert_desc_sorted. exact IH.
Qed.

Lemma order_by_uploaded_desc_perm (l : list File) :
  Permutation (order_by_uploaded_desc l) l.
Proof.
  induction l as [|x l IH]; simpl; [reflexivity|].
  rewrite insert_desc_perm. apply perm_skip. exact IH.
Qed.

(** C10: whatever filters the request carries, a listing that succeeds
    returns exactly the rows the filters select, newest [uploaded_at] first. *)
Theorem list_files_newest_first (qp : QueryParams) (rows out : list File) :
  list_files parse_datetime parse_date make_aware qp rows = Ok out ->
  Sorted (fun a b => f_uploaded_at b <= f_uploaded_at a) out /\
  exists queryset,
    get_queryset parse_datetime parse_date make_aware qp = Ok queryset /\
    Permutation out (filter (qs_matches queryset) rows).
Proof.
  unfold list_files, rmap, rbind.
  destruct (get_queryset parse_datetime parse_date make_aware qp) as [queryset|e];
    intros H; [|discriminate].
  injection H as <-. split.
  - apply order_by_uploaded_desc_sorted.
  - exists queryset. split; [reflexivity|]. apply order_by_uploaded_desc_perm.
Qed.



End ListingProofs.



(** C10: listing the two-row store with a size filter. *)
Lemma list_files_newest_first_witness :
  demo_list_files [("size_min", "1")] (st_db demo_s2)
  = Ok (order_by_uploaded_desc (st_db demo_s2)) /\
  Sorted (fun a b => f_uploaded_at b <= f_uploaded_at a)
         (order_by_uploaded_desc (st_db demo_s2)) /\
  exists queryset,
    get_queryset demo_parse_datetime demo_parse_date demo_make_aware
      [("size_min", "1")] = Ok queryset /\
    Permutation (order_by_uploaded_desc (st_db demo_s2))
                (filter (qs_matches queryset) (st_db demo_s2)).
Proof.
  split; [vm_compute; reflexivity|].
  apply (list_files_newest_first demo_parse_datetime demo_parse_date demo_make_aware
           [("size_min", "1")] (st_db demo_s2)).
  vm_compute. reflexivity.
Defined.

Section StorageProofs.

Variable HashState : Type.
Variable sha256_init : HashState.
Variable sha256_update : HashState -> list Byte.byte -> HashState.
Variable hexdigest : HashState -> string.

Local Abbreviation SI := (storage_inv HashState sha256_init sha256_update hexdigest).
Local Abbreviation dig := (digest_of HashState sha256_init sha256_update hexdigest).

(** The digest depends on the bytes only. *)
Lemma compute_file_hash_data_only (f g : UploadedFile) :
  uf_data f = uf_data g ->
  fst (compute_file_hash HashState sha256_init sha256_update hexdigest f)
  = fst (compute_file_hash HashState sha256_init sha256_update hexdigest g).
Proof.
  intros Hd. unfold compute_file_hash, compute_file_hash_sized, tell.
  pose proof (hash_loop_content_only HashState sha256_update
                (S (List.length (uf_data (seek f 0)))) default_chunk_size sha256_init
                (seek f 0) (seek g 0) Hd eq_refl) as H.
  replace (List.length (uf_data (seek g 0))) with (List.length (uf_data (seek f 0)))
    by (unfold seek; simpl; rewrite Hd; reflexivity).
  destruct (hash_loop HashState sha256_update (S (List.length (uf_data (seek f 0))))
              default_chunk_size sha256_init (seek f 0)) as [hf ff].
  destruct (hash_loop HashState sha256_update (S (List.length (uf_data (seek f 0))))
              default_chunk_size sha256_init (seek g 0)) as [hg fg].
  simpl in H |- *. congruence.
Qed.

Lemma digest_of_upload (f : UploadedFile) :
  fst (compute_file_hash HashState sha256_init sha256_update hexdigest f) = dig (uf_data f).
Proof.
  unfold digest_of. apply compute_file_hash_data_only. reflexivity.
Qed.

Lemma in_refcount_update (db : list File) (k : nat) (d : Z) (x : File) :
  In x (apply_write db (WUpdateRefcount k d)) ->
  exists y, In y db /\ f_id x = f_id y /\ f_file x = f_file y /\
            f_content_hash x = f_content_hash y /\ f_is_duplicate x = f_is_duplicate y /\
            f_referenced_file x = f_referenced_file y.
Proof.
  cbn [apply_write]. intros Hx. apply in_map_iff in Hx as (y & <- & Hy).
  exists y. split; [exact Hy|]. destruct (Nat.eqb (f_id y) k); repeat split.
Qed.

Lemma in_delete (db : list File) (k : nat) (x : File) :
  In x (filter (fun r => negb (Nat.eqb (f_id r) k)) db) -> In x db /\ f_id x <> k.
Proof.
  intros Hx. apply filter_In in Hx as [Hx Hne]. split; [exact Hx|].
  intros E. rewrite E, Nat.eqb_refl in Hne. discriminate.
Qed.

Lemma locator_eqb_eq (a b : Locator) : locator_eqb a b = true -> a = b.
Proof.
  unfold locator_eqb. intros H. apply andb_true_iff in H as [H1 H2].
  apply Nat.eqb_eq in H1. apply String.eqb_eq in H2.
  destruct a, b; simpl in *; congruence.
Qed.

Lemma si_add_duplicate (s : State) (existing : File) (h : string)
    (name ty : string) (size t : Z) :
  dedup_inv s -> SI s -> In existing (st_db s) -> f_content_hash existing = Some h ->
  let dup := {| f_id := st_uuid s; f_file := f_file existing;
                f_original_filename := name; f_file_type := ty;
                f_size := size; f_uploaded_at := t; f_content_hash := None;
                f_is_duplicate := true; f_reference_count := 1;
                f_referenced_file := Some (f_id existing) |} in
  SI {| st_db := apply_write (st_db s) (WUpdateRefcount (f_id existing) 1) ++ [dup];
        st_log := []; st_blobs := st_blobs s; st_uuid := S (st_uuid s);
        st_needs_rollback := false |}.
Proof.
  intros Hinv [Hu Hc Hd] Hex Hh dup.
  pose proof (wf_ids_fresh s (inv_wf s Hinv)) as Hids.
  pose proof (wf_ids_unique s (inv_wf s Hinv)) as Hnodup.
  constructor; cbn [st_db st_blobs].
  - exact Hu.
  - intros c l Hc' Hcd Hcf. apply in_app_or in Hc' as [Hc' | [<- | []]]; [|discriminate].
    destruct (in_refcount_update _ _ _ _ Hc') as (y & Hy & _ & Ef & Eh & Ed & _).
    rewrite Ef in Hcf. rewrite Ed in Hcd. rewrite Eh. exact (Hc y l Hy Hcd Hcf).
  - intros r c Hr Hrd Hrc Hc'.
    apply in_app_or in Hr as [Hr | [<- | []]]; apply in_app_or in Hc' as [Hc' | [<- | []]].
    + destruct (in_refcount_update _ _ _ _ Hr) as (yr & Hyr & _ & Efr & _ & Edr & Err).
      destruct (in_refcount_update _ _ _ _ Hc') as (yc & Hyc & Eic & Efc & _).
      rewrite Efr, Efc. rewrite Edr in Hrd. rewrite Err, Eic in Hrc. exact (Hd yr yc Hyr Hrd Hrc Hyc).
    + destruct (in_refcount_update _ _ _ _ Hr) as (yr & Hyr & _ & _ & _ & Edr & Err).
      rewrite Edr in Hrd. rewrite Err in Hrc.
      destruct (inv_duplicate s Hinv yr Hyr Hrd) as (_ & _ & c0 & Hc0 & Hc0in & _).
      rewrite Hc0 in Hrc. injection Hrc as E. specialize (Hids c0 Hc0in). simpl in E. lia.
    + destruct (in_refcount_update _ _ _ _ Hc') as (yc & Hyc & Eic & Efc & _).
      simpl in Hrc. injection Hrc as E. rewrite Eic in E.
      rewrite Efc. rewrite <- (same_id_same_row (st_db s) existing yc Hnodup Hex Hyc E).
      reflexivity.
    + simpl in Hrc. injection Hrc as E. specialize (Hids existing Hex). simpl in E. lia.
Qed.

Lemma si_add_canonical (s : State) (c : File) (loc : Locator) (d : list Byte.byte) :
  dedup_inv s -> SI s ->
  f_id c = st_uuid s -> f_is_duplicate c = false -> f_file c = Some loc ->
  f_content_hash c = Some (dig d) -> loc_uuid loc = S (st_uuid s) ->
  SI {| st_db := st_db s ++ [c]; st_log := []; st_blobs := (loc, d) :: st_blobs s;
        st_uuid := S (S (st_uuid s)); st_needs_rollback := false |}.
Proof.
  intros Hinv [Hu Hc Hd] Hid Hcd Hcf Hch Hloc.
  pose proof (wf_ids_fresh s (inv_wf s Hinv)) as Hids.
  pose proof (wf_blobs_fresh s (inv_wf s Hinv)) as Hbl.
  constructor; cbn [st_db st_blobs].
  - intros l d1 d2 [E1 | H1] [E2 | H2].
    + congruence.
    + injection E1 as <- _. specialize (Hbl _ _ H2). lia.
    + injection E2 as <- _. specialize (Hbl _ _ H1). lia.
    + exact (Hu l d1 d2 H1 H2).
  - intros c' l Hc' Hc'd Hc'f. apply in_app_or in Hc' as [Hc' | [<- | []]].
    + destruct (Hc c' l Hc' Hc'd Hc'f) as (d' & Hin & Hh). exists d'. split; [right; exact Hin | exact Hh].
    + rewrite Hcf in Hc'f. injection Hc'f as <-. exists d. split; [left; reflexivity | exact Hch].
  - intros r c' Hr Hrd Hrc Hc'.
    apply in_app_or in Hr as [Hr | [<- | []]]; [|congruence].
    apply in_app_or in Hc' as [Hc' | [<- | []]]; [exact (Hd r c' Hr Hrd Hrc Hc')|].
    destruct (inv_duplicate s Hinv r Hr Hrd) as (_ & _ & c0 & Hc0 & Hc0in & _).
    rewrite Hc0 in Hrc. injection Hrc as E. specialize (Hids c0 Hc0in). lia.
Qed.

Lemma si_store_blob (s : State) (loc : Locator) (d : list Byte.byte) :
  dedup_inv s -> SI s -> loc_uuid loc = S (st_uuid s) ->
  SI {| st_db := st_db s; st_log := []; st_blobs := (loc, d) :: st_blobs s;
        st_uuid := S (S (st_uuid s)); st_needs_rollback := false |}.
Proof.
  intros Hinv [Hu Hc Hd] Hloc.
  pose proof (wf_blobs_fresh s (inv_wf s Hinv)) as Hbl.
  constructor; cbn [st_db st_blobs].
  - intros l d1 d2 [E1 | H1] [E2 | H2].
    + congruence.
    + injection E1 as <- _. specialize (Hbl _ _ H2). lia.
    + injection E2 as <- _. specialize (Hbl _ _ H1). lia.
    + exact (Hu l d1 d2 H1 H2).
  - intros c l Hc' Hcd Hcf. destruct (Hc c l Hc' Hcd Hcf) as (d' & Hin & Hh).
    exists d'. split; [right; exact Hin | exact Hh].
  - exact Hd.
Qed.

Lemma si_rollback (s : State) :
  dedup_inv s -> SI s ->
  SI {| st_db := st_db s; st_log := []; st_blobs := st_blobs s;
        st_uuid := st_uuid s; st_needs_rollback := false |}.
Proof.
  intros _ [Hu Hc Hd]. constructor; assumption.
Qed.

Lemma si_skip_uuids (s : State) :
  SI s ->
  SI {| st_db := st_db s; st_log := []; st_blobs := st_blobs s;
        st_uuid := S (S (st_uuid s)); st_needs_rollback := false |}.
Proof.
  intros [Hu Hc Hd]. constructor; assumption.
Qed.

Lemma si_delete_duplicate (s : State) (r c : File) :
  SI s ->
  SI {| st_db := apply_write (apply_write (st_db s) (WUpdateRefcount (f_id c) (-1)))
                             (WDelete (f_id r));
        st_log := []; st_blobs := st_blobs s; st_uuid := st_uuid s;
        st_needs_rollback := false |}.
Proof.
  intros [Hu Hc Hd]. constructor; cbn [st_db st_blobs].
  - exact Hu.
  - intros c' l Hc' Hcd Hcf. cbn [apply_write] in Hc'. apply in_delete in Hc' as [Hc' _].
    destruct (in_refcount_update _ _ _ _ Hc') as (y & Hy & _ & Ef & Eh & Ed & _).
    rewrite Ef in Hcf. rewrite Ed in Hcd. rewrite Eh. exact (Hc y l Hy Hcd Hcf).
  - intros r' c' Hr Hrd Hrc Hc'. cbn [apply_write] in Hr, Hc'.
    apply in_delete in Hr as [Hr _]. apply in_delete in Hc' as [Hc' _].
    destruct (in_refcount_update _ _ _ _ Hr) as (yr & Hyr & _ & Efr & _ & Edr & Err).
    destruct (in_refcount_update _ _ _ _ Hc') as (yc & Hyc & Eic & Efc & _).
    rewrite Efr, Efc. rewrite Edr in Hrd. rewrite Err, Eic in Hrc.
    exact (Hd yr yc Hyr Hrd Hrc Hyc).
Qed.

Lemma si_delete_canonical (s : State) (r : File) (blobs' : list (Locator * list Byte.byte)) :
  dedup_inv s -> SI s -> In r (st_db s) -> f_is_duplicate r = false ->
  (forall l d, In (l, d) blobs' -> In (l, d) (st_blobs s)) ->
  (forall l d, In (l, d) (st_blobs s) -> f_file r <> Some l -> In (l, d) blobs') ->
  SI {| st_db := filter (fun x => negb (Nat.eqb (f_id x) (f_id r))) (st_db s);
        st_log := []; st_blobs := blobs'; st_uuid := st_uuid s;
        st_needs_rollback := false |}.
Proof.
  intros Hinv [Hu Hc Hd] Hr Hrd Hsub Hkeep.
  pose proof (wf_hash_unique s (inv_wf s Hinv)) as Huniq.
  constructor; cbn [st_db st_blobs].
  - intros l d1 d2 H1 H2. exact (Hu l d1 d2 (Hsub _ _ H1) (Hsub _ _ H2)).
  - intros c l Hc' Hcd Hcf. apply in_delete in Hc' as [Hc' Hne].
    destruct (Hc c l Hc' Hcd Hcf) as (d & Hin & Hh). exists d. split; [|exact Hh].
    apply Hkeep; [exact Hin|]. intros Hrf.
    destruct (Hc r l Hr Hrd Hrf) as (d' & Hin' & Hh').
    rewrite (Hu l d d' Hin Hin') in Hh.
    apply Hne. f_equal. exact (Huniq c r _ Hc' Hr Hh Hh').
  - intros r' c' Hr' Hrd' Hrc Hc'. apply in_delete in Hr' as [Hr' _].
    apply in_delete in Hc' as [Hc' _]. exact (Hd r' c' Hr' Hrd' Hrc Hc').
Qed.

(** An upload keeps both invariants when the concurrent request does. *)
Lemma create_with_full (interfere : State -> State) (s : State)
    (file_obj : option UploadedFile) (now : Z) :
  (forall s0, dedup_inv s0 -> SI s0 -> dedup_inv (interfere s0) /\ SI (interfere s0)) ->
  dedup_inv s -> SI s ->
  dedup_inv (fst (create_with HashState sha256_init sha256_update hexdigest
                    interfere file_obj now s)) /\
  SI (fst (create_with HashState sha256_init sha256_update hexdigest
             interfere file_obj now s)).
Proof.
  intros Hi Hinv Hsi.
  destruct file_obj as [f|]; [|split; assumption].
  pose proof (inv_wf s Hinv) as Hwf.
  set (h := fst (compute_file_hash HashState sha256_init sha256_update hexdigest f)).
  destruct (existsb (hash_eqb h) (st_db s)) eqn:Hex.
  - apply existsb_exists in Hex as (existing & Hin & Hh).
    assert (Hh' : f_content_hash existing = Some h).
    { unfold hash_eqb in Hh. destruct (f_content_hash existing); [|discriminate].
      apply String.eqb_eq in Hh. congruence. }
    rewrite (create_with_found HashState sha256_init sha256_update hexdigest
               interfere s f now existing Hwf Hin Hh').
    split.
    + apply (inv_add_duplicate s existing h); assumption.
    + apply (si_add_duplicate s existing h); assumption.
  - assert (Hnone : forall r, In r (st_db s) -> f_content_hash r <> Some h).
    { intros r Hr. apply hash_eqb_false. apply (existsb_all_false_inv _ _ Hex r Hr). }
    destruct (Hi s Hinv Hsi) as [Hinv1 Hsi1].
    rewrite (create_with_not_found HashState sha256_init sha256_update hexdigest
               interfere s f now Hwf Hnone (inv_wf _ Hinv1)).
    destruct (serializer_errors f) as [|e errs].
    + fold h.
      destruct (upload_location (S (st_uuid (interfere s))) (uf_name f)) as [loc|] eqn:El.
      2:{ split; [apply inv_skip_uuids; exact Hinv1 | apply si_skip_uuids; exact Hsi1]. }
      pose proof (upload_location_uuid _ _ _ El) as Hu.
      destruct (existsb (fun x => hash_eqb h x) (st_db (interfere s))) eqn:Hex1.
      * split.
        -- apply (inv_store_blob (interfere s)); [exact Hinv1 | exact Hu].
        -- apply (si_store_blob (interfere s)); [exact Hinv1 | exact Hsi1 | exact Hu].
      * split.
        -- apply (inv_add_canonical (interfere s) _ h loc); try reflexivity;
             first [exact Hinv1 | exact Hex1 | exact Hu].
        -- apply (si_add_canonical _ _ loc); try reflexivity; try assumption.
           cbn [f_content_hash]. f_equal. apply digest_of_upload.
    + split; [apply inv_rollback; exact Hinv1 | apply si_rollback; assumption].
Qed.

Lemma concurrent_create_full (other : option UploadedFile) (t : Z) (s : State) :
  dedup_inv s -> SI s ->
  dedup_inv (concurrent_create HashState sha256_init sha256_update hexdigest other t s) /\
  SI (concurrent_create HashState sha256_init sha256_update hexdigest other t s).
Proof.
  intros Hinv Hsi.
  destruct (create_with_full no_interference s other t (fun s0 H1 H2 => conj H1 H2) Hinv Hsi)
    as [Hinv' Hsi'].
  unfold concurrent_create.
  rewrite (wf_log s (inv_wf s Hinv)), (wf_no_rollback s (inv_wf s Hinv)).
  rewrite <- (wf_log _ (inv_wf _ Hinv')), <- (wf_no_rollback _ (inv_wf _ Hinv')).
  destruct (fst (create_with HashState sha256_init sha256_update hexdigest
                   no_interference other t s)).
  split; assumption.
Qed.

Lemma destroy_full (id : nat) (s : State) :
  dedup_inv s -> SI s -> SI (fst (destroy id s)).
Proof.
  intros Hinv Hsi. pose proof (inv_wf s Hinv) as Hwf.
  assert (Hview : view s = st_db s)
    by (unfold view; rewrite (wf_log s Hwf); reflexivity).
  destruct (filter (fun x => Nat.eqb (f_id x) id) (st_db s)) as [|r [|r2 rest]] eqn:Hf.
  - unfold destroy, get_object, bind. rewrite Hview, Hf. exact Hsi.
  - assert (Hr : In r (filter (fun x => Nat.eqb (f_id x) id) (st_db s)))
      by (rewrite Hf; left; reflexivity).
    apply filter_In in Hr as [Hr Hid]. apply Nat.eqb_eq in Hid. subst id.
    destruct (f_is_duplicate r) eqn:Hrd.
    + destruct (inv_duplicate s Hinv r Hr Hrd) as (_ & _ & c & Hc & Hcin & Hcc).
      rewrite (destroy_duplicate_path s r c Hwf Hr Hrd Hc Hcin
                 (no_reference_to_duplicate s r Hinv Hr Hrd)).
      apply si_delete_duplicate. exact Hsi.
    + destruct (Z.le_gt_cases (f_reference_count r) 1) as [Hle | Hgt].
      * rewrite (destroy_free_path s r Hwf Hr Hrd Hle
                   (no_reference_to_free s r Hinv Hr Hrd Hle)).
        destruct (f_file r) as [l|] eqn:Hrf.
        -- cbn [fst]. rewrite (save_then_delete _ _ Hr).
           apply si_delete_canonical; try assumption.
           ++ intros l0 d Hin. apply filter_In in Hin as [Hin _]. exact Hin.
           ++ intros l0 d Hin Hne. apply filter_In. split; [exact Hin|].
              apply negb_true_iff. cbn [fst].
              destruct (locator_eqb l0 l) eqn:E; [|reflexivity].
              apply locator_eqb_eq in E. subst l0. contradiction.
        -- cbn [fst]. apply si_delete_canonical; auto.
      * rewrite (destroy_protected_path s r) by (first [rewrite Hview; exact Hf | assumption | lia]).
        exact Hsi.
  - unfold destroy, get_object, bind. rewrite Hview, Hf. exact Hsi.
Qed.

Lemma empty_state_si : SI empty_state.
Proof.
  constructor; cbn [st_db st_blobs empty_state]; intros; contradiction.
Qed.

Lemma reachable_full (s : State) :
  reachable HashState sha256_init sha256_update hexdigest s -> dedup_inv s /\ SI s.
Proof.
  induction 1 as [|s s' _ [IHi IHs] Hstep].
  - split; [exact empty_state_inv | exact empty_state_si].
  - destruct Hstep.
    + apply create_with_full; [intros s0 H1 H2; split; assumption | exact IHi | exact IHs].
    + apply create_with_full; [apply concurrent_create_full | exact IHi | exact IHs].
    + split; [apply destroy_inv; exact IHi | apply destroy_full; assumption].
Qed.

End StorageProofs.

Section OrphanProofs.

Variable HashState : Type.
Variable sha256_init : HashState.
Variable sha256_update : HashState -> list Byte.byte -> HashState.
Variable hexdigest : HashState -> string.

Local Abbreviation SI := (storage_inv HashState sha256_init sha256_update hexdigest).

Lemma in_refcount_update_intro (db : list File) (k : nat) (d : Z) (y : File) :
  In y db ->
  exists x, In x (apply_write db (WUpdateRefcount k d)) /\ f_id x = f_id y /\ f_file x = f_file y.
Proof.
  intros Hy. exists (if Nat.eqb (f_id y) k then set_refcount y (f_reference_count y + d) else y).
  cbn [apply_write]. split.
  - apply in_map_iff. exists y. split; [reflexivity | exact Hy].
  - destruct (Nat.eqb (f_id y) k); split; reflexivity.
Qed.

Lemma keep_other (db : list File) (r x : File) :
  NoDup (map f_id db) -> In r db -> In x db -> x <> r ->
  In x (filter (fun y => negb (Nat.eqb (f_id y) (f_id r))) db).
Proof.
  intros Hnodup Hr Hx Hne. apply filter_In. split; [exact Hx|].
  apply negb_true_iff. apply Nat.eqb_neq. intros E.
  exact (Hne (same_id_same_row db x r Hnodup Hx Hr E)).
Qed.

Lemma hash_eqb_other (h : string) (r : File) :
  f_content_hash r <> Some h -> hash_eqb h r = false.
Proof.
  unfold hash_eqb. destruct (f_content_hash r) as [h'|]; [|reflexivity].
  intros Hne. apply String.eqb_neq. congruence.
Qed.

Lemma seq_step_step (s s' : State) :
  seq_step HashState sha256_init sha256_update hexdigest s s' ->
  step HashState sha256_init sha256_update hexdigest s s'.
Proof.
  destruct 1; [apply step_create | apply step_destroy].
Qed.

Lemma seq_reachable_reachable (s : State) :
  seq_reachable HashState sha256_init sha256_update hexdigest s ->
  reachable HashState sha256_init sha256_update hexdigest s.
Proof.
  induction 1; [apply reachable_init|].
  eapply reachable_step; [eassumption | apply seq_step_step; assumption].
Qed.

Lemma create_no_orphan (file_obj : option UploadedFile) (now : Z) (s : State) :
  dedup_inv s -> no_orphan_blobs s ->
  no_orphan_blobs (fst (create HashState sha256_init sha256_update hexdigest file_obj now s)).
Proof.
  intros Hinv Hno. pose proof (inv_wf s Hinv) as Hwf.
  destruct file_obj as [f|]; [|exact Hno].
  unfold create.
  set (h := fst (compute_file_hash HashState sha256_init sha256_update hexdigest f)).
  destruct (existsb (hash_eqb h) (st_db s)) eqn:Hex.
  - apply existsb_exists in Hex as (existing & Hin & Hh).
    assert (Hh' : f_content_hash existing = Some h).
    { unfold hash_eqb in Hh. destruct (f_content_hash existing); [|discriminate].
      apply String.eqb_eq in Hh. congruence. }
    rewrite (create_with_found HashState sha256_init sha256_update hexdigest
               no_interference s f now existing Hwf Hin Hh').
    intros l d Hb. cbn [st_blobs st_db] in *.
    destruct (Hno l d Hb) as (y & Hy & Hyf).
    destruct (in_refcount_update_intro (st_db s) (f_id existing) 1 y Hy) as (x & Hx & _ & Exf).
    exists x. split; [apply in_or_app; left; exact Hx | congruence].
  - assert (Hnone : forall r, In r (st_db s) -> f_content_hash r <> Some h).
    { intros r Hr. apply hash_eqb_false. apply (existsb_all_false_inv _ _ Hex r Hr). }
    rewrite (create_with_not_found HashState sha256_init sha256_update hexdigest
               no_interference s f now Hwf Hnone Hwf).
    unfold no_interference. fold h.
    destruct (serializer_errors f) as [|e errs].
    + destruct (upload_location (S (st_uuid s)) (uf_name f)) as [loc|]; [|exact Hno].
      rewrite existsb_all_false
        by (intros x Hx; apply hash_eqb_other; exact (Hnone x Hx)).
      intros l d [E | Hb]; cbn [st_blobs st_db] in *.
      * injection E as <- _. eexists. split; [apply in_or_app; right; left; reflexivity|].
        reflexivity.
      * destruct (Hno l d Hb) as (y & Hy & Hyf). exists y.
        split; [apply in_or_app; left; exact Hy | exact Hyf].
    + exact Hno.
Qed.

Lemma destroy_no_orphan (id : nat) (s : State) :
  dedup_inv s -> SI s -> no_orphan_blobs s -> no_orphan_blobs (fst (destroy id s)).
Proof.
  intros Hinv Hsi Hno. pose proof (inv_wf s Hinv) as Hwf.
  pose proof (wf_ids_unique s Hwf) as Hnodup.
  assert (Hview : view s = st_db s)
    by (unfold view; rewrite (wf_log s Hwf); reflexivity).
  destruct (filter (fun x => Nat.eqb (f_id x) id) (st_db s)) as [|r [|r2 rest]] eqn:Hf.
  - unfold destroy, get_object, bind. rewrite Hview, Hf. exact Hno.
  - assert (Hr : In r (filter (fun x => Nat.eqb (f_id x) id) (st_db s)))
      by (rewrite Hf; left; reflexivity).
    apply filter_In in Hr as [Hr Hid]. apply Nat.eqb_eq in Hid. subst id.
    destruct (f_is_duplicate r) eqn:Hrd.
    + destruct (inv_duplicate s Hinv r Hr Hrd) as (_ & _ & c & Hc & Hcin & Hcc).
      rewrite (destroy_duplicate_path s r c Hwf Hr Hrd Hc Hcin
                 (no_reference_to_duplicate s r Hinv Hr Hrd)).
      assert (Hrc : f_file r = f_file c)
        by exact (si_dup_file _ _ _ _ s Hsi r c Hr Hrd Hc Hcin).
      intros l d Hb. cbn [st_blobs st_db apply_write] in *.
      destruct (Hno l d Hb) as (y & Hy & Hyf).
      assert (Hkeep : exists z, In z (st_db s) /\ z <> r /\ f_file z = Some l).
      { destruct (Nat.eq_dec (f_id y) (f_id r)) as [E | Hne].
        - rewrite (same_id_same_row _ y r Hnodup Hy Hr E) in Hyf.
          exists c. split; [exact Hcin|]. split; [intros ->; congruence | congruence].
        - exists y. split; [exact Hy|]. split; [intros ->; exact (Hne eq_refl) | exact Hyf]. }
      destruct Hkeep as (z & Hz & Hzr & Hzf).
      destruct (in_refcount_update_intro (st_db s) (f_id c) (-1) z Hz) as (x & Hx & Exi & Exf).
      exists x. split; [|congruence].
      apply filter_In. split; [exact Hx|]. apply negb_true_iff. apply Nat.eqb_neq.
      rewrite Exi. intros E. exact (Hzr (same_id_same_row _ z r Hnodup Hz Hr E)).
    + destruct (Z.le_gt_cases (f_reference_count r) 1) as [Hle | Hgt].
      * rewrite (destroy_free_path s r Hwf Hr Hrd Hle
                   (no_reference_to_free s r Hinv Hr Hrd Hle)).
        destruct (f_file r) as [l0|] eqn:Hrf.
        -- cbn [fst]. rewrite (save_then_delete _ _ Hr).
           intros l d Hb. cbn [st_blobs st_db] in *.
           apply filter_In in Hb as [Hb Hl]. destruct (Hno l d Hb) as (y & Hy & Hyf).
           exists y. split; [|exact Hyf]. apply keep_other; try assumption.
           intros ->. rewrite Hrf in Hyf. injection Hyf as ->.
           cbn [fst] in Hl. unfold locator_eqb in Hl.
           rewrite Nat.eqb_refl, String.eqb_refl in Hl. discriminate.
        -- cbn [fst]. intros l d Hb. cbn [st_blobs st_db apply_write] in *.
           destruct (Hno l d Hb) as (y & Hy & Hyf).
           exists y. split; [|exact Hyf]. apply keep_other; try assumption.
           intros ->. congruence.
      * rewrite (destroy_protected_path s r) by (first [rewrite Hview; exact Hf | assumption | lia]).
        exact Hno.
  - unfold destroy, get_object, bind. rewrite Hview, Hf. exact Hno.
Qed.

End OrphanProofs.

Section StorageExtras.

Variable HashState : Type.
Variable sha256_init : HashState.
Variable sha256_update : HashState -> list Byte.byte -> HashState.
Variable hexdigest : HashState -> string.

Local Abbreviation dig := (digest_of HashState sha256_init sha256_update hexdigest).

(** X1 (create, destroy): in every state reached by uploads (each possibly
    racing another upload) and by deletes that run alone, every record that
    names a file can read it back: storage holds bytes under that name, and
    they hash to the content hash of the canonical record the name belongs
    to (the record itself, or the record a duplicate references). A delete
    that overlaps another request is outside [reachable]. *)
Theorem reachable_file_has_blob (s : State) (r : File) (l : Locator) :
  reachable HashState sha256_init sha256_update hexdigest s ->
  In r (st_db s) -> f_file r = Some l ->
  exists c d, In c (st_db s) /\ f_is_duplicate c = false /\ f_file c = Some l /\
    (c = r \/ f_referenced_file r = Some (f_id c)) /\
    In (l, d) (st_blobs s) /\ f_content_hash c = Some (dig d).
Proof.
  intros Hreach Hr Hl.
  destruct (reachable_full _ _ _ _ s Hreach) as [Hinv [Hu Hc Hd]].
  destruct (f_is_duplicate r) eqn:Hrd.
  - destruct (inv_duplicate s Hinv r Hr Hrd) as (_ & _ & c & Href & Hcin & Hcd).
    assert (Hcl : f_file c = Some l) by (rewrite <- (Hd r c Hr Hrd Href Hcin); exact Hl).
    destruct (Hc c l Hcin Hcd Hcl) as (d & Hb & Hh).
    exists c, d. repeat split; auto.
  - destruct (Hc r l Hr Hrd Hl) as (d & Hb & Hh).
    exists r, d. repeat split; auto.
Qed.

(** X2 (create, destroy): between requests, storage never holds two
    different contents under one name, races included. *)
Theorem reachable_blob_names_unique (s : State) (l : Locator) (d1 d2 : list Byte.byte) :
  reachable HashState sha256_init sha256_update hexdigest s ->
  In (l, d1) (st_blobs s) -> In (l, d2) (st_blobs s) -> d1 = d2.
Proof.
  intros Hreach H1 H2.
  destruct (reachable_full _ _ _ _ s Hreach) as [_ [Hu _ _]].
  exact (Hu l d1 d2 H1 H2).
Qed.

Lemma seq_reachable_no_orphan (s : State) :
  seq_reachable HashState sha256_init sha256_update hexdigest s -> no_orphan_blobs s.
Proof.
  intros Hseq. induction Hseq as [|s s' Hs IH Hstep].
  - intros l d [].
  - destruct (reachable_full _ _ _ _ s (seq_reachable_reachable _ _ _ _ s Hs))
      as [Hinv Hsi].
    destruct Hstep.
    + apply create_no_orphan; assumption.
    + apply (destroy_no_orphan HashState sha256_init sha256_update hexdigest); assumption.
Qed.

Lemma canonical_owner (s : State) (x : File) (l : Locator) :
  dedup_inv s -> storage_inv HashState sha256_init sha256_update hexdigest s ->
  In x (st_db s) -> f_file x = Some l ->
  exists c, In c (st_db s) /\ f_is_duplicate c = false /\ f_file c = Some l.
Proof.
  intros Hinv [_ _ Hd] Hx Hl. destruct (f_is_duplicate x) eqn:Hxd.
  - destruct (inv_duplicate s Hinv x Hx Hxd) as (_ & _ & c & Href & Hcin & Hcd).
    exists c. split; [exact Hcin|]. split; [exact Hcd|].
    rewrite <- (Hd x c Hx Hxd Href Hcin). exact Hl.
  - exists x. auto.
Qed.

(** X3 (create, destroy): as long as uploads do not race, every blob in
    storage belongs to some record: a duplicate upload stores nothing, a
    rejected upload stores nothing, and deleting the last record of a
    content removes its blob. *)
Theorem sequential_no_orphan_blobs (s : State) :
  seq_reachable HashState sha256_init sha256_update hexdigest s -> no_orphan_blobs s.
Proof.
  exact (seq_reachable_no_orphan s).
Qed.

(** X15 (create, destroy): in every state reached by uploads (each possibly
    racing another upload) and by deletes that run alone, every reference
    count is at least 1, so the [F('reference_count') - 1] of a delete that
    runs alone never takes the [PositiveIntegerField] below zero. Two
    overlapping deletes of one duplicate are outside [reachable]. *)
Theorem reachable_reference_count_positive (s : State) (r : File) :
  reachable HashState sha256_init sha256_update hexdigest s ->
  In r (st_db s) -> 1 <= f_reference_count r.
Proof.
  intros Hreach Hr.
  destruct (reachable_full _ _ _ _ s Hreach) as [Hinv _].
  destruct (f_is_duplicate r) eqn:Hrd.
  - destruct (inv_duplicate s Hinv r Hr Hrd) as (-> & _). lia.
  - destruct (inv_canonical s Hinv r Hr Hrd) as (_ & ->). lia.
Qed.

(** X16 (create, destroy): as long as uploads do not race, storage never
    holds the same content twice: two stored blobs with equal bytes are the
    same name. *)
Theorem sequential_content_stored_once (s : State) (l1 l2 : Locator) (d : list Byte.byte) :
  seq_reachable HashState sha256_init sha256_update hexdigest s ->
  In (l1, d) (st_blobs s) -> In (l2, d) (st_blobs s) -> l1 = l2.
Proof.
  intros Hseq H1 H2.
  pose proof (seq_reachable_no_orphan s Hseq) as Hno.
  destruct (reachable_full _ _ _ _ s (seq_reachable_reachable _ _ _ _ s Hseq))
    as [Hinv Hsi].
  destruct (Hno l1 d H1) as (x1 & Hx1 & Hf1).
  destruct (Hno l2 d H2) as (x2 & Hx2 & Hf2).
  destruct (canonical_owner s x1 l1 Hinv Hsi Hx1 Hf1) as (c1 & Hc1 & Hd1 & Hcf1).
  destruct (canonical_owner s x2 l2 Hinv Hsi Hx2 Hf2) as (c2 & Hc2 & Hd2 & Hcf2).
  destruct Hsi as [Hu Hc _].
  destruct (Hc c1 l1 Hc1 Hd1 Hcf1) as (e1 & He1 & Hh1).
  destruct (Hc c2 l2 Hc2 Hd2 Hcf2) as (e2 & He2 & Hh2).
  rewrite (Hu l1 e1 d He1 H1) in Hh1. rewrite (Hu l2 e2 d He2 H2) in Hh2.
  rewrite (wf_hash_unique s (inv_wf s Hinv) c1 c2 _ Hc1 Hc2 Hh1 Hh2) in Hcf1.
  congruence.
Qed.

End StorageExtras.

Lemma demo_s2_seq_reachable :
  seq_reachable (list Byte.byte) [] demo_update demo_hexdigest demo_s2.
Proof.
  apply (seq_reachable_step _ _ _ _ demo_s1).
  - apply (seq_reachable_step _ _ _ _ empty_state); [apply seq_reachable_init|].
    exact (seq_create (list Byte.byte) [] demo_update demo_hexdigest
             (Some (demo_upload "a.txt" demo_ab)) 0 empty_state).
  - exact (seq_create (list Byte.byte) [] demo_update demo_hexdigest
             (Some (demo_upload "b.txt" demo_ab)) 1 demo_s1).
Qed.

Lemma reachable_file_has_blob_witness :
  exists c d, In c (st_db demo_s2) /\ f_is_duplicate c = false /\
    f_file c = Some {| loc_uuid := 1; loc_ext := "txt" |} /\
    (c = demo_row demo_s2 1 \/ f_referenced_file (demo_row demo_s2 1) = Some (f_id c)) /\
    In ({| loc_uuid := 1; loc_ext := "txt" |}, d) (st_blobs demo_s2) /\
    f_content_hash c = Some (digest_of (list Byte.byte) [] demo_update demo_hexdigest d).
Proof.
  apply (reachable_file_has_blob (list Byte.byte) [] demo_update demo_hexdigest
           demo_s2 (demo_row demo_s2 1)).
  - exact demo_s2_reachable.
  - vm_compute. right. left. reflexivity.
  - vm_compute. reflexivity.
Defined.

Lemma reachable_blob_names_unique_witness :
  demo_ab = demo_ab.
Proof.
  apply (reachable_blob_names_unique (list Byte.byte) [] demo_update demo_hexdigest
           demo_s2 {| loc_uuid := 1; loc_ext := "txt" |}).
  - exact demo_s2_reachable.
  - vm_compute. left. reflexivity.
  - vm_compute. left. reflexivity.
Defined.

Lemma sequential_no_orphan_blobs_witness : no_orphan_blobs demo_s2.
Proof.
  apply (sequential_no_orphan_blobs (list Byte.byte) [] demo_update demo_hexdigest).
  exact demo_s2_seq_reachable.
Defined.

Lemma reachable_reference_count_positive_witness :
  1 <= f_reference_count (demo_row demo_s2 0).
Proof.
  apply (reachable_reference_count_positive (list Byte.byte) [] demo_update demo_hexdigest
           demo_s2).
  - exact demo_s2_reachable.
  - vm_compute. left. reflexivity.
Defined.

Lemma sequential_content_stored_once_witness :
  {| loc_uuid := 1; loc_ext := "txt" |} = {| loc_uuid := 1; loc_ext := "txt" |}.
Proof.
  apply (sequential_content_stored_once (list Byte.byte) [] demo_update demo_hexdigest
           demo_s2 _ _ demo_ab).
  - exact demo_s2_seq_reachable.
  - vm_compute. left. reflexivity.
  - vm_compute. left. reflexivity.
Defined.

Lemma filter_all_true {A : Type} (p : A -> bool) (l : list A) :
  (forall x, In x l -> p x = true) -> filter p l = l.
Proof.
  induction l as [|x l IH]; intros H; simpl; [reflexivity|].
  rewrite (H x (or_introl eq_refl)). f_equal. apply IH. intros y Hy. apply H. right. exact Hy.
Qed.

Section RequestExtras.

Variable HashState : Type.
Variable sha256_init : HashState.
Variable sha256_update : HashState -> list Byte.byte -> HashState.
Variable hexdigest : HashState -> string.

Local Abbreviation hash_of :=
  (fun f => fst (compute_file_hash HashState sha256_init sha256_update hexdigest f)).

(** X5 (create): an upload of new content that the serializer rejects
    answers 400 with the serializer's errors and leaves the state as it was:
    no row, no blob (the blob is only written by [serializer.save]). *)
Theorem create_invalid_upload_unchanged (f : UploadedFile) (now : Z) (s : State) :
  wf_state s ->
  (forall r, In r (st_db s) -> f_content_hash r <> Some (hash_of f)) ->
  serializer_errors f <> [] ->
  create HashState sha256_init sha256_update hexdigest (Some f) now s = (s, Raise (ValidationError (serializer_errors f))).
Proof.
  intros Hwf Hnone Herr. unfold create.
  rewrite (create_with_not_found HashState sha256_init sha256_update hexdigest
             no_interference s f now Hwf Hnone Hwf).
  unfold no_interference.
  destruct (serializer_errors f) as [|e errs]; [contradiction|].
  destruct s as [db log blobs u nr]. destruct Hwf as [Hlog Hnr _ _ _ _ _].
  simpl in *. subst. reflexivity.
Qed.

(** X6 (create): an upload whose content is already stored never goes
    through the serializer: it is accepted even when the serializer would
    reject it (a blank name, say), its name and content type are stored as
    sent (unstripped), and it shares the existing record's file. *)
Theorem duplicate_upload_skips_validation (f : UploadedFile) (now : Z) (s : State)
    (existing : File) :
  wf_state s -> In existing (st_db s) -> f_content_hash existing = Some (hash_of f) ->
  exists dup, snd (create HashState sha256_init sha256_update hexdigest (Some f) now s) = Ok (Created dup) /\
    f_original_filename dup = uf_name f /\ f_file_type dup = uf_content_type f /\
    f_file dup = f_file existing /\ f_referenced_file dup = Some (f_id existing).
Proof.
  intros Hwf Hin Hh. unfold create.
  rewrite (create_with_found HashState sha256_init sha256_update hexdigest
             no_interference s f now existing Hwf Hin Hh).
  eexists. split; [reflexivity|]. repeat split.
Qed.

(** X7 (create, destroy): uploading new content and deleting the record it
    created restores the table and the storage. *)
Theorem create_then_destroy_new (f : UploadedFile) (now : Z) (s : State) :
  dedup_inv s ->
  (forall r, In r (st_db s) -> f_content_hash r <> Some (hash_of f)) ->
  serializer_errors f = [] ->
  let s' := fst (destroy (st_uuid s) (fst (create HashState sha256_init sha256_update hexdigest (Some f) now s))) in
  st_db s' = st_db s /\ st_blobs s' = st_blobs s.
Proof.
  intros Hinv Hnone Hok s'. subst s'.
  pose proof (inv_wf s Hinv) as Hwf.
  pose proof (create_with_inv HashState sha256_init sha256_update hexdigest
                no_interference s (Some f) now (fun s0 H => H) Hinv) as Hinv1.
  unfold create in *.
  rewrite (create_with_not_found HashState sha256_init sha256_update hexdigest
             no_interference s f now Hwf Hnone Hwf) in Hinv1 |- *.
  unfold no_interference in *. rewrite Hok in Hinv1 |- *.
  destruct (upload_location (S (st_uuid s)) (uf_name f)) as [loc|] eqn:El.
  2:{ cbn [fst]. unfold destroy, bind, get_object, view, apply_log. cbn [st_db st_log fold_left].
      rewrite filter_id_none; [split; reflexivity|].
      intros x Hx. pose proof (wf_ids_fresh s Hwf x Hx). lia. }
  pose proof (upload_location_uuid _ _ _ El) as Hu.
  rewrite existsb_all_false in Hinv1 |- *
    by (intros x Hx; apply hash_eqb_other; exact (Hnone x Hx)).
  cbn [fst] in Hinv1 |- *.
  match goal with |- context [st_db s ++ [?c]] => set (c0 := c) in * end.
  assert (Hc : In c0 (st_db s ++ [c0])) by (apply in_or_app; right; left; reflexivity).
  change (destroy (st_uuid s)) with (destroy (f_id c0)).
  rewrite (destroy_free_path _ c0 (inv_wf _ Hinv1) Hc eq_refl ltac:(unfold c0; cbn; lia)
             (no_reference_to_free _ c0 Hinv1 Hc eq_refl ltac:(unfold c0; cbn; lia))).
  change (f_file c0) with (Some loc).
  cbn [fst st_db st_blobs]. rewrite (save_then_delete _ _ Hc).
  split.
  - rewrite filter_app. simpl filter at 2. rewrite Nat.eqb_refl. rewrite app_nil_r.
    apply filter_all_true. intros x Hx. apply negb_true_iff. apply Nat.eqb_neq.
    pose proof (wf_ids_fresh s Hwf x Hx). unfold c0; cbn. lia.
  - simpl filter at 1. cbn [fst]. unfold locator_eqb at 1. rewrite Nat.eqb_refl, String.eqb_refl.
    simpl negb. cbv iota.
    apply filter_all_true. intros [l d] Hx. apply negb_true_iff. unfold locator_eqb.
    pose proof (wf_blobs_fresh s Hwf l d Hx). cbn [fst]. rewrite Hu.
    rewrite (proj2 (Nat.eqb_neq _ _)) by lia. reflexivity.
Qed.


(** X8 (create, destroy): uploading stored content and deleting the
    duplicate it created restores the table (the reference count included)
    and never touches storage. *)
Theorem create_then_destroy_duplicate (f : UploadedFile) (now : Z) (s : State)
    (existing : File) :
  dedup_inv s -> In existing (st_db s) -> f_content_hash existing = Some (hash_of f) ->
  let s' := fst (destroy (st_uuid s) (fst (create HashState sha256_init sha256_update hexdigest (Some f) now s))) in
  st_db s' = st_db s /\ st_blobs s' = st_blobs s.
Proof.
  intros Hinv Hin Hh s'. subst s'.
  pose proof (inv_wf s Hinv) as Hwf.
  pose proof (create_with_inv HashState sha256_init sha256_update hexdigest
                no_interference s (Some f) now (fun s0 H => H) Hinv) as Hinv1.
  unfold create in *.
  rewrite (create_with_found HashState sha256_init sha256_update hexdigest
             no_interference s f now existing Hwf Hin Hh) in Hinv1 |- *.
  cbn [fst] in Hinv1 |- *.
  match goal with |- context [?db ++ [?d]] => set (dup := d) in *; set (db1 := db) in * end.
  set (c := set_refcount existing (f_reference_count existing + 1)).
  assert (Hd : In dup (db1 ++ [dup])) by (apply in_or_app; right; left; reflexivity).
  assert (Hc : In c (db1 ++ [dup])).
  { apply in_or_app; left. unfold db1. cbn [apply_write]. apply in_map_iff.
    exists existing. rewrite Nat.eqb_refl. split; [reflexivity | exact Hin]. }
  change (destroy (st_uuid s)) with (destroy (f_id dup)).
  rewrite (destroy_duplicate_path _ dup c (inv_wf _ Hinv1) Hd eq_refl eq_refl Hc
             (no_reference_to_duplicate _ dup Hinv1 Hd eq_refl)).
  cbn [fst st_db st_blobs]. split; [|reflexivity].
  change (f_id c) with (f_id existing). unfold db1. cbn [apply_write].
  rewrite map_app, filter_app. simpl map at 2. simpl filter at 2.
  change (f_id dup) with (st_uuid s).
  pose proof (wf_ids_fresh s Hwf existing Hin) as Hlt.
  rewrite (proj2 (Nat.eqb_neq (st_uuid s) (f_id existing))) by lia.
  rewrite Nat.eqb_refl. cbn [negb]. rewrite app_nil_r.
  rewrite filter_all_true.
  - rewrite map_map. rewrite <- (map_id (st_db s)) at 2. apply map_ext.
    intros y. destruct (Nat.eqb (f_id y) (f_id existing)) eqn:E; cbn [set_refcount f_id];
      [rewrite E|rewrite E; reflexivity].
    destruct y; unfold set_refcount; cbn. f_equal. lia.
  - intros x Hx. apply in_map_iff in Hx as (y & <- & Hy). apply in_map_iff in Hy as (z & <- & Hz).
    pose proof (wf_ids_fresh s Hwf z Hz). apply negb_true_iff. apply Nat.eqb_neq.
    destruct (Nat.eqb (f_id z) (f_id existing)); cbn [set_refcount f_id];
      destruct (Nat.eqb _ (f_id existing)); cbn [set_refcount f_id]; lia.
Qed.

End RequestExtras.

Ltac rows_differ :=
  let r := fresh "r" in let Hr := fresh "Hr" in
  intros r Hr; vm_compute in Hr; repeat destruct Hr as [<- | Hr]; try contradiction;
  vm_compute; congruence.

Lemma create_invalid_upload_unchanged_witness :
  demo_create (Some (demo_upload "e.txt" [])) 2 demo_s2
  = (demo_s2, Raise (ValidationError (serializer_errors (demo_upload "e.txt" [])))).
Proof.
  apply (create_invalid_upload_unchanged (list Byte.byte) [] demo_update demo_hexdigest).
  - exact demo_s2_wf.
  - rows_differ.
  - vm_compute. congruence.
Defined.

Lemma duplicate_upload_skips_validation_witness :
  serializer_errors (demo_upload "" demo_ab) <> [] /\
  exists dup, snd (demo_create (Some (demo_upload "" demo_ab)) 1 demo_s1) = Ok (Created dup) /\
    f_original_filename dup = "" /\ f_file_type dup = "text/plain" /\
    f_file dup = f_file (demo_row demo_s1 0) /\
    f_referenced_file dup = Some (f_id (demo_row demo_s1 0)).
Proof.
  split; [vm_compute; congruence|].
  apply (duplicate_upload_skips_validation (list Byte.byte) [] demo_update demo_hexdigest
           (demo_upload "" demo_ab) 1 demo_s1 (demo_row demo_s1 0)).
  - exact demo_s1_wf.
  - vm_compute. left. reflexivity.
  - vm_compute. reflexivity.
Defined.

Lemma create_then_destroy_new_witness :
  let s' := fst (destroy (st_uuid demo_s2)
                   (fst (demo_create (Some (demo_upload "c.txt" [Byte.x43])) 2 demo_s2))) in
  st_db s' = st_db demo_s2 /\ st_blobs s' = st_blobs demo_s2.
Proof.
  apply (create_then_destroy_new (list Byte.byte) [] demo_update demo_hexdigest).
  - exact (reachable_inv _ _ _ _ _ demo_s2_reachable).
  - rows_differ.
  - vm_compute. reflexivity.
Defined.

Lemma create_then_destroy_duplicate_witness :
  let s' := fst (destroy (st_uuid demo_s1)
                   (fst (demo_create (Some (demo_upload "b.txt" demo_ab)) 1 demo_s1))) in
  st_db s' = st_db demo_s1 /\ st_blobs s' = st_blobs demo_s1.
Proof.
  apply (create_then_destroy_duplicate (list Byte.byte) [] demo_update demo_hexdigest
           _ _ _ (demo_row demo_s1 0)).
  - exact (reachable_inv _ _ _ _ _ demo_s1_reachable).
  - vm_compute. left. reflexivity.
  - vm_compute. reflexivity.
Defined.

Section HashExtras.

Variable HashState : Type.
Variable sha256_init : HashState.
Variable sha256_update : HashState -> list Byte.byte -> HashState.
Variable hexdigest : HashState -> string.

Lemma hash_loop_file (fuel chunk_size : nat) (h : HashState) (f : UploadedFile) :
  exists h' p, hash_loop HashState sha256_update fuel chunk_size h f = (h', seek f p).
Proof.
  revert h f. induction fuel as [|fuel IH]; intros h f; simpl.
  - exists h, (uf_pos f). destruct f; reflexivity.
  - destruct (firstn chunk_size (skipn (uf_pos f) (uf_data f))) as [|b bs] eqn:E.
    + eexists; eexists; reflexivity.
    + destruct (IH (sha256_update h (b :: bs)) (seek f (uf_pos f + List.length (b :: bs))))
        as (h' & p & Hr).
      rewrite Hr. exists h', p. reflexivity.
Qed.

(** X9 (compute_file_hash): hashing leaves the upload as it found it, for
    any chunk size: same bytes, and the stream back at the position it had
    before the call. *)
Theorem compute_file_hash_restores_file (f : UploadedFile) (chunk_size : nat) :
  snd (compute_file_hash_sized HashState sha256_init sha256_update hexdigest f chunk_size) = f.
Proof.
  unfold compute_file_hash_sized.
  destruct (hash_loop_file (S (List.length (uf_data (seek f 0)))) chunk_size sha256_init
              (seek f 0)) as (h' & p & Hr).
  rewrite Hr. destruct f; reflexivity.
Qed.

Lemma fold_update_concat (chunks : list (list Byte.byte)) (h : HashState) :
  (forall st a b, sha256_update (sha256_update st a) b = sha256_update st (a ++ b)) ->
  (forall st, sha256_update st [] = st) ->
  fold_left sha256_update chunks h = sha256_update h (List.concat chunks).
Proof.
  intros Hcat Hnil. revert h. induction chunks as [|c cs IH]; intros h; simpl.
  - symmetry. apply Hnil.
  - rewrite IH, Hcat. reflexivity.
Qed.

(** X10 (compute_file_hash): with an incremental hash whose updates only
    depend on the bytes fed so far, as SHA-256's do, the digest is the hash
    of the whole content, from its first byte, whatever the chunk size (if
    positive) and wherever the stream stood. *)
Theorem compute_file_hash_whole_content (f : UploadedFile) (chunk_size : nat) :
  (forall st a b, sha256_update (sha256_update st a) b = sha256_update st (a ++ b)) ->
  (forall st, sha256_update st [] = st) ->
  (0 < chunk_size)%nat ->
  fst (compute_file_hash_sized HashState sha256_init sha256_update hexdigest f chunk_size)
  = hexdigest (sha256_update sha256_init (uf_data f)).
Proof.
  intros Hcat Hnil Hk. unfold compute_file_hash_sized.
  destruct (hash_loop_reads_all HashState sha256_update
              (S (List.length (uf_data (seek f 0)))) chunk_size sha256_init (seek f 0) Hk
              ltac:(simpl; lia)) as (chunks & p & Hc & Hr).
  rewrite Hr. simpl. rewrite (fold_update_concat chunks sha256_init Hcat Hnil), Hc.
  reflexivity.
Qed.

End HashExtras.

Lemma compute_file_hash_whole_content_witness :
  fst (compute_file_hash_sized (list Byte.byte) [] demo_update demo_hexdigest
         (mkUploadedFile "ab.txt" "text/plain" demo_ab 1) 1)
  = demo_hexdigest (demo_update [] demo_ab).
Proof.
  apply (compute_file_hash_whole_content (list Byte.byte) [] demo_update demo_hexdigest
           (mkUploadedFile "ab.txt" "text/plain" demo_ab 1) 1).
  - intros st a b. unfold demo_update. symmetry. apply app_assoc.
  - intros st. unfold demo_update. apply app_nil_r.
  - lia.
Defined.

(** [filename.split('.')[-1]] holds no dot, is the whole name when the
    name has no dot, and otherwise the name is some prefix, a dot, then it. *)
Lemma file_ext_last_segment (s : string) :
  has_dot (file_ext s) = false /\
  (has_dot s = false -> file_ext s = s) /\
  (has_dot s = true -> exists p, s = String.append p (String "." (file_ext s))).
Proof.
  induction s as [|c s' IH]; [repeat split; intros H; discriminate H|].
  destruct IH as (IH1 & IH2 & IH3).
  assert (Hd : has_dot (String c s') = Ascii.eqb c "."%char || has_dot s') by reflexivity.
  simpl file_ext. fold (has_dot s').
  destruct (has_dot s') eqn:E.
  - rewrite orb_true_r in Hd. split; [exact IH1|]. split; [rewrite Hd; discriminate|].
    intros _. destruct (IH3 eq_refl) as (p & Hp). exists (String c p).
    simpl. f_equal. exact Hp.
  - rewrite orb_false_r in Hd. destruct (Ascii.eqb c "."%char) eqn:Ec.
    + apply Ascii.eqb_eq in Ec. subst c. split; [exact E|]. split; [rewrite Hd; discriminate|].
      intros _. exists "". reflexivity.
    + split; [rewrite Hd; reflexivity|]. split; [reflexivity|]. rewrite Hd. discriminate.
Qed.

(** ** Storage names of uploads *)

Lemma las_append (a b : string) :
  list_ascii_of_string (String.append a b) = list_ascii_of_string a ++ list_ascii_of_string b.
Proof. induction a as [|c a IH]; simpl; [reflexivity|]. rewrite IH. reflexivity. Qed.

Lemma str_length_append (a b : string) :
  String.length (String.append a b) = (String.length a + String.length b)%nat.
Proof. induction a as [|c a IH]; simpl; [reflexivity|]. rewrite IH. reflexivity. Qed.

Lemma sol_app (l1 l2 : list ascii) :
  string_of_list_ascii (l1 ++ l2) = String.append (string_of_list_ascii l1) (string_of_list_ascii l2).
Proof. induction l1 as [|c l1 IH]; simpl; [reflexivity|]. rewrite IH. reflexivity. Qed.

Lemma length_sol (l : list ascii) : String.length (string_of_list_ascii l) = List.length l.
Proof. induction l as [|c l IH]; simpl; [reflexivity|]. rewrite IH. reflexivity. Qed.

Lemma length_las (s : string) : List.length (list_ascii_of_string s) = String.length s.
Proof. induction s as [|c s IH]; simpl; [reflexivity|]. rewrite IH. reflexivity. Qed.

Lemma substring_sol (n m : nat) (l : list ascii) :
  substring n m (string_of_list_ascii l) = string_of_list_ascii (firstn m (skipn n l)).
Proof.
  revert m l. induction n as [|n IH]; intros m l.
  - revert l. induction m as [|m IHm]; intros l; destruct l as [|c l]; simpl; try reflexivity.
    rewrite IHm. reflexivity.
  - destruct l as [|c l]; simpl.
    + destruct m; reflexivity.
    + apply IH.
Qed.

Lemma string_eqb_length (a b : string) :
  String.length a <> String.length b -> String.eqb a b = false.
Proof. intros H. apply String.eqb_neq. intros ->. apply H. reflexivity. Qed.

Lemma split_on_nosep (sep : ascii) (l : list ascii) :
  (forall c, In c l -> Ascii.eqb c sep = false) -> split_on sep l = [l].
Proof.
  induction l as [|c l IH]; intros H; [reflexivity|].
  simpl. rewrite (H c (or_introl eq_refl)).
  rewrite IH by (intros x Hx; apply H; right; exact Hx). reflexivity.
Qed.

Lemma split_on_not_nil (sep : ascii) (l : list ascii) : split_on sep l <> [].
Proof.
  destruct l as [|c l]; simpl; [discriminate|].
  destruct (Ascii.eqb c sep); [discriminate|]. destruct (split_on sep l); discriminate.
Qed.

Lemma split_on_app (sep : ascii) (l1 l2 : list ascii) :
  split_on sep (l1 ++ sep :: l2) = split_on sep l1 ++ split_on sep l2.
Proof.
  induction l1 as [|c l1 IH]; simpl.
  - rewrite Ascii.eqb_refl. reflexivity.
  - rewrite IH. destruct (Ascii.eqb c sep); [reflexivity|].
    destruct (split_on sep l1) as [|p ps] eqn:E; [exfalso; exact (split_on_not_nil _ _ E)|].
    reflexivity.
Qed.

Lemma hex_digits_length (k n : nat) : List.length (hex_digits k n) = k.
Proof.
  revert n. induction k as [|k IH]; intros n; simpl; [reflexivity|].
  rewrite length_app, IH. simpl. lia.
Qed.

Lemma hex_digit_uuid_char (n : nat) : (n < 16)%nat -> In (hex_digit n) uuid_chars.
Proof.
  intros H.
  do 16 (destruct n as [|n]; [vm_compute; tauto|]). lia.
Qed.

Lemma hex_digits_chars (k n : nat) (c : ascii) : In c (hex_digits k n) -> In c uuid_chars.
Proof.
  revert n. induction k as [|k IH]; intros n; cbn [hex_digits]; [intros []|].
  intros H. apply in_app_or in H as [H | [<- | []]].
  - exact (IH _ H).
  - apply hex_digit_uuid_char. apply Nat.mod_upper_bound. discriminate.
Qed.

Lemma in_firstn_in {A} (n : nat) (l : list A) (x : A) : In x (firstn n l) -> In x l.
Proof. intros H. rewrite <- (firstn_skipn n l). apply in_or_app. left. exact H. Qed.

Lemma in_skipn_in {A} (n : nat) (l : list A) (x : A) : In x (skipn n l) -> In x l.
Proof. intros H. rewrite <- (firstn_skipn n l). apply in_or_app. right. exact H. Qed.

Lemma uuid_hex_chars (u : nat) :
  List.length (list_ascii_of_string (uuid_hex u)) = 36%nat /\
  forall c, In c (list_ascii_of_string (uuid_hex u)) -> In c uuid_chars.
Proof.
  unfold uuid_hex. rewrite list_ascii_of_string_of_list_ascii.
  pose proof (hex_digits_length 32 u) as Hl.
  pose proof (hex_digits_chars 32 u) as Hc.
  set (d := hex_digits 32 u) in *.
  split.
  - rewrite !length_app, !length_firstn, !length_skipn, Hl. reflexivity.
  - intros c H.
    repeat (apply in_app_or in H as [H | H]);
      repeat match goal with
             | H : In _ (firstn _ _) |- _ => apply in_firstn_in in H
             | H : In _ (skipn _ _) |- _ => apply in_skipn_in in H
             end;
      try (apply Hc; exact H);
      (destruct H as [<- | []]; vm_compute; tauto).
Qed.

Ltac uuid_char_case H :=
  unfold uuid_chars in H; simpl in H;
  repeat destruct H as [<- | H]; try contradiction; reflexivity.

Lemma uuid_char_props (c : ascii) : In c uuid_chars ->
  Ascii.eqb c "/" = false /\ Ascii.eqb c "\" = false /\ Ascii.eqb c "." = false /\
  Ascii.eqb c " " = false /\ is_py_space c = false /\ valid_name_char c = true.
Proof.
  intros H. unfold uuid_chars in H; simpl in H.
  repeat destruct H as [<- | H]; try contradiction; vm_compute; tauto.
Qed.

Lemma las_uploads : list_ascii_of_string "uploads" = ["u"; "p"; "l"; "o"; "a"; "d"; "s"]%char.
Proof. reflexivity. Qed.

Lemma str_split_upload (T : list ascii) :
  (forall c, In c T -> Ascii.eqb c "/" = false) ->
  str_split "/" (string_of_list_ascii (list_ascii_of_string "uploads" ++ "/"%char :: T))
  = ["uploads"; string_of_list_ascii T].
Proof.
  intros HT. unfold str_split. rewrite list_ascii_of_string_of_list_ascii, split_on_app.
  rewrite (split_on_nosep _ T HT). reflexivity.
Qed.

Lemma basename_nosep (T : list ascii) :
  (forall c, In c T -> Ascii.eqb c "/" = false) ->
  basename (string_of_list_ascii T) = string_of_list_ascii T.
Proof.
  intros HT. unfold basename, str_split. rewrite list_ascii_of_string_of_list_ascii.
  rewrite (split_on_nosep _ T HT). reflexivity.
Qed.

Lemma replace_char_absent (a b : ascii) (l : list ascii) :
  (forall c, In c l -> Ascii.eqb c a = false) ->
  replace_char a b (string_of_list_ascii l) = string_of_list_ascii l.
Proof.
  intros H. unfold replace_char. rewrite list_ascii_of_string_of_list_ascii.
  f_equal. rewrite <- (map_id l) at 2. apply map_ext_in. intros c Hc. rewrite (H c Hc). reflexivity.
Qed.

Lemma lstrip_append (a b : string) :
  lstrip b = b -> lstrip (String.append a b) = String.append (lstrip a) b.
Proof.
  intros Hb. induction a as [|c a IH]; simpl; [exact Hb|].
  destruct (is_py_space c); [exact IH | reflexivity].
Qed.

Lemma rev_string_sol (l : list ascii) : rev_string (string_of_list_ascii l) = string_of_list_ascii (rev l).
Proof. unfold rev_string. rewrite list_ascii_of_string_of_list_ascii. reflexivity. Qed.

Lemma rev_string_append (a b : string) :
  rev_string (String.append a b) = String.append (rev_string b) (rev_string a).
Proof. unfold rev_string. rewrite las_append, rev_app_distr, sol_app. reflexivity. Qed.

Lemma rev_string_involutive (a : string) : rev_string (rev_string a) = a.
Proof.
  unfold rev_string. rewrite list_ascii_of_string_of_list_ascii, rev_involutive.
  apply string_of_list_ascii_of_string.
Qed.

Lemma sol_cons (c : ascii) (l : list ascii) :
  string_of_list_ascii (c :: l) = String c (string_of_list_ascii l).
Proof. reflexivity. Qed.

Section UploadName.

Variable h : list ascii.
Hypothesis h_len : List.length h = 36%nat.
Hypothesis h_chars : forall c, In c h -> In c uuid_chars.

Lemma py_strip_upload (e : string) :
  py_strip (string_of_list_ascii (h ++ "."%char :: list_ascii_of_string e))
  = string_of_list_ascii (h ++ "."%char :: list_ascii_of_string (rstrip e)).
Proof.
  destruct h as [|c0 h'] eqn:Eh; [discriminate h_len|].
  assert (Hc0 : is_py_space c0 = false)
    by (apply (uuid_char_props c0 (h_chars c0 (or_introl eq_refl)))).
  unfold py_strip.
  replace (lstrip (string_of_list_ascii ((c0 :: h') ++ "."%char :: list_ascii_of_string e)))
    with (string_of_list_ascii ((c0 :: h') ++ "."%char :: list_ascii_of_string e))
    by (cbn [app]; rewrite sol_cons; simpl; rewrite Hc0; reflexivity).
  rewrite rev_string_sol, rev_app_distr. cbn [rev]. rewrite <- app_assoc. cbn [app].
  rewrite sol_app.
  rewrite <- (string_of_list_ascii_of_string e) at 1.
  rewrite <- rev_string_sol. rewrite string_of_list_ascii_of_string.
  rewrite lstrip_append by (rewrite sol_cons; reflexivity).
  rewrite rev_string_append, rev_string_sol. cbn [rev].
  rewrite rev_app_distr, rev_involutive. cbn [rev app].
  rewrite string_of_list_ascii_of_string.
  unfold rstrip. set (R := rev_string (lstrip (rev_string e))).
  rewrite <- (string_of_list_ascii_of_string R) at 1. rewrite <- sol_app.
  f_equal. simpl. rewrite <- ?app_assoc. reflexivity.
Qed.

Lemma h_head_not_slash : forall c l, h = c :: l -> Ascii.eqb c "/" = false.
Proof.
  intros c l E. apply (uuid_char_props c (h_chars c ltac:(rewrite E; left; reflexivity))).
Qed.

Lemma get_valid_name_upload (e : string) :
  get_valid_name (string_of_list_ascii (h ++ "."%char :: list_ascii_of_string e))
  = Some (string_of_list_ascii (h ++ "."%char :: list_ascii_of_string (cleaned_ext e))).
Proof.
  assert (Hs : filter valid_name_char (list_ascii_of_string (replace_char " " "_"
                 (string_of_list_ascii (h ++ "."%char :: list_ascii_of_string (rstrip e)))))
               = h ++ "."%char :: list_ascii_of_string (cleaned_ext e)).
  { unfold replace_char at 1. rewrite !list_ascii_of_string_of_list_ascii, map_app.
    rewrite (map_ext_in _ (fun c => c) h)
      by (intros c Hc; rewrite (proj1 (proj2 (proj2 (proj2 (uuid_char_props c (h_chars c Hc))))));
          reflexivity).
    rewrite map_id. cbn [map]. rewrite filter_app.
    rewrite (filter_all_true valid_name_char h)
      by (intros c Hc; apply (uuid_char_props c (h_chars c Hc))).
    replace (Ascii.eqb "." " ") with false by reflexivity.
    cbn [filter]. replace (valid_name_char ".") with true by reflexivity.
    unfold cleaned_ext, replace_char. rewrite !list_ascii_of_string_of_list_ascii. reflexivity. }
  unfold get_valid_name. rewrite py_strip_upload, Hs.
  unfold is_dot_name. rewrite !string_eqb_length; [reflexivity|..];
    rewrite length_sol, length_app, h_len; simpl; lia.
Qed.

Section Tail.

Variable X : list ascii.
Hypothesis X_nosep : forall c, In c X -> is_path_sep c = false.
Hypothesis X_nodot : forall c, In c X -> Ascii.eqb c "." = false.

Let T := h ++ "."%char :: X.

Lemma T_nosep : forall c, In c T -> Ascii.eqb c "/" = false /\ Ascii.eqb c "\" = false.
Proof.
  intros c Hc. apply in_app_or in Hc as [Hc | [<- | Hc]].
  - destruct (uuid_char_props c (h_chars c Hc)) as (H1 & H2 & _). auto.
  - split; reflexivity.
  - specialize (X_nosep c Hc). unfold is_path_sep in X_nosep.
    apply orb_false_iff in X_nosep. exact X_nosep.
Qed.

Lemma T_length : String.length (string_of_list_ascii T) = (37 + List.length X)%nat.
Proof. rewrite length_sol. unfold T. rewrite length_app, h_len. reflexivity. Qed.

Lemma T_not_dot_name : is_dot_name (string_of_list_ascii T) = false.
Proof.
  unfold is_dot_name. rewrite !string_eqb_length; try (rewrite T_length; simpl; lia).
  reflexivity.
Qed.

Let L := list_ascii_of_string "uploads" ++ "/"%char :: T.

Lemma L_split : str_split "/" (string_of_list_ascii L) = ["uploads"; string_of_list_ascii T].
Proof. apply str_split_upload. intros c Hc. apply (T_nosep c Hc). Qed.

Lemma L_parts : path_parts (string_of_list_ascii L) = ["uploads"; string_of_list_ascii T].
Proof.
  unfold path_parts. rewrite L_split. cbn [filter].
  rewrite (string_eqb_length (string_of_list_ascii T) ""), (string_eqb_length (string_of_list_ascii T) ".")
    by (rewrite T_length; simpl; lia).
  reflexivity.
Qed.

Lemma L_no_dotdot : has_dotdot_part (string_of_list_ascii L) = false.
Proof.
  unfold has_dotdot_part. rewrite L_parts. cbn [existsb].
  rewrite (string_eqb_length ".." (string_of_list_ascii T)) by (rewrite T_length; simpl; lia).
  reflexivity.
Qed.

Lemma L_no_backslash : replace_char "\" "/" (string_of_list_ascii L) = string_of_list_ascii L.
Proof.
  apply replace_char_absent. intros c Hc. unfold L in Hc. rewrite las_uploads in Hc.
  destruct Hc as [<-|Hc]; [reflexivity|]. do 7 (destruct Hc as [<-|Hc]; [reflexivity|]).
  apply (T_nosep c Hc).
Qed.

Lemma L_validate : validate_file_name (string_of_list_ascii L) true = true.
Proof.
  unfold validate_file_name. unfold basename. rewrite L_split. cbn [last].
  rewrite T_not_dot_name. rewrite L_no_backslash, L_no_dotdot.
  unfold L. rewrite las_uploads. reflexivity.
Qed.

Lemma L_path_split : path_split (string_of_list_ascii L) = ("uploads", string_of_list_ascii T).
Proof.
  assert (Hb : basename (string_of_list_ascii L) = string_of_list_ascii T)
    by (unfold basename; rewrite L_split; reflexivity).
  unfold path_split. rewrite Hb.
  replace (String.length (string_of_list_ascii L) - String.length (string_of_list_ascii T))%nat
    with 8%nat.
  2:{ unfold L. rewrite !length_sol, length_app, las_uploads. cbn [List.length]. lia. }
  rewrite substring_sol. unfold L. rewrite las_uploads. reflexivity.
Qed.

Lemma T_head : starts_with_slash (string_of_list_ascii T) = false.
Proof.
  unfold T. destruct h as [|c0 h'] eqn:Eh; [discriminate h_len|].
  cbn [app]. rewrite sol_cons. simpl.
  apply (uuid_char_props c0 (h_chars c0 (or_introl eq_refl))).
Qed.

Lemma L_join : path_join "uploads" (string_of_list_ascii T) = string_of_list_ascii L.
Proof.
  unfold path_join. rewrite T_head.
  replace (String.eqb "uploads" "" || starts_with_slash (rev_string "uploads")) with false
    by reflexivity.
  unfold L. rewrite sol_app, string_of_list_ascii_of_string. reflexivity.
Qed.

Lemma L_normpath : normpath (string_of_list_ascii L) = string_of_list_ascii L.
Proof.
  unfold normpath. rewrite L_split. cbn [fold_left].
  replace (String.eqb "uploads" "" || String.eqb "uploads" ".") with false by reflexivity.
  replace (negb (String.eqb "uploads" "..") || true) with true by reflexivity.
  rewrite (string_eqb_length (string_of_list_ascii T) ""),
    (string_eqb_length (string_of_list_ascii T) "."),
    (string_eqb_length (string_of_list_ascii T) "..") by (rewrite T_length; simpl; lia).
  cbn [orb negb rev app String.concat].
  replace (String.append "uploads" (String.append "/" (string_of_list_ascii T)))
    with (string_of_list_ascii L)
    by (unfold L; rewrite sol_app, string_of_list_ascii_of_string; reflexivity).
  rewrite (string_eqb_length (string_of_list_ascii L) "");
    [reflexivity|].
  unfold L. rewrite length_sol, length_app, las_uploads. simpl. lia.
Qed.

Lemma L_length : String.length (string_of_list_ascii L) = (45 + List.length X)%nat.
Proof.
  unfold L. rewrite length_sol, length_app, las_uploads. cbn [List.length].
  rewrite <- length_sol. rewrite T_length. lia.
Qed.

Lemma take_while_nodot (l r : list ascii) :
  (forall c, In c l -> Ascii.eqb c "." = false) ->
  take_while (fun c => negb (Ascii.eqb c ".")) (l ++ "."%char :: r) = l.
Proof.
  induction l as [|c l IH]; intros H; [reflexivity|].
  cbn [app take_while]. rewrite (H c (or_introl eq_refl)). cbn [negb].
  rewrite IH by (intros x Hx; apply H; right; exact Hx). reflexivity.
Qed.

Lemma skipn_past_sep {A} (l r : list A) (a : A) : skipn (S (List.length l)) (l ++ a :: r) = r.
Proof. induction l as [|x l IH]; [reflexivity|]. exact IH. Qed.

Lemma T_splitext :
  splitext (string_of_list_ascii T)
  = (string_of_list_ascii h, String "." (string_of_list_ascii X)).
Proof.
  unfold splitext. rewrite list_ascii_of_string_of_list_ascii. unfold T.
  rewrite rev_app_distr. cbn [rev]. rewrite <- app_assoc. cbn [app].
  rewrite take_while_nodot by (intros c Hc; apply X_nodot, in_rev; exact Hc).
  rewrite skipn_past_sep.
  rewrite length_app, !length_rev. cbn [List.length].
  replace (Nat.eqb (List.length X) (List.length X + S (List.length h))) with false
    by (symmetry; apply Nat.eqb_neq; lia).
  destruct h as [|c0 h'] eqn:Eh; [discriminate h_len|].
  replace (existsb (fun c => negb (Ascii.eqb c ".")) (rev (c0 :: h'))) with true.
  2:{ symmetry. apply existsb_exists. exists c0. split.
      - apply in_rev. rewrite rev_involutive. apply in_eq.
      - rewrite (proj1 (proj2 (proj2 (uuid_char_props c0 (h_chars c0 (or_introl eq_refl)))))). reflexivity. }
  rewrite !rev_involutive, ?length_rev.
  rewrite (proj2 (Nat.eqb_neq _ _)) by (cbn [List.length]; lia). reflexivity.
Qed.

Lemma substring_h (k : nat) :
  String.eqb (substring 0 k (string_of_list_ascii h)) "" = Nat.eqb k 0.
Proof.
  rewrite substring_sol. cbn [skipn].
  destruct k as [|k]; [reflexivity|].
  destruct h as [|c0 h'] eqn:Eh; [discriminate h_len|]. reflexivity.
Qed.

Lemma L_available :
  get_available_name (string_of_list_ascii L)
  = if Nat.leb (List.length X) 55 then Some KeepName
    else if Nat.leb 83 (List.length X) then None
    else Some (AlternativeName "uploads"
                 (substring 0 (83 - List.length X) (string_of_list_ascii h))
                 (String "." (string_of_list_ascii X))).
Proof.
  unfold get_available_name. rewrite L_no_backslash, L_path_split.
  replace (has_dotdot_part "uploads") with false by reflexivity.
  unfold validate_file_name at 1.
  rewrite basename_nosep by (intros c Hc; apply (T_nosep c Hc)).
  rewrite T_not_dot_name, String.eqb_refl. cbn [negb].
  rewrite T_splitext, L_length.
  destruct (Nat.leb (List.length X) 55) eqn:E55.
  - apply Nat.leb_le in E55. replace (Nat.leb (45 + List.length X) 100) with true
      by (symmetry; apply Nat.leb_le; lia). reflexivity.
  - apply Nat.leb_gt in E55. replace (Nat.leb (45 + List.length X) 100) with false
      by (symmetry; apply Nat.leb_gt; lia).
    replace (String.length (path_join "uploads" (string_of_list_ascii h))) with 44%nat.
    2:{ unfold path_join.
        destruct h as [|c0 h'] eqn:Eh; [discriminate h_len|].
        rewrite sol_cons. cbn [starts_with_slash].
        rewrite (proj1 (uuid_char_props c0 (h_chars c0 (or_introl eq_refl)))).
        replace (String.eqb "uploads" "" || starts_with_slash (rev_string "uploads")) with false
          by reflexivity.
        rewrite str_length_append. simpl. rewrite length_sol. simpl in h_len. lia. }
    rewrite length_sol, h_len. cbn [String.length]. rewrite length_sol.
    replace (36 - (44 + 8 + S (List.length X) - 100))%nat with (83 - List.length X)%nat by lia.
    rewrite substring_h.
    destruct (Nat.leb 83 (List.length X)) eqn:E83.
    + apply Nat.leb_le in E83. replace (Nat.eqb (83 - List.length X) 0) with true
        by (symmetry; apply Nat.eqb_eq; lia). reflexivity.
    + apply Nat.leb_gt in E83. replace (Nat.eqb (83 - List.length X) 0) with false
        by (symmetry; apply Nat.eqb_neq; lia). reflexivity.
Qed.

Lemma L_loc_ext :
  substring 45 (String.length (string_of_list_ascii L) - 45) (string_of_list_ascii L)
  = string_of_list_ascii X.
Proof.
  rewrite L_length, substring_sol. unfold L, T. rewrite las_uploads.
  replace (45 + List.length X - 45)%nat with (List.length X) by lia.
  replace (["u"; "p"; "l"; "o"; "a"; "d"; "s"]%char ++ "/"%char :: h ++ "."%char :: X)
    with ((["u"; "p"; "l"; "o"; "a"; "d"; "s"; "/"]%char ++ h ++ ["."%char]) ++ X)
    by (cbn [app]; rewrite <- app_assoc; reflexivity).
  rewrite skipn_app, skipn_all2, firstn_app.
  2:{ rewrite !length_app, h_len. simpl. lia. }
  rewrite !length_app, h_len. cbn [List.length].
  replace (45 - (8 + (36 + 1)))%nat with 0%nat by lia. cbn [skipn firstn app].
  rewrite firstn_nil, Nat.sub_0_r, firstn_all. reflexivity.
Qed.

End Tail.
End UploadName.

Lemma valid_name_char_not_sep (c : ascii) : valid_name_char c = true -> is_path_sep c = false.
Proof.
  destruct c as [b0 b1 b2 b3 b4 b5 b6 b7];
    destruct b0, b1, b2, b3, b4, b5, b6, b7; vm_compute; congruence.
Qed.

Lemma las_rev_string (s : string) : list_ascii_of_string (rev_string s) = rev (list_ascii_of_string s).
Proof. unfold rev_string. apply list_ascii_of_string_of_list_ascii. Qed.

Lemma lstrip_chars (s : string) (c : ascii) :
  In c (list_ascii_of_string (lstrip s)) -> In c (list_ascii_of_string s).
Proof.
  induction s as [|d s IH]; simpl; [tauto|].
  destruct (is_py_space d); simpl; auto.
Qed.

Lemma rstrip_chars (s : string) (c : ascii) :
  In c (list_ascii_of_string (rstrip s)) -> In c (list_ascii_of_string s).
Proof.
  unfold rstrip. rewrite las_rev_string. intros H. rewrite <- in_rev in H.
  apply lstrip_chars in H. rewrite las_rev_string, <- in_rev in H. exact H.
Qed.

Lemma cleaned_ext_chars (e : string) (c : ascii) :
  In c (list_ascii_of_string (cleaned_ext e)) ->
  valid_name_char c = true /\ (c = "_"%char \/ In c (list_ascii_of_string e)).
Proof.
  unfold cleaned_ext, replace_char. rewrite !list_ascii_of_string_of_list_ascii.
  intros H. apply filter_In in H as [H Hv]. split; [exact Hv|].
  apply in_map_iff in H as [d [<- Hd]].
  destruct (Ascii.eqb d " "); [left; reflexivity|right; exact (rstrip_chars _ _ Hd)].
Qed.

Lemma file_ext_chars (s : string) (c : ascii) :
  In c (list_ascii_of_string (file_ext s)) ->
  In c (list_ascii_of_string s) /\ Ascii.eqb c "." = false.
Proof.
  induction s as [|d s IH]; simpl; [tauto|].
  destruct (existsb (fun x => Ascii.eqb x ".") (list_ascii_of_string s)) eqn:E.
  - intros H. destruct (IH H). split; [right|]; assumption.
  - pose proof (existsb_all_false_inv _ _ E) as Hs.
    destruct (Ascii.eqb d ".") eqn:Ed.
    + intros H. split; [right; exact H | exact (Hs c H)].
    + simpl. intros [<- | H]; split; auto.
Qed.

Lemma upload_name_eq (u : nat) (e : string) :
  String.append (uuid_hex u) (String "." e)
  = string_of_list_ascii (list_ascii_of_string (uuid_hex u) ++ "."%char :: list_ascii_of_string e).
Proof. rewrite sol_app, sol_cons, !string_of_list_ascii_of_string. reflexivity. Qed.

Lemma field_generate_upload (u : nat) (filename : string) :
  (forall c, In c (list_ascii_of_string filename) -> is_path_sep c = false) ->
  field_generate_filename u filename
  = Some (string_of_list_ascii (list_ascii_of_string "uploads" ++ "/"%char ::
            list_ascii_of_string (uuid_hex u) ++ "."%char ::
            list_ascii_of_string (cleaned_ext (file_ext filename)))).
Proof.
  intros Hf.
  destruct (uuid_hex_chars u) as [Hl Hc].
  set (h := list_ascii_of_string (uuid_hex u)) in *.
  set (e := file_ext filename).
  assert (He : forall c, In c (list_ascii_of_string e) -> is_path_sep c = false)
    by (intros c Hin; apply Hf, (file_ext_chars _ _ Hin)).
  assert (Hd : forall c, In c (list_ascii_of_string e) -> Ascii.eqb c "." = false)
    by (intros c Hin; apply (file_ext_chars _ _ Hin)).
  assert (He' : forall c, In c (list_ascii_of_string (cleaned_ext e)) -> is_path_sep c = false)
    by (intros c Hin; apply valid_name_char_not_sep, (cleaned_ext_chars _ _ Hin)).
  assert (Hd' : forall c, In c (list_ascii_of_string (cleaned_ext e)) -> Ascii.eqb c "." = false).
  { intros c Hin. destruct (cleaned_ext_chars _ _ Hin) as [_ [-> | H]]; [reflexivity | exact (Hd c H)]. }
  unfold field_generate_filename, file_upload_path. fold e.
  rewrite upload_name_eq. fold h.
  rewrite (L_join h) by assumption.
  rewrite (L_validate h) by assumption.
  unfold storage_generate_filename.
  rewrite (L_no_backslash h), (L_path_split h) by assumption.
  replace (has_dotdot_part "uploads") with false by reflexivity.
  rewrite (get_valid_name_upload h) by assumption.
  rewrite (L_join h), (L_normpath h) by assumption.
  reflexivity.
Qed.

Lemma upload_path_string (u : nat) (e : string) :
  string_of_list_ascii (list_ascii_of_string "uploads" ++ "/"%char ::
    list_ascii_of_string (uuid_hex u) ++ "."%char :: list_ascii_of_string e)
  = String.append "uploads/" (String.append (uuid_hex u) (String "." e)).
Proof.
  rewrite sol_app, string_of_list_ascii_of_string, sol_cons, sol_app, sol_cons,
    !string_of_list_ascii_of_string. reflexivity.
Qed.

(** X11: for an upload whose filename has no ['/'] or ['\'], the name
    [FileField.generate_filename] gives is ["uploads/<uuid>.<ext>"], where
    [<ext>] is [filename.split('.')[-1]] after [get_valid_name] (trailing
    whitespace stripped, spaces to ['_'], characters outside [[-\w.]]
    dropped). [get_available_name(name, max_length=100)] keeps that name when
    [<ext>] has at most 55 characters, shortens the uuid part when it has 56
    to 82, and raises [SuspiciousFileOperation] from 83 on; the stored
    locator keeps the draw and [<ext>], and there is none from 83 on. *)
Theorem upload_storage_name (u : nat) (filename : string) :
  (forall c, In c (list_ascii_of_string filename) -> is_path_sep c = false) ->
  let ext := cleaned_ext (file_ext filename) in
  let name := String.append "uploads/" (String.append (uuid_hex u) (String "." ext)) in
  field_generate_filename u filename = Some name /\
  get_available_name name =
    (if Nat.leb (String.length ext) 55 then Some KeepName
     else if Nat.leb 83 (String.length ext) then None
     else Some (AlternativeName "uploads"
                  (substring 0 (83 - String.length ext) (uuid_hex u)) (String "." ext))) /\
  upload_location u filename =
    (if Nat.leb 83 (String.length ext) then None
     else Some {| loc_uuid := u; loc_ext := ext |}).
Proof.
  intros Hf ext name.
  destruct (uuid_hex_chars u) as [Hl Hc].
  assert (He' : forall c, In c (list_ascii_of_string ext) -> is_path_sep c = false)
    by (intros c Hin; apply valid_name_char_not_sep, (cleaned_ext_chars _ _ Hin)).
  assert (Hd' : forall c, In c (list_ascii_of_string ext) -> Ascii.eqb c "." = false).
  { intros c Hin. destruct (cleaned_ext_chars _ _ Hin) as [_ [-> | H]]; [reflexivity|].
    apply (file_ext_chars _ _ H). }
  pose proof (field_generate_upload u filename Hf) as Hg.
  fold ext in Hg. rewrite upload_path_string in Hg. fold name in Hg.
  assert (Hn : name = string_of_list_ascii (list_ascii_of_string "uploads" ++ "/"%char ::
                 list_ascii_of_string (uuid_hex u) ++ "."%char :: list_ascii_of_string ext))
    by (rewrite upload_path_string; reflexivity).
  assert (Ha : get_available_name name =
    (if Nat.leb (String.length ext) 55 then Some KeepName
     else if Nat.leb 83 (String.length ext) then None
     else Some (AlternativeName "uploads"
                  (substring 0 (83 - String.length ext) (uuid_hex u)) (String "." ext)))).
  { rewrite Hn, (L_available (list_ascii_of_string (uuid_hex u))) by assumption.
    rewrite !string_of_list_ascii_of_string, length_las. reflexivity. }
  split; [exact Hg|]. split; [exact Ha|].
  rewrite upload_location_unfold, Hg.
  rewrite Hn at 1. rewrite (L_validate (list_ascii_of_string (uuid_hex u))) by assumption.
  cbn [negb]. rewrite Ha.
  rewrite Hn, (L_loc_ext (list_ascii_of_string (uuid_hex u))) by assumption.
  rewrite string_of_list_ascii_of_string.
  destruct (Nat.leb 83 (String.length ext)) eqn:E83.
  - apply Nat.leb_le in E83.
    replace (Nat.leb (String.length ext) 55) with false
      by (symmetry; apply Nat.leb_gt; lia). reflexivity.
  - destruct (Nat.leb (String.length ext) 55); reflexivity.
Qed.

Lemma upload_storage_name_witness :
  (forall c, In c (list_ascii_of_string "notes.tar.gz") -> is_path_sep c = false) /\
  upload_location 7 "notes.tar.gz" = Some {| loc_uuid := 7; loc_ext := "gz" |}.
Proof.
  assert (H : forall c, In c (list_ascii_of_string "notes.tar.gz") -> is_path_sep c = false)
    by (intros c Hc; vm_compute in Hc; intuition (subst; reflexivity)).
  split; [exact H|].
  destruct (upload_storage_name 7 "notes.tar.gz" H) as (_ & _ & H3).
  rewrite H3. vm_compute. reflexivity.
Defined.


Section ListingExtras.

Variable parse_datetime : string -> Parsed (Z * bool).
Variable parse_date : string -> Parsed Z.
Variable make_aware : Z -> Z.

Lemma optional_filter_iff (qp : QueryParams) (key : string) (q q' : QuerySet)
    (parse : string -> Result (File -> bool)) (r : File) :
  optional_filter qp key q parse = Ok q' ->
  (qs_matches q' r = true <->
   qs_matches q r = true /\
   (forall v c, qp_get key qp = Some v -> v <> "" -> parse v = Ok c -> c r = true)).
Proof.
  unfold optional_filter. destruct (qp_get key qp) as [v|] eqn:Hg.
  - destruct (String.eqb v "") eqn:Ev.
    + intros [= <-]. apply String.eqb_eq in Ev.
      split; [intros H; split; [exact H | intros v' c [= <-] Hne; contradiction] | tauto].
    + destruct (parse v) as [c|e] eqn:Hp; [|discriminate]. intros [= <-].
      unfold qs_filter, qs_matches. rewrite forallb_app. simpl.
      rewrite andb_true_r, andb_true_iff. split.
      * intros [H1 H2]. split; [exact H1|]. intros v' c' [= <-] _ Hp'.
        rewrite Hp in Hp'. injection Hp' as <-. exact H2.
      * intros [H1 H2]. split; [exact H1|].
        apply (H2 v c eq_refl); [apply String.eqb_neq; exact Ev | exact Hp].
  - intros [= <-]. split; [intros H; split; [exact H | intros v c [=]] | tauto].
Qed.

Lemma rbind_ok {A B : Type} (x : Result A) (k : A -> Result B) (b : B) :
  rbind x k = Ok b -> exists a, x = Ok a /\ k a = Ok b.
Proof.
  destruct x as [a|e]; simpl; [intros H; exists a; split; [reflexivity | exact H] | discriminate].
Qed.

Lemma rmap_ok {A B : Type} (g : A -> B) (x : Result A) (b : B) :
  rmap g x = Ok b <-> exists a, x = Ok a /\ b = g a.
Proof.
  destruct x as [a|e]; simpl; split.
  - intros [= <-]. exists a. split; reflexivity.
  - intros (a' & [= <-] & ->). reflexivity.
  - discriminate.
  - intros (a' & H & _). discriminate H.
Qed.

Lemma py_int_empty : py_int "" = None.
Proof. reflexivity. Qed.

Lemma cond_total (qp : QueryParams) (key : string) (g : string -> File -> bool) (r : File) :
  (forall v c, qp_get key qp = Some v -> v <> "" -> Ok (g v) = Ok c -> c r = true) <->
  (forall v, qp_get key qp = Some v -> v <> "" -> g v r = true).
Proof.
  split.
  - intros H v Hg Hne. exact (H v (g v) Hg Hne eq_refl).
  - intros H v c Hg Hne [= <-]. exact (H v Hg Hne).
Qed.

Lemma cond_size (qp : QueryParams) (key : string) (cmp : Z -> File -> bool) (r : File) :
  (forall v c, qp_get key qp = Some v -> v <> "" ->
     rmap cmp (size_bound key v) = Ok c -> c r = true) <->
  (forall v n, qp_get key qp = Some v -> py_int v = Some n -> cmp n r = true).
Proof.
  unfold size_bound. split.
  - intros H v n Hg Hn. apply (H v (cmp n) Hg).
    + intros ->. rewrite py_int_empty in Hn. discriminate.
    + rewrite Hn. reflexivity.
  - intros H v c Hg _ Hc. apply rmap_ok in Hc as (n & Hn & ->).
    destruct (py_int v) as [n'|] eqn:E; [|discriminate]. injection Hn as <-.
    exact (H v n' Hg E).
Qed.

Lemma cond_date (qp : QueryParams) (key : string) (eod : bool) (cmp : Z -> File -> bool)
    (r : File) :
  (forall v c, qp_get key qp = Some v -> v <> "" ->
     rmap cmp (date_bound parse_datetime parse_date make_aware key v eod) = Ok c -> c r = true) <->
  (forall v t, qp_get key qp = Some v -> v <> "" ->
     date_bound parse_datetime parse_date make_aware key v eod = Ok t -> cmp t r = true).
Proof.
  split.
  - intros H v t Hg Hne Ht. apply (H v (cmp t) Hg Hne). rewrite Ht. reflexivity.
  - intros H v c Hg Hne Hc. apply rmap_ok in Hc as (t & Ht & ->). exact (H v t Hg Hne Ht).
Qed.

Lemma get_queryset_iff (qp : QueryParams) (qs : QuerySet) (r : File) :
  get_queryset parse_datetime parse_date make_aware qp = Ok qs ->
  (qs_matches qs r = true <->
   (forall v, qp_get "search" qp = Some v -> v <> "" ->
      icontains (f_original_filename r) v = true) /\
   (forall v, qp_get "file_type" qp = Some v -> v <> "" -> f_file_type r = v) /\
   (forall v n, qp_get "size_min" qp = Some v -> py_int v = Some n -> n <= f_size r) /\
   (forall v n, qp_get "size_max" qp = Some v -> py_int v = Some n -> f_size r <= n) /\
   (forall v t, qp_get "uploaded_after" qp = Some v -> v <> "" ->
      date_bound parse_datetime parse_date make_aware "uploaded_after" v false = Ok t ->
      t <= f_uploaded_at r) /\
   (forall v t, qp_get "uploaded_before" qp = Some v -> v <> "" ->
      date_bound parse_datetime parse_date make_aware "uploaded_before" v true = Ok t ->
      f_uploaded_at r <= t)).
Proof.
  unfold get_queryset. intros H.
  apply rbind_ok in H as (q1 & H1 & H).
  apply rbind_ok in H as (q2 & H2 & H).
  apply rbind_ok in H as (q3 & H3 & H).
  apply rbind_ok in H as (q4 & H4 & H).
  apply rbind_ok in H as (q5 & H5 & H6).
  rewrite (optional_filter_iff _ _ _ _ _ r H6), (optional_filter_iff _ _ _ _ _ r H5),
    (optional_filter_iff _ _ _ _ _ r H4), (optional_filter_iff _ _ _ _ _ r H3),
    (optional_filter_iff _ _ _ _ _ r H2), (optional_filter_iff _ _ _ _ _ r H1).
  rewrite (cond_total qp "search" (fun search r => icontains (f_original_filename r) search)).
  rewrite (cond_total qp "file_type" (fun file_type r => String.eqb (f_file_type r) file_type)).
  rewrite (cond_size qp "size_min"), (cond_size qp "size_max").
  rewrite (cond_date qp "uploaded_after"), (cond_date qp "uploaded_before").
  assert (E1 : forall a b : Z, (a <=? b) = true <-> a <= b) by (intros; apply Z.leb_le).
  assert (E2 : forall a b : string, String.eqb a b = true <-> a = b) by (intros; apply String.eqb_eq).
  unfold qs_matches at 1. cbn [forallb].
  split.
  - intros (((((( _ & Hs) & Ht) & Hmin) & Hmax) & Ha) & Hb).
    repeat split; intros.
    + apply Hs; assumption.
    + apply E2. apply (Ht v); assumption.
    + apply E1. apply (Hmin v); assumption.
    + apply E1. apply (Hmax v); assumption.
    + apply E1. apply (Ha v); assumption.
    + apply E1. apply (Hb v); assumption.
  - intros (Hs & Ht & Hmin & Hmax & Ha & Hb).
    repeat split; intros.
    + apply Hs; assumption.
    + apply E2. apply (Ht v); assumption.
    + apply E1. apply (Hmin v); assumption.
    + apply E1. apply (Hmax v); assumption.
    + apply E1. apply (Ha v); assumption.
    + apply E1. apply (Hb v); assumption.
Qed.


(** X12 (get_queryset): a listing that succeeds returns exactly the rows of
    the table that pass every filter given with a non-empty value: the name
    contains [search] ignoring case, the type equals [file_type], the size
    lies within [size_min] / [size_max], and the upload instant within the
    bounds [uploaded_after] / [uploaded_before] parse to. *)
Theorem list_files_selects_matching (qp : QueryParams) (rows out : list File) (r : File) :
  list_files parse_datetime parse_date make_aware qp rows = Ok out ->
  (In r out <->
   In r rows /\
   (forall v, qp_get "search" qp = Some v -> v <> "" ->
      icontains (f_original_filename r) v = true) /\
   (forall v, qp_get "file_type" qp = Some v -> v <> "" -> f_file_type r = v) /\
   (forall v n, qp_get "size_min" qp = Some v -> py_int v = Some n -> n <= f_size r) /\
   (forall v n, qp_get "size_max" qp = Some v -> py_int v = Some n -> f_size r <= n) /\
   (forall v t, qp_get "uploaded_after" qp = Some v -> v <> "" ->
      date_bound parse_datetime parse_date make_aware "uploaded_after" v false = Ok t ->
      t <= f_uploaded_at r) /\
   (forall v t, qp_get "uploaded_before" qp = Some v -> v <> "" ->
      date_bound parse_datetime parse_date make_aware "uploaded_before" v true = Ok t ->
      f_uploaded_at r <= t)).
Proof.
  unfold list_files. intros H. apply rmap_ok in H as (qs & Hqs & ->).
  rewrite <- (get_queryset_iff qp qs r Hqs). unfold evaluate.
  rewrite <- filter_In. split.
  - apply Permutation_in. apply order_by_uploaded_desc_perm.
  - apply Permutation_in. symmetry. apply order_by_uploaded_desc_perm.
Qed.

(** X14 (get_queryset): a request that sets none of the six filters (or
    sets them empty) lists every row of the table. *)
Theorem list_files_no_filters (qp : QueryParams) (rows : list File) :
  (forall k, In k ["search"; "file_type"; "size_min"; "size_max";
                   "uploaded_after"; "uploaded_before"] ->
     qp_get k qp = None \/ qp_get k qp = Some "") ->
  exists out, list_files parse_datetime parse_date make_aware qp rows = Ok out /\
              Permutation out rows.
Proof.
  intros H.
  assert (Hq : forall k q parse, In k ["search"; "file_type"; "size_min"; "size_max";
                                       "uploaded_after"; "uploaded_before"] ->
                 optional_filter qp k q parse = Ok q).
  { intros k q parse Hk. unfold optional_filter.
    destruct (H k Hk) as [-> | ->]; reflexivity. }
  exists (evaluate [] rows). split.
  - unfold list_files, get_queryset.
    rewrite Hq by (simpl; tauto). cbn [rbind].
    rewrite Hq by (simpl; tauto). cbn [rbind].
    rewrite Hq by (simpl; tauto). cbn [rbind].
    rewrite Hq by (simpl; tauto). cbn [rbind].
    rewrite Hq by (simpl; tauto). cbn [rbind].
    rewrite Hq by (simpl; tauto). reflexivity.
  - unfold evaluate. rewrite order_by_uploaded_desc_perm.
    rewrite filter_all_true; [reflexivity | intros; reflexivity].
Qed.

End ListingExtras.

Lemma list_files_selects_matching_witness :
  In (demo_row demo_s2 1)
     (order_by_uploaded_desc (st_db demo_s2)) <->
  In (demo_row demo_s2 1) (st_db demo_s2) /\
   (forall v, qp_get "search" [("search", "TXT"); ("size_min", "2")] = Some v -> v <> "" ->
      icontains (f_original_filename (demo_row demo_s2 1)) v = true) /\
   (forall v, qp_get "file_type" [("search", "TXT"); ("size_min", "2")] = Some v -> v <> "" ->
      f_file_type (demo_row demo_s2 1) = v) /\
   (forall v n, qp_get "size_min" [("search", "TXT"); ("size_min", "2")] = Some v ->
      py_int v = Some n -> n <= f_size (demo_row demo_s2 1)) /\
   (forall v n, qp_get "size_max" [("search", "TXT"); ("size_min", "2")] = Some v ->
      py_int v = Some n -> f_size (demo_row demo_s2 1) <= n) /\
   (forall v t, qp_get "uploaded_after" [("search", "TXT"); ("size_min", "2")] = Some v ->
      v <> "" ->
      date_bound demo_parse_datetime demo_parse_date demo_make_aware "uploaded_after" v false
      = Ok t -> t <= f_uploaded_at (demo_row demo_s2 1)) /\
   (forall v t, qp_get "uploaded_before" [("search", "TXT"); ("size_min", "2")] = Some v ->
      v <> "" ->
      date_bound demo_parse_datetime demo_parse_date demo_make_aware "uploaded_before" v true
      = Ok t -> f_uploaded_at (demo_row demo_s2 1) <= t).
Proof.
  apply (list_files_selects_matching demo_parse_datetime demo_parse_date demo_make_aware
           [("search", "TXT"); ("size_min", "2")] (st_db demo_s2)).
  vm_compute. reflexivity.
Defined.

Lemma list_files_no_filters_witness :
  exists out, demo_list_files [("search", ""); ("page", "2")] (st_db demo_s2) = Ok out /\
              Permutation out (st_db demo_s2).
Proof.
  apply (list_files_no_filters demo_parse_datetime demo_parse_date demo_make_aware).
  intros k Hk. vm_compute in Hk.
  repeat destruct Hk as [<- | Hk]; try contradiction; vm_compute; tauto.
Defined.
